(** * AIMS EXAM client scripts: a shallow embedding and its properties

    Two browser scripts are modelled:
    - [static/js/theme-toggle.js]  (module [ThemeToggle]): light/dark theme
      switching with [localStorage] persistence;
    - the page's main script (module [Main]): of it, the alert auto-dismiss
      [initAlerts] and the built-ins it calls ([parseInt], [setTimeout]).
      Its other parts (sidebar, language selector, form validation,
      confirm dialogs, [init]) are in module [MainDom], over a document
      with parent links and event dispatch from the target up to the
      document.

    The browser is an explicit state: the storage area, the attributes of
    the root element, the elements of the document in document order, the
    registered listeners.  A script function is a computation over that
    state which either returns or throws, keeping the effects made before
    the throw. *)

From stdpp Require Import base option strings gmap list.
From Stdlib Require Import Ascii ZArith Lia.
From Stdlib Require Decimal DecimalString DecimalN DecimalPos.

Local Open Scope string_scope.

(** ** JavaScript values *)
Module Js.

(** [x || d] where [x] is a string or [null]: [null] and the empty string
    are the falsy ones. *)
Definition truthy (x : option string) : bool :=
  match x with
  | Some s => negb (bool_decide (s = ""))
  | None => false
  end.

Definition or_default (x : option string) (d : string) : string :=
  match x with
  | Some s => if bool_decide (s = "") then d else s
  | None => d
  end.

(** [String(b)], the conversion [setAttribute] applies to a boolean. *)
Definition string_of_bool (b : bool) : string :=
  if b then "true" else "false".

End Js.

(** ** The page: what the scripts read and write *)
Module Dom.

(** Functions of theme-toggle.js that are registered as event handlers. *)
Inductive Listener := ToggleTheme | InitTheme.

#[global] Instance Listener_eq_dec : EqDecision Listener.
Proof. solve_decision. Defined.

(** The one exception in scope: [localStorage.setItem] refused. *)
Inductive Exn := QuotaExceededError.

Record Element := mkElement {
  classList : list string;
  attributes : gmap string string;
  clickListeners : list Listener;
  parentElement : option nat       (* position of the parent element, if any *)
}.

Record Page := mkPage {
  localStorage : gmap string string;
  storageWritable : bool;          (* false: setItem throws *)
  prefersDark : bool;              (* matchMedia('(prefers-color-scheme: dark)').matches *)
  readyStateLoading : bool;        (* document.readyState === 'loading' *)
  rootAttributes : gmap string string;   (* attributes of document.documentElement *)
  elements : list Element;         (* the elements below the root, in document order;
                                      the root itself has no class the scripts select *)
  domContentLoaded : list Listener;      (* listeners of the document's DOMContentLoaded *)
  windowToggleTheme : bool         (* window.toggleTheme is defined *)
}.

Definition set_localStorage (f : gmap string string → gmap string string) (p : Page) : Page :=
  mkPage (f (localStorage p)) (storageWritable p) (prefersDark p) (readyStateLoading p)
         (rootAttributes p) (elements p) (domContentLoaded p) (windowToggleTheme p).

Definition set_rootAttributes (f : gmap string string → gmap string string) (p : Page) : Page :=
  mkPage (localStorage p) (storageWritable p) (prefersDark p) (readyStateLoading p)
         (f (rootAttributes p)) (elements p) (domContentLoaded p) (windowToggleTheme p).

Definition set_elements (f : list Element → list Element) (p : Page) : Page :=
  mkPage (localStorage p) (storageWritable p) (prefersDark p) (readyStateLoading p)
         (rootAttributes p) (f (elements p)) (domContentLoaded p) (windowToggleTheme p).

Definition set_domContentLoaded (f : list Listener → list Listener) (p : Page) : Page :=
  mkPage (localStorage p) (storageWritable p) (prefersDark p) (readyStateLoading p)
         (rootAttributes p) (elements p) (f (domContentLoaded p)) (windowToggleTheme p).

Definition set_readyStateLoading (b : bool) (p : Page) : Page :=
  mkPage (localStorage p) (storageWritable p) (prefersDark p) b
         (rootAttributes p) (elements p) (domContentLoaded p) (windowToggleTheme p).

Definition set_windowToggleTheme (b : bool) (p : Page) : Page :=
  mkPage (localStorage p) (storageWritable p) (prefersDark p) (readyStateLoading p)
         (rootAttributes p) (elements p) (domContentLoaded p) b.

(** *** Computations: return a value or throw, with the page reached *)
Inductive Res (A : Type) :=
| Ok (a : A) (p : Page)
| Throw (e : Exn) (p : Page).
Arguments Ok {A} a p.
Arguments Throw {A} e p.

Definition M (A : Type) : Type := Page → Res A.

#[global] Instance M_ret : MRet M := λ A a p, Ok a p.
#[global] Instance M_bind : MBind M := λ A B k m p,
  match m p with
  | Ok a p' => k a p'
  | Throw e p' => Throw e p'
  end.

(** The page a computation leaves behind, thrown or not. *)
Definition page_of {A} (r : Res A) : Page :=
  match r with Ok _ p => p | Throw _ p => p end.

Definition exec {A} (m : M A) (p : Page) : Page := page_of (m p).

Definition returns {A} (r : Res A) : bool :=
  match r with Ok _ _ => true | Throw _ _ => false end.

(** *** Storage *)
Definition getItem (k : string) : M (option string) :=
  λ p, Ok (localStorage p !! k) p.

Definition setItem (k v : string) : M unit :=
  λ p, if storageWritable p
       then Ok tt (set_localStorage (insert k v) p)
       else Throw QuotaExceededError p.

(** *** The root element *)
Definition root_getAttribute (n : string) : M (option string) :=
  λ p, Ok (rootAttributes p !! n) p.

Definition root_setAttribute (n v : string) : M unit :=
  λ p, Ok tt (set_rootAttributes (insert n v) p).

(** *** Class selectors: [querySelector('.c')] is the first element in
    document order that has class [c], [querySelectorAll('.c')] all of
    them.  Elements are named by their position in the document. *)
Definition has_class (c : string) (e : Element) : bool :=
  bool_decide (c ∈ classList e).

Fixpoint find_class (c : string) (es : list Element) : option nat :=
  match es with
  | [] => None
  | e :: es' => if has_class c e then Some 0 else S <$> find_class c es'
  end.

Fixpoint find_all_class (c : string) (i : nat) (es : list Element) : list nat :=
  match es with
  | [] => []
  | e :: es' =>
      if has_class c e then i :: find_all_class c (S i) es'
      else find_all_class c (S i) es'
  end.

Definition querySelector (c : string) : M (option nat) :=
  λ p, Ok (find_class c (elements p)) p.

Definition querySelectorAll (c : string) : M (list nat) :=
  λ p, Ok (find_all_class c 0 (elements p)) p.

(** *** Elements.  [setAttribute] here is for attributes other than
    [class], the only ones the scripts set. *)
Definition with_attribute (n v : string) (e : Element) : Element :=
  mkElement (classList e) (<[n:=v]> (attributes e)) (clickListeners e)
            (parentElement e).

(** A listener already registered on the target is not added again. *)
Definition add_listener (l : Listener) (ls : list Listener) : list Listener :=
  if bool_decide (l ∈ ls) then ls else ls ++ [l].

Definition with_clickListener (l : Listener) (e : Element) : Element :=
  mkElement (classList e) (attributes e) (add_listener l (clickListeners e))
            (parentElement e).

Definition setAttribute (i : nat) (n v : string) : M unit :=
  λ p, Ok tt (set_elements (alter (with_attribute n v) i) p).

Definition addClickListener (i : nat) (l : Listener) : M unit :=
  λ p, Ok tt (set_elements (alter (with_clickListener l) i) p).

Definition getAttribute (i : nat) (n : string) (p : Page) : option string :=
  e ← elements p !! i; attributes e !! n.

(** *** The document and the window *)
Definition matchMedia_prefers_dark : M bool :=
  λ p, Ok (prefersDark p) p.

Definition readyState_is_loading : M bool :=
  λ p, Ok (readyStateLoading p) p.

Definition document_onDOMContentLoaded (l : Listener) : M unit :=
  λ p, Ok tt (set_domContentLoaded (add_listener l) p).

Definition window_set_toggleTheme : M unit :=
  λ p, Ok tt (set_windowToggleTheme true p).

(** [ids.forEach(f)] *)
Fixpoint forEach {A} (xs : list A) (f : A → M unit) : M unit :=
  match xs with
  | [] => mret tt
  | x :: xs' => f x;; forEach xs' f
  end.

End Dom.

(** ** static/js/theme-toggle.js *)
Module ThemeToggle.
Import Js Dom.

Definition THEME_KEY : string := "aims-theme".
Definition DARK_THEME : string := "dark".
Definition LIGHT_THEME : string := "light".

(** The spec's two-valued ThemePreference and its text in the store. *)
Inductive ThemePreference := light | dark.

Definition theme_text (t : ThemePreference) : string :=
  match t with light => LIGHT_THEME | dark => DARK_THEME end.

Definition getSavedTheme : M string :=
  saved ← getItem THEME_KEY;
  mret (or_default saved LIGHT_THEME).

Definition applyTheme (theme : string) : M unit :=
  root_setAttribute "data-theme" theme;;
  setItem THEME_KEY theme;;
  toggleBtn ← querySelector "theme-toggle";
  match toggleBtn with
  | Some btn =>
      setAttribute btn "aria-pressed"
        (string_of_bool (bool_decide (theme = DARK_THEME)));;
      setAttribute btn "title"
        (if bool_decide (theme = DARK_THEME)
         then "Switch to Light Mode" else "Switch to Dark Mode")
  | None => mret tt
  end.

Definition toggleTheme : M unit :=
  attr ← root_getAttribute "data-theme";
  let currentTheme := or_default attr LIGHT_THEME in
  let newTheme :=
    if bool_decide (currentTheme = DARK_THEME) then LIGHT_THEME else DARK_THEME in
  applyTheme newTheme.

Definition initTheme : M unit :=
  savedTheme ← getSavedTheme;
  applyTheme savedTheme;;
  btns ← querySelectorAll "theme-toggle";
  forEach btns (λ btn, addClickListener btn ToggleTheme).

Definition checkSystemPreference : M string :=
  saved ← getItem THEME_KEY;
  if negb (truthy saved) then
    prefersDark ← matchMedia_prefers_dark;
    mret (if prefersDark : bool then DARK_THEME else LIGHT_THEME)
  else getSavedTheme.

(** The immediately-invoked function that sets the marker at load. *)
Definition antiFlash : M unit :=
  theme ← checkSystemPreference;
  root_setAttribute "data-theme" theme.

(** The body of the script, top to bottom. *)
Definition script : M unit :=
  antiFlash;;
  loading ← readyState_is_loading;
  (if loading : bool then document_onDOMContentLoaded InitTheme else initTheme);;
  window_set_toggleTheme.

Definition run_listener (l : Listener) : M unit :=
  match l with
  | ToggleTheme => toggleTheme
  | InitTheme => initTheme
  end.

(** Dispatch of an event: every listener runs, in registration order; a
    listener that throws does not stop the ones after it. *)
Definition dispatch (ls : list Listener) (p : Page) : Page :=
  foldl (λ q l, exec (run_listener l) q) p ls.

Definition fire_DOMContentLoaded (p : Page) : Page :=
  let q := set_readyStateLoading false p in
  dispatch (domContentLoaded q) q.

(** The chain of ancestors of an element, nearest first. *)
Fixpoint ancestors_upto (fuel : nat) (es : list Element) (i : nat) : list nat :=
  match fuel with
  | O => []
  | S fuel' =>
      match es !! i ≫= parentElement with
      | Some a => a :: ancestors_upto fuel' es a
      | None => []
      end
  end.

Definition ancestors (es : list Element) (i : nat) : list nat :=
  ancestors_upto (length es) es i.

(** The click event at one stop of its way up: the listeners of that
    element run. *)
Definition click_at (j : nat) (p : Page) : Page :=
  match elements p !! j with
  | Some e => dispatch (clickListeners e) p
  | None => p
  end.

(** A click on the element at position [i]: the event goes from its
    target up through the ancestors.  (Its way ends at the document and
    the window, where this script registers no click listener.) *)
Definition click (i : nat) (p : Page) : Page :=
  foldl (λ q j, click_at j q) p (i :: ancestors (elements p) i).

(** A page load: the script runs; where the document was still loading,
    the DOMContentLoaded event follows. *)
Definition pageLoad (p : Page) : Page :=
  let q := exec script p in
  if readyStateLoading p then fire_DOMContentLoaded q else q.

(** The document theme marker and the persisted preference. *)
Definition marker (p : Page) : option string := rootAttributes p !! "data-theme".
Definition persisted (p : Page) : option string := localStorage p !! THEME_KEY.

(** *** Closed forms of the functions above.
    Each is proved equal to the function it describes in
    [ThemeToggleFacts] ([applyTheme_writable], [toggleTheme_eq],
    [initTheme_writable], [getSavedTheme_eq], [checkSystemPreference_eq]). *)

(** What [applyTheme] does to the toggle controls: the first element of
    class [theme-toggle], and only that one, gets the two attributes. *)
Definition pressed_text (theme : string) : string :=
  string_of_bool (bool_decide (theme = DARK_THEME)).

Definition title_text (theme : string) : string :=
  if bool_decide (theme = DARK_THEME)
  then "Switch to Light Mode" else "Switch to Dark Mode".

Definition update_toggle (theme : string) (es : list Element) : list Element :=
  match find_class "theme-toggle" es with
  | Some btn =>
      alter (with_attribute "title" (title_text theme)) btn
        (alter (with_attribute "aria-pressed" (pressed_text theme)) btn es)
  | None => es
  end.

(** The page after an [applyTheme] whose write went through. *)
Definition applied (theme : string) (p : Page) : Page :=
  set_elements (update_toggle theme)
    (set_localStorage (insert THEME_KEY theme)
       (set_rootAttributes (insert "data-theme" theme) p)).

(** The theme [toggleTheme] switches to, from the marker it reads. *)
Definition next_theme (m : option string) : string :=
  if bool_decide (or_default m LIGHT_THEME = DARK_THEME)
  then LIGHT_THEME else DARK_THEME.

(** The elements after [ids.forEach(btn => btn.addEventListener('click', l))]. *)
Definition attach_all (l : Listener) (ids : list nat) (es : list Element) : list Element :=
  foldl (λ acc i, alter (with_clickListener l) i acc) es ids.

(** What [getSavedTheme] and [checkSystemPreference] return on a page. *)
Definition resolved_saved (p : Page) : string := or_default (persisted p) LIGHT_THEME.

Definition resolved_initial (p : Page) : string :=
  if negb (truthy (persisted p))
  then (if prefersDark p then DARK_THEME else LIGHT_THEME)
  else resolved_saved p.

(** *** Reading the toggle controls.
    A control shows a theme when its two attributes are the ones
    [applyTheme] writes for that theme. *)
Definition shows (theme : string) (e : Element) : Prop :=
  attributes e !! "aria-pressed" = Some (pressed_text theme) ∧
  attributes e !! "title" = Some (title_text theme).

Definition all_toggles_show (theme : string) (p : Page) : Prop :=
  ∀ i e, elements p !! i = Some e →
         has_class "theme-toggle" e = true → shows theme e.

End ThemeToggle.

(** ** The main script: alert auto-dismiss *)
Module Main.
Local Open Scope Z_scope.

(** *** [parseInt(s)] with no radix argument.
    A string is a sequence of code units below 256.  The digits are read
    as an exact integer, and the result is the Number nearest to it (the
    language lets an engine read decimal digits after the twentieth as
    zeros; none of the properties below depends on that choice). *)
Definition is_white_space (c : ascii) : bool :=
  let n := Z.of_nat (nat_of_ascii c) in
  ((9 <=? n) && (n <=? 13)) || (n =? 32) || (n =? 160).

Fixpoint trim_start (s : string) : string :=
  match s with
  | String c s' => if is_white_space c then trim_start s' else s
  | EmptyString => s
  end.

Definition digit_value (c : ascii) : option Z :=
  let n := Z.of_nat (nat_of_ascii c) in
  if (48 <=? n) && (n <=? 57) then Some (n - 48)
  else if (97 <=? n) && (n <=? 122) then Some (n - 87)
  else if (65 <=? n) && (n <=? 90) then Some (n - 55)
  else None.

(** The longest prefix of radix-[R] digits, read as a number; [acc] is
    what has been read so far, [None] before the first digit. *)
Fixpoint parse_digits (R : Z) (s : string) (acc : option Z) : option Z :=
  match s with
  | String c s' =>
      match digit_value c with
      | Some d =>
          if d <? R then parse_digits R s' (Some (R * default 0 acc + d))
          else acc
      | None => acc
      end
  | EmptyString => acc
  end.

Definition strip_sign (s : string) : Z * string :=
  match s with
  | String "-" s' => (-1, s')
  | String "+" s' => (1, s')
  | _ => (1, s)
  end.

Definition strip_hex_prefix (s : string) : Z * string :=
  match s with
  | String "0" (String "x" s') => (16, s')
  | String "0" (String "X" s') => (16, s')
  | _ => (10, s)
  end.

(** The Numbers [parseInt] can return: NaN, an integer that a double
    holds, or an infinity.  [Int 0] stands for both zeros. *)
Inductive Num :=
| NaN
| Int (z : Z)
| Inf (negative : bool).

(** The double nearest to an integer (ties go to the even significand):
    integers below 2^53 in size are doubles; a larger one keeps its 53
    leading bits, rounded; from 2^1024 on the result is an infinity. *)
Definition to_number (z : Z) : Num :=
  let a := Z.abs z in
  if a <? 2 ^ 53 then Int z
  else
    let k := Z.log2 a - 52 in
    let q := Z.shiftr a k in
    let r := a - Z.shiftl q k in
    let half := 2 ^ (k - 1) in
    let q' := if (half <? r) || ((r =? half) && Z.odd q) then q + 1 else q in
    let m := Z.shiftl q' k in
    if 2 ^ 1024 <=? m then Inf (z <? 0) else Int (Z.sgn z * m).

Definition parseInt (s : string) : Num :=
  let '(sign, s1) := strip_sign (trim_start s) in
  let '(R, s2) := strip_hex_prefix s1 in
  match parse_digits R s2 None with
  | Some n => to_number (sign * n)
  | None => NaN
  end.

(** [x || d] on a Number: NaN and the zeros are falsy. *)
Definition number_or (x : Num) (d : Z) : Num :=
  match x with
  | NaN => Int d
  | Int z => if z =? 0 then Int d else Int z
  | Inf b => Inf b
  end.

(** *** The window: nodes, clock, timers *)
Record Node := mkNode {
  parent : option nat;             (* position of the parent node; None right below the body *)
  classList : list string;
  attributes : gmap string string;
  styleOpacity : option string;    (* element.style.opacity, when set *)
  attached : bool                  (* still a child of its parent: no remove() yet *)
}.

(** The two closures [initAlerts] hands to [setTimeout], each closed over
    its alert (named by its position in the document). *)
Inductive Callback :=
| FadeOut (i : nat)     (* () => { alert.style.opacity = '0'; setTimeout(..., 300) } *)
| Remove (i : nat).     (* () => alert.remove() *)

#[global] Instance Callback_eq_dec : EqDecision Callback.
Proof. solve_decision. Defined.

Record Timer := mkTimer { due : Z; callback : Callback }.

Record Window := mkWindow {
  now : Z;                 (* milliseconds *)
  nodes : list Node;
  timers : list Timer      (* pending, earliest first; equal dues in registration order *)
}.

(** The delay of [setTimeout] is a WebIDL long: an integer is taken modulo
    2^32 into the signed range, NaN and the infinities are zero; and a
    negative delay counts as zero. *)
Definition to_int32 (z : Z) : Z := (z + 2 ^ 31) mod 2 ^ 32 - 2 ^ 31.

Definition timer_delay (x : Num) : Z :=
  match x with
  | Int z => Z.max 0 (to_int32 z)
  | NaN | Inf _ => 0
  end.

Fixpoint insert_timer (t : Timer) (ts : list Timer) : list Timer :=
  match ts with
  | [] => [t]
  | u :: ts' =>
      if due u <=? due t then u :: insert_timer t ts' else t :: ts
  end.

Definition setTimeout (cb : Callback) (delay : Num) (w : Window) : Window :=
  mkWindow (now w) (nodes w)
           (insert_timer (mkTimer (now w + timer_delay delay) cb) (timers w)).

Definition set_opacity (v : string) (n : Node) : Node :=
  mkNode (parent n) (classList n) (attributes n) (Some v) (attached n).

(** [node.remove()]: the node leaves its parent, and takes its subtree
    along: what is below it is no longer in the document either. *)
Definition detach (n : Node) : Node :=
  mkNode (parent n) (classList n) (attributes n) (styleOpacity n) false.

Definition update_node (i : nat) (f : Node → Node) (w : Window) : Window :=
  mkWindow (now w) (alter f i (nodes w)) (timers w).

(** The chain of ancestors of a node, nearest first. *)
Fixpoint ancestors_upto (fuel : nat) (ns : list Node) (i : nat) : list nat :=
  match fuel with
  | O => []
  | S fuel' =>
      match ns !! i ≫= parent with
      | Some p => p :: ancestors_upto fuel' ns p
      | None => []
      end
  end.

Definition ancestors (ns : list Node) (i : nat) : list nat :=
  ancestors_upto (length ns) ns i.

Definition node_attached (ns : list Node) (i : nat) : bool :=
  match ns !! i with
  | Some n => attached n
  | None => false
  end.

(** A node is in the document when neither it nor any of its ancestors
    has been removed. *)
Definition in_document (ns : list Node) (i : nat) : bool :=
  forallb (node_attached ns) (i :: ancestors ns i).

(** [document.querySelectorAll('.alert[data-dismiss]')]: the test on the
    node at position [i] of the document [all]. *)
Definition is_dismissible_alert (all : list Node) (i : nat) (n : Node) : bool :=
  in_document all i && bool_decide ("alert" ∈ classList n)
  && bool_decide (is_Some (attributes n !! "data-dismiss")).

Fixpoint select_alerts (all : list Node) (i : nat) (ns : list Node) : list nat :=
  match ns with
  | [] => []
  | n :: ns' =>
      if is_dismissible_alert all i n then i :: select_alerts all (S i) ns'
      else select_alerts all (S i) ns'
  end.

(** [alert.dataset.dismiss]; a missing attribute reads [undefined], which
    [parseInt] turns into the text "undefined". *)
Definition dataset_dismiss (n : Node) : string :=
  default "undefined" (attributes n !! "data-dismiss").

Definition dismissTime (n : Node) : Num :=
  number_or (parseInt (dataset_dismiss n)) 5000.

(** The function handed to [alerts.forEach]. *)
Definition schedule (q : Window) (i : nat) : Window :=
  match nodes q !! i with
  | Some n => setTimeout (FadeOut i) (dismissTime n) q
  | None => q
  end.

Definition initAlerts (w : Window) : Window :=
  foldl schedule w (select_alerts (nodes w) 0 (nodes w)).

(** *** Running the timers *)
Definition run_callback (cb : Callback) (w : Window) : Window :=
  match cb with
  | FadeOut i => setTimeout (Remove i) (Int 300) (update_node i (set_opacity "0") w)
  | Remove i => update_node i detach w
  end.

(** One turn of the event loop: the earliest pending timer runs, in a
    task of its own, at its due time.  No callback runs inside
    [setTimeout] or [initAlerts]: also one registered with no delay waits
    for its turn. *)
Definition fire (t : Timer) (rest : list Timer) (w : Window) : Window :=
  run_callback (callback t) (mkWindow (due t) (nodes w) rest).

Fixpoint run (fuel : nat) (T : Z) (w : Window) : Window :=
  match fuel with
  | O => w
  | S fuel' =>
      match timers w with
      | t :: rest => if due t <=? T then run fuel' T (fire t rest w) else w
      | [] => w
      end
  end.

(** A fade-out registers one more timer, a removal none: this many turns
    empty any queue. *)
Definition turns (t : Timer) : nat :=
  match callback t with FadeOut _ => 2 | Remove _ => 1 end.

(** The window once the event loop has run every timer due by [T]. *)
Definition run_until (T : Z) (w : Window) : Window :=
  run (sum_list (turns <$> timers w)) T w.

(** *** What the properties read *)

(** The queue is in the order of the due times. *)
Fixpoint sorted (ts : list Timer) : Prop :=
  match ts with
  | [] => True
  | t :: ts' => Forall (λ u, due t ≤ due u) ts' ∧ sorted ts'
  end.

(** The three stages of the alert at position [i], found by [initAlerts]
    as node [n] at time [t0] and given the default delay. *)
Definition fade_due (i : nat) (t0 : Z) (ts : list Timer) : Prop :=
  ∀ t, t ∈ ts → callback t = FadeOut i → due t = t0 + 5000.

(** Waiting for its fade-out: the node is as [initAlerts] found it. *)
Definition Pending (i : nat) (n : Node) (t0 : Z) (w : Window) : Prop :=
  nodes w !! i = Some n ∧
  fade_due i t0 (timers w) ∧
  (∀ t, t ∈ timers w → callback t ≠ Remove i) ∧
  (∃ t, t ∈ timers w ∧ callback t = FadeOut i).

(** Faded, waiting for its removal. *)
Definition Faded (i : nat) (n : Node) (t0 : Z) (w : Window) : Prop :=
  nodes w !! i = Some (set_opacity "0" n) ∧
  fade_due i t0 (timers w) ∧
  (∀ t, t ∈ timers w → callback t = Remove i → due t = t0 + 5300) ∧
  (∃ t, t ∈ timers w ∧ callback t = Remove i).

(** Out of the document. *)
Definition Removed (i : nat) (n : Node) (w : Window) : Prop :=
  nodes w !! i = Some (detach (set_opacity "0" n)).

End Main.

(** ** Concrete pages and windows *)
Module Examples.
Import Dom.

Definition toggle_button : Element :=
  mkElement ["btn"; "theme-toggle"] ∅ [] None.

Definition nav_bar : Element := mkElement ["navbar"] ∅ [] None.

(** First visit, dark system preference, document still loading, three
    toggle controls after a navigation bar. *)
Definition fresh_dark_page : Page :=
  mkPage ∅ true true true ∅
         [nav_bar; toggle_button; toggle_button; toggle_button] [] false.

(** The same visit with a storage area that refuses writes. *)
Definition quota_page : Page :=
  mkPage ∅ false true true ∅
         [nav_bar; toggle_button; toggle_button; toggle_button] [] false.

(** A later visit: [light] was saved, the system prefers dark. *)
Definition returning_light_page : Page :=
  mkPage {["aims-theme" := "light"]} true true true ∅
         [nav_bar; toggle_button] [] false.

Definition alert_node (delay : string) : Main.Node :=
  Main.mkNode None ["alert"; "alert-success"] {["data-dismiss" := delay]} None true.

Definition plain_node : Main.Node := Main.mkNode None ["card"] ∅ None true.

Definition alerts_window : Main.Window :=
  Main.mkWindow 0
    [alert_node "0"; alert_node "2000"; plain_node; alert_node "soon"] [].

End Examples.

(** ** A session on a page with the theme script *)
Module ThemeSession.
Import Js Dom ThemeToggle.

(** A run of clicks, each on the element at the given position. *)
Definition clicks (cs : list nat) (p : Page) : Page :=
  foldl (λ q i, click i q) p cs.

(** The store reflects the marker. *)
Definition in_sync (p : Page) : Prop :=
  ∃ theme, marker p = Some theme ∧ persisted p = Some theme.

(** The toggle controls a click meets on its way up from the element at
    position [i]. *)
Definition is_toggle (es : list Element) (j : nat) : bool :=
  match es !! j with
  | Some e => has_class "theme-toggle" e
  | None => false
  end.

Definition toggles_on_path (es : list Element) (i : nat) : nat :=
  length (List.filter (is_toggle es) (i :: ancestors es i)).

(** The elements after [initTheme]: the first control updated, every
    control wired. *)
Definition wired (theme : string) (es : list Element) : list Element :=
  attach_all ToggleTheme
    (find_all_class "theme-toggle" 0 (update_toggle theme es))
    (update_toggle theme es).

End ThemeSession.

(** ** The timeline of an alert *)
Module AlertTimeline.
Import Main.
Local Open Scope Z_scope.

(** The alert a callback is closed over. *)
Definition target (cb : Callback) : nat :=
  match cb with FadeOut i | Remove i => i end.

(** The delay [setTimeout] makes of the alert's attribute. *)
Definition fade_delay (n : Node) : Z := timer_delay (dismissTime n).

(** The decimal text of a number, as a page author writes it. *)
Definition decimal (d : N) : string :=
  DecimalString.NilEmpty.string_of_uint (N.to_uint d).

(** The latest time a fade-out can be due, counted from its registration. *)
Definition max_delay : Z := 2 ^ 31 - 1.

(** The node at the end of its life. *)
Definition dismissed (n : Node) : Node := detach (set_opacity "0" n).

(** Whether [initAlerts] finds the node at position [k]. *)
Definition selected (ns : list Node) (k : nat) : bool :=
  bool_decide (k ∈ select_alerts ns 0 ns).
End AlertTimeline.

(** ** The main script: sidebar, language selector, forms, confirm dialogs *)
Module MainDom.
Import Js.

(** *** The document as the listeners see it *)
Record Elem := mkElem {
  tagName : string;                 (* in lower case *)
  parent : option nat;              (* position of the parent element, if any *)
  classList : list string;          (* the class tokens, each once *)
  attributes : gmap string string;
  value : option string             (* the value property; form controls have one *)
}.

(** The closures the script registers, each with the elements it is closed
    over (named by their positions in the document). *)
Inductive Handler :=
| SidebarToggle (sidebar : nat) (overlay : option nat)
| SidebarClose (sidebar overlay : nat)
| LangToggle (selector : nat)
| LangCloseAll (selectors : list nat)
| ValidateForm (form : nat)
| ConfirmClick (element : nat).

Inductive EventType := Click | Submit.

#[global] Instance EventType_eq_dec : EqDecision EventType.
Proof. solve_decision. Defined.

(** One [addEventListener] call; the target [None] is the document. *)
Record Registration := mkReg {
  reg_target : option nat;
  reg_type : EventType;
  reg_handler : Handler
}.

Record Doc := mkDoc {
  elems : list Elem;                (* in document order *)
  listeners : list Registration     (* in registration order *)
}.

(** What a listener can do to the event it is given, and what the user was
    asked meanwhile. *)
Record Event := mkEvent {
  stopped : bool;                   (* stopPropagation was called *)
  defaultPrevented : bool;          (* preventDefault was called *)
  asked : list string;              (* the confirm prompts shown, oldest first *)
  uncaught : nat                    (* listeners that ended in an exception *)
}.

Definition fresh_event : Event := mkEvent false false [] 0.

(** *** classList *)
Definition class_add (c : string) (l : list string) : list string :=
  if bool_decide (c ∈ l) then l else l ++ [c].

Definition class_remove (c : string) (l : list string) : list string :=
  filter (λ x, x ≠ c) l.

Definition class_toggle (c : string) (l : list string) : list string :=
  if bool_decide (c ∈ l) then class_remove c l else l ++ [c].

Definition with_classes (f : list string → list string) (e : Elem) : Elem :=
  mkElem (tagName e) (parent e) (f (classList e)) (attributes e) (value e).

Definition has_class (c : string) (e : Elem) : bool :=
  bool_decide (c ∈ classList e).

Definition has_attribute (a : string) (e : Elem) : bool :=
  bool_decide (is_Some (attributes e !! a)).

(** *** Selectors *)
Fixpoint find_all (P : nat → Elem → bool) (i : nat) (es : list Elem) : list nat :=
  match es with
  | [] => []
  | e :: es' => if P i e then i :: find_all P (S i) es' else find_all P (S i) es'
  end.

(** [root.querySelectorAll(sel)] and [root.querySelector(sel)], the
    selector given as a test on elements. *)
Definition querySelectorAll (P : nat → Elem → bool) (es : list Elem) : list nat :=
  find_all P 0 es.

Definition querySelector (P : nat → Elem → bool) (es : list Elem) : option nat :=
  head (querySelectorAll P es).

(** The chain of ancestors of an element, nearest first. *)
Fixpoint ancestors_upto (fuel : nat) (es : list Elem) (i : nat) : list nat :=
  match fuel with
  | O => []
  | S fuel' =>
      match es !! i ≫= parent with
      | Some p => p :: ancestors_upto fuel' es p
      | None => []
      end
  end.

Definition ancestors (es : list Elem) (i : nat) : list nat :=
  ancestors_upto (length es) es i.

Definition is_descendant (es : list Elem) (root i : nat) : bool :=
  bool_decide (root ∈ ancestors es i).

(** *** String.prototype.trim *)
Fixpoint trim_end (s : string) : string :=
  match s with
  | String c s' =>
      match trim_end s' with
      | EmptyString => if Main.is_white_space c then EmptyString else String c EmptyString
      | r => String c r
      end
  | EmptyString => EmptyString
  end.

Definition trim (s : string) : string := trim_end (Main.trim_start s).

(** *** The listeners *)

(** [requiredFields.forEach(field => ...)] of the submit listener.  The
    result is the elements and [isValid]; [None] when a field has no
    [value] to call [trim] on and the loop ends in a TypeError. *)
Fixpoint validate_fields (fields : list nat) (es : list Elem) (isValid : bool)
  : list Elem * option bool :=
  match fields with
  | [] => (es, Some isValid)
  | f :: fields' =>
      match es !! f ≫= value with
      | Some v =>
          if bool_decide (trim v = "")
          then validate_fields fields' (alter (with_classes (class_add "error")) f es) false
          else validate_fields fields' (alter (with_classes (class_remove "error")) f es) isValid
      | None => (es, None)
      end
  end.

Definition required_fields (es : list Elem) (form : nat) : list nat :=
  querySelectorAll (λ i e, is_descendant es form i && has_attribute "required" e) es.

Definition confirm_message (es : list Elem) (element : nat) : string :=
  or_default (es !! element ≫= λ e, attributes e !! "data-confirm") "Are you sure?".

Definition set_stopped (ev : Event) : Event :=
  mkEvent true (defaultPrevented ev) (asked ev) (uncaught ev).

Definition set_prevented (ev : Event) : Event :=
  mkEvent (stopped ev) true (asked ev) (uncaught ev).

Definition set_asked (m : string) (ev : Event) : Event :=
  mkEvent (stopped ev) (defaultPrevented ev) (asked ev ++ [m]) (uncaught ev).

Definition set_uncaught (ev : Event) : Event :=
  mkEvent (stopped ev) (defaultPrevented ev) (asked ev) (S (uncaught ev)).

(** Running one listener.  [user] is the user at the confirm dialogs: the
    answer to the [k]-th prompt of this event. *)
Definition run_handler (user : nat → bool) (h : Handler)
    (st : list Elem * Event) : list Elem * Event :=
  let '(es, ev) := st in
  match h with
  | SidebarToggle sidebar overlay =>
      let es1 := alter (with_classes (class_toggle "open")) sidebar es in
      (match overlay with
       | Some o => alter (with_classes (class_toggle "open")) o es1
       | None => es1
       end, ev)
  | SidebarClose sidebar overlay =>
      (alter (with_classes (class_remove "open")) overlay
         (alter (with_classes (class_remove "open")) sidebar es), ev)
  | LangToggle selector =>
      (alter (with_classes (class_toggle "open")) selector es, set_stopped ev)
  | LangCloseAll selectors =>
      (foldl (λ acc s, alter (with_classes (class_remove "open")) s acc) es selectors,
       ev)
  | ValidateForm form =>
      match validate_fields (required_fields es form) es true with
      | (es', Some isValid) => (es', if isValid then ev else set_prevented ev)
      | (es', None) => (es', set_uncaught ev)
      end
  | ConfirmClick element =>
      let message := confirm_message es element in
      let answer := user (length (asked ev)) in
      let ev1 := set_asked message ev in
      (es, if answer then ev1 else set_prevented ev1)
  end.

(** *** Dispatch *)
Definition handlers_on (regs : list Registration) (target : option nat)
    (type : EventType) : list Handler :=
  reg_handler <$>
    filter (λ r, reg_target r = target ∧ reg_type r = type) regs.

Definition run_handlers (user : nat → bool) (hs : list Handler)
    (st : list Elem * Event) : list Elem * Event :=
  foldl (λ acc h, run_handler user h acc) st hs.

(** The event at one stop of its way up: all listeners of the target run,
    unless propagation was stopped further down. *)
Definition visit (user : nat → bool) (regs : list Registration)
    (type : EventType) (st : list Elem * Event) (target : option nat)
  : list Elem * Event :=
  if stopped (st.2) then st
  else run_handlers user (handlers_on regs target type) st.

(** The event goes from its target through the ancestors to the document. *)
Definition dispatch (user : nat → bool) (type : EventType) (target : nat)
    (d : Doc) : Doc * Event :=
  let path : list (option nat) :=
    ((Some <$> target :: ancestors (elems d) target) ++ [None])%list in
  let '(es, ev) :=
    foldl (visit user (listeners d) type) (elems d, fresh_event) path in
  (mkDoc es (listeners d), ev).

Definition click := λ user, dispatch user Click.
Definition submit := λ user, dispatch user Submit.

(** *** Initialization *)
Definition addEventListener (target : option nat) (type : EventType)
    (h : Handler) (d : Doc) : Doc :=
  mkDoc (elems d) (listeners d ++ [mkReg target type h]).

Definition initSidebar (d : Doc) : Doc :=
  let sidebar := querySelector (λ _, has_class "sidebar") (elems d) in
  let toggle := querySelector (λ _, has_class "sidebar-toggle") (elems d) in
  let overlay := querySelector (λ _, has_class "sidebar-overlay") (elems d) in
  match toggle, sidebar with
  | Some t, Some s =>
      let d1 := addEventListener (Some t) Click (SidebarToggle s overlay) d in
      match overlay with
      | Some o => addEventListener (Some o) Click (SidebarClose s o) d1
      | None => d1
      end
  | _, _ => d
  end.

Definition lang_button (es : list Elem) (selector : nat) : option nat :=
  querySelector (λ i e, is_descendant es selector i && has_class "lang-btn" e) es.

Definition initLanguageSelector (d : Doc) : Doc :=
  let selectors := querySelectorAll (λ _, has_class "lang-selector") (elems d) in
  let d1 :=
    foldl (λ q selector,
             match lang_button (elems q) selector with
             | Some btn => addEventListener (Some btn) Click (LangToggle selector) q
             | None => q
             end)
          d selectors in
  addEventListener None Click (LangCloseAll selectors) d1.

Definition is_validated_form (e : Elem) : bool :=
  bool_decide (tagName e = "form") && has_attribute "data-validate" e.

Definition initForms (d : Doc) : Doc :=
  foldl (λ q form, addEventListener (Some form) Submit (ValidateForm form) q)
        d (querySelectorAll (λ _, is_validated_form) (elems d)).

Definition initConfirmDialogs (d : Doc) : Doc :=
  foldl (λ q element, addEventListener (Some element) Click (ConfirmClick element) q)
        d (querySelectorAll (λ _, has_attribute "data-confirm") (elems d)).

(** [init]: the listeners on the document, the timers on the window. *)
Definition init (dw : Doc * Main.Window) : Doc * Main.Window :=
  let '(d, w) := dw in
  let d1 := initLanguageSelector (initSidebar d) in
  let w1 := Main.initAlerts w in
  (initConfirmDialogs (initForms d1), w1).

(** *** What the properties read, and closed forms of [init].
    The closed forms are proved equal to the functions in [MainDomFacts]
    ([listeners_init], [validate_fields_closed]). *)

(** Nothing but white space (or nothing at all). *)
Fixpoint all_white_space (s : string) : bool :=
  match s with
  | String c s' => Main.is_white_space c && all_white_space s'
  | EmptyString => true
  end.

(** [!field.value.trim()] for the field at position [f]. *)
Definition field_blank (es : list Elem) (f : nat) : bool :=
  match es !! f ≫= value with
  | Some v => bool_decide (trim v = "")
  | None => false
  end.

(** What the submit listener does to the classes of a required field. *)
Definition mark (es0 : list Elem) (f : nat) : Elem → Elem :=
  with_classes (if field_blank es0 f then class_add "error" else class_remove "error").

(** The registrations each part of [init] makes, read off the page. *)
Definition sidebar_regs (es : list Elem) : list Registration :=
  match querySelector (λ _, has_class "sidebar-toggle") es,
        querySelector (λ _, has_class "sidebar") es with
  | Some t, Some s =>
      let overlay := querySelector (λ _, has_class "sidebar-overlay") es in
      mkReg (Some t) Click (SidebarToggle s overlay) ::
      match overlay with
      | Some o => [mkReg (Some o) Click (SidebarClose s o)]
      | None => []
      end
  | _, _ => []
  end.

Definition lang_regs (es : list Elem) : list Registration :=
  omap (λ sel, (λ btn, mkReg (Some btn) Click (LangToggle sel)) <$> lang_button es sel)
       (querySelectorAll (λ _, has_class "lang-selector") es).

Definition form_regs (es : list Elem) : list Registration :=
  (λ f, mkReg (Some f) Submit (ValidateForm f))
    <$> querySelectorAll (λ _, is_validated_form) es.

Definition confirm_regs (es : list Elem) : list Registration :=
  (λ x, mkReg (Some x) Click (ConfirmClick x))
    <$> querySelectorAll (λ _, has_attribute "data-confirm") es.

(** The elements of class [lang-selector]. *)
Definition lang_selectors (es : list Elem) : list nat :=
  querySelectorAll (λ _, has_class "lang-selector") es.

(** The document's click listener: every dropdown loses [open]. *)
Definition close_selectors (sels : list nat) (es : list Elem) : list Elem :=
  foldl (λ acc s, alter (with_classes (class_remove "open")) s acc) es sels.

(** The element at position [j] carries the class [open]. *)
Definition is_open (es : list Elem) (j : nat) : bool :=
  match es !! j with
  | Some e => has_class "open" e
  | None => false
  end.

(** No class that makes an element a click target of the sidebar or of a
    language selector. *)
Definition unwired (es : list Elem) (j : nat) : Prop :=
  ∀ e, es !! j = Some e →
       has_class "sidebar-toggle" e = false ∧
       has_class "sidebar-overlay" e = false ∧
       has_class "lang-btn" e = false.

(** The element at position [j] carries [data-confirm]. *)
Definition has_confirm (es : list Elem) (j : nat) : bool :=
  bool_decide (j ∈ querySelectorAll (λ _, has_attribute "data-confirm") es).

End MainDom.

(** ** More concrete pages *)
Module MoreExamples.
Import MainDom.

Definition el (tag : string) (p : option nat) (cls : list string)
    (attrs : list (string * string)) (v : option string) : Elem :=
  mkElem tag p cls (list_to_map attrs) v.

(** A page with a sidebar, two language dropdowns (the first one open), a
    validated form and a delete link that asks first. *)
Definition sample_doc : Doc :=
  mkDoc
    [ el "body" None [] [] None;                                   (* 0 *)
      el "aside" (Some 0%nat) ["sidebar"] [] None;                 (* 1 *)
      el "button" (Some 0%nat) ["sidebar-toggle"] [] None;         (* 2 *)
      el "div" (Some 0%nat) ["sidebar-overlay"] [] None;           (* 3 *)
      el "div" (Some 0%nat) ["lang-selector"; "open"] [] None;     (* 4 *)
      el "button" (Some 4%nat) ["lang-btn"] [] None;               (* 5 *)
      el "div" (Some 0%nat) ["lang-selector"] [] None;             (* 6 *)
      el "button" (Some 6%nat) ["lang-btn"] [] None;               (* 7 *)
      el "form" (Some 0%nat) [] [("data-validate", "")] None;      (* 8 *)
      el "input" (Some 8%nat) [] [("required", "")] (Some "Ada");  (* 9 *)
      el "input" (Some 8%nat) ["error"] [("required", "")] (Some "  "); (* 10 *)
      el "input" (Some 8%nat) [] [] (Some "");                     (* 11 *)
      el "a" (Some 0%nat) [] [("data-confirm", "Delete the exam?")] None (* 12 *)
    ] [].

Definition ready_doc : Doc := (init (sample_doc, Examples.alerts_window)).1.

Definition yes : nat → bool := λ _, true.
Definition no : nat → bool := λ _, false.

(** The same page with a required element that is no form control. *)
Definition broken_form_doc : Doc :=
  mkDoc
    [ el "form" None [] [("data-validate", "")] None;              (* 0 *)
      el "input" (Some 0%nat) [] [("required", "")] (Some "");     (* 1 *)
      el "div" (Some 0%nat) [] [("required", "")] None             (* 2 *)
    ] [].

(** A toggle control with an icon inside it, after a navigation bar. *)
Definition toggle_icon : Dom.Element :=
  Dom.mkElement ["icon"] ∅ [] (Some 1%nat).

Definition icon_page : Dom.Page :=
  Dom.mkPage ∅ true true true ∅
    [Examples.nav_bar; Examples.toggle_button; toggle_icon] [] false.

(** An alert whose delay is negative. *)
Definition hasty_window : Main.Window :=
  Main.mkWindow 1000 [Examples.alert_node "-5"; Examples.plain_node] [].

(** An alert with a text and a second alert inside it, and a card after
    it. *)
Definition inner_text : Main.Node :=
  Main.mkNode (Some 0%nat) ["alert-text"] ∅ None true.

Definition inner_alert : Main.Node :=
  Main.mkNode (Some 0%nat) ["alert"] {["data-dismiss" := "0"]} None true.

Definition nested_window : Main.Window :=
  Main.mkWindow 0
    [Examples.alert_node "1000"; inner_text; inner_alert; Examples.plain_node] [].

End MoreExamples.

(** ** Properties of theme-toggle.js *)
Module ThemeToggleFacts.
Import Js Dom ThemeToggle.

Ltac unfold_m :=
  unfold mbind, M_bind, mret, M_ret, getItem, setItem, root_getAttribute,
    root_setAttribute, querySelector, querySelectorAll, setAttribute,
    addClickListener, matchMedia_prefers_dark, readyState_is_loading,
    document_onDOMContentLoaded, window_set_toggleTheme in *.

Ltac unfold_page :=
  unfold set_elements, set_localStorage, set_rootAttributes,
    set_domContentLoaded, set_readyStateLoading, set_windowToggleTheme in *.

(** *** Selecting by class only looks at the class lists *)
Lemma find_class_alter c (f : Element → Element) i es :
  (∀ e, classList (f e) = classList e) →
  find_class c (alter f i es) = find_class c es.
Proof.
  intros Hf. revert i. induction es as [|e es IH]; intros [|i]; simpl; try done.
  - unfold has_class. by rewrite Hf.
  - specialize (IH i). unfold alter in IH. by rewrite IH.
Qed.

Lemma find_class_list_alter c (f : Element → Element) i es :
  (∀ e, classList (f e) = classList e) →
  find_class c (list_alter f i es) = find_class c es.
Proof. apply find_class_alter. Qed.

Lemma applyTheme_writable theme p :
  storageWritable p = true →
  applyTheme theme p = Ok tt (applied theme p).
Proof.
  intros Hw. unfold applyTheme, applied, update_toggle. unfold_m. simpl.
  rewrite Hw. simpl.
  destruct (find_class "theme-toggle" (elements p)) as [btn|] eqn:Hq;
    unfold_page; simpl; by rewrite Hq.
Qed.

Lemma applyTheme_refused theme p :
  storageWritable p = false →
  applyTheme theme p =
    Throw QuotaExceededError (set_rootAttributes (insert "data-theme" theme) p).
Proof.
  intros Hw. unfold applyTheme. unfold_m. simpl. by rewrite Hw.
Qed.

Lemma update_toggle_idem theme es :
  update_toggle theme (update_toggle theme es) = update_toggle theme es.
Proof.
  unfold update_toggle.
  destruct (find_class "theme-toggle" es) as [btn|] eqn:Hq.
  - rewrite !find_class_alter by done. rewrite Hq.
    rewrite !list_alter_alter_eq. apply list_alter_ext; [|done].
    intros e _. unfold with_attribute; simpl. f_equal.
    apply map_eq. intros k.
    destruct (decide (k = "title")) as [->|]; simplify_map_eq; [done|].
    destruct (decide (k = "aria-pressed")) as [->|]; by simplify_map_eq.
  - by rewrite Hq.
Qed.

Lemma applied_idem theme p : applied theme (applied theme p) = applied theme p.
Proof.
  unfold applied, set_elements, set_localStorage, set_rootAttributes; simpl.
  rewrite update_toggle_idem, !insert_insert_eq. done.
Qed.

Lemma storageWritable_applied theme p :
  storageWritable (applied theme p) = storageWritable p.
Proof. done. Qed.

(** *** [toggleTheme], [initTheme] and the pre-pass, as page transformers *)
Lemma toggleTheme_eq p : toggleTheme p = applyTheme (next_theme (marker p)) p.
Proof. done. Qed.

Lemma forEach_addClickListener l ids p :
  forEach ids (λ btn, addClickListener btn l) p =
    Ok tt (set_elements (attach_all l ids) p).
Proof.
  revert p. induction ids as [|i ids IH]; intros p; simpl.
  - unfold_m. unfold_page. by destruct p.
  - unfold_m. simpl. rewrite IH. by unfold_page.
Qed.

Lemma getSavedTheme_eq p : getSavedTheme p = Ok (resolved_saved p) p.
Proof. done. Qed.

Lemma initTheme_writable p :
  storageWritable p = true →
  initTheme p =
    Ok tt (set_elements
             (λ es, attach_all ToggleTheme (find_all_class "theme-toggle" 0 es) es)
             (applied (resolved_saved p) p)).
Proof.
  intros Hw.
  change (initTheme p) with
    (match getSavedTheme p with
     | Ok a p' => (applyTheme a;; btns ← querySelectorAll "theme-toggle";
                   forEach btns (λ btn, addClickListener btn ToggleTheme)) p'
     | Throw e p' => Throw e p'
     end).
  rewrite getSavedTheme_eq.
  change ((applyTheme ?a;; ?k) p) with
    (match applyTheme a p with
     | Ok _ p' => k p'
     | Throw e p' => Throw e p'
     end).
  rewrite (applyTheme_writable _ _ Hw).
  unfold mbind, M_bind, querySelectorAll.
  by rewrite forEach_addClickListener.
Qed.

Lemma checkSystemPreference_eq p :
  checkSystemPreference p = Ok (resolved_initial p) p.
Proof.
  unfold checkSystemPreference, resolved_initial, persisted. unfold_m.
  by destruct (negb (truthy (localStorage p !! THEME_KEY))).
Qed.

Lemma antiFlash_eq p :
  antiFlash p =
    Ok tt (set_rootAttributes (insert "data-theme" (resolved_initial p)) p).
Proof.
  unfold antiFlash.
  change ((theme ← checkSystemPreference; root_setAttribute "data-theme" theme) p)
    with (match checkSystemPreference p with
          | Ok a p' => root_setAttribute "data-theme" a p'
          | Throw e p' => Throw e p'
          end).
  by rewrite checkSystemPreference_eq.
Qed.

Lemma bind_Ok {A B} (m : M A) (k : A → M B) p a q :
  m p = Ok a q → (m ≫= k) p = k a q.
Proof. intros H. unfold mbind, M_bind. by rewrite H. Qed.

Lemma bind_Throw {A B} (m : M A) (k : A → M B) p e q :
  m p = Throw e q → (m ≫= k) p = Throw e q.
Proof. intros H. unfold mbind, M_bind. by rewrite H. Qed.

Lemma marker_applied theme p : marker (applied theme p) = Some theme.
Proof. unfold marker, applied; simpl. apply lookup_insert_eq. Qed.

Lemma persisted_applied theme p : persisted (applied theme p) = Some theme.
Proof. unfold persisted, applied; simpl. apply lookup_insert_eq. Qed.

Lemma applyTheme_twice theme p :
  applyTheme theme (exec (applyTheme theme) p) = applyTheme theme p.
Proof.
  unfold exec. destruct (storageWritable p) eqn:Hw.
  - rewrite (applyTheme_writable theme p Hw); simpl.
    rewrite applyTheme_writable by done. by rewrite applied_idem.
  - rewrite (applyTheme_refused theme p Hw); simpl.
    rewrite applyTheme_refused by done.
    unfold_page; simpl. by rewrite insert_insert_eq.
Qed.

(** C4: [checkSystemPreference] (the spec's resolveInitialTheme) returns
    the store's entry whenever there is one, whatever the ambient signal;
    with no entry it returns dark when the ambient signal prefers dark
    and light otherwise.  It leaves the page as it found it.  The store
    holds theme texts: the empty text is not one of them. *)
Theorem checkSystemPreference_precedence (p : Page) :
  persisted p ≠ Some "" →
  checkSystemPreference p =
    Ok (match persisted p with
        | Some entry => entry
        | None => if prefersDark p then DARK_THEME else LIGHT_THEME
        end) p.
Proof.
  intros Hne. rewrite checkSystemPreference_eq. f_equal.
  unfold resolved_initial, resolved_saved.
  destruct (persisted p) as [v|]; simpl; [|done].
  case_bool_decide; [congruence | done].
Qed.

Lemma checkSystemPreference_precedence_witness :
  persisted Examples.returning_light_page ≠ Some "" ∧
  prefersDark Examples.returning_light_page = true ∧
  checkSystemPreference Examples.returning_light_page =
    Ok "light" Examples.returning_light_page.
Proof.
  split; [by vm_compute|]. split; [done|].
  apply (checkSystemPreference_precedence Examples.returning_light_page).
  by vm_compute.
Defined.

(** An entry that is the empty text is falsy, and reads as no entry. *)
Example empty_entry_reads_as_absent :
  checkSystemPreference
    (set_localStorage (insert THEME_KEY "") Examples.fresh_dark_page)
  = Ok "dark" (set_localStorage (insert THEME_KEY "") Examples.fresh_dark_page).
Proof. by vm_compute. Qed.

(** C5: for either theme [t], with the storage area accepting writes,
    [applyTheme t] returns, and afterwards the document marker reads [t]
    and the store holds [t] under the theme key. *)
Theorem applyTheme_marker_and_store (t : ThemePreference) (p : Page) :
  storageWritable p = true →
  ∃ q, applyTheme (theme_text t) p = Ok tt q ∧
       marker q = Some (theme_text t) ∧
       persisted q = Some (theme_text t).
Proof.
  intros Hw. exists (applied (theme_text t) p).
  split; [by apply applyTheme_writable|].
  split; [apply marker_applied | apply persisted_applied].
Qed.

Lemma applyTheme_marker_and_store_witness :
  storageWritable Examples.fresh_dark_page = true ∧
  ∃ q, applyTheme "dark" Examples.fresh_dark_page = Ok tt q ∧
       marker q = Some "dark" ∧ persisted q = Some "dark".
Proof.
  split; [reflexivity|].
  exact (applyTheme_marker_and_store dark Examples.fresh_dark_page eq_refl).
Defined.

(** C6: [applyTheme] is idempotent.  For either theme and from any page,
    a second [applyTheme t] right after the first ends as the first did
    (returned or thrown) and in the very same page: marker, store and
    every control's attributes included. *)
Theorem applyTheme_idempotent (t : ThemePreference) (p : Page) :
  applyTheme (theme_text t) (exec (applyTheme (theme_text t)) p) =
    applyTheme (theme_text t) p.
Proof. apply applyTheme_twice. Qed.

(** C8: resolution and the pre-pass leave the store alone.
    [checkSystemPreference] hands the page back unchanged, and the
    pre-pass changes the [data-theme] attribute of the root and nothing
    else. *)
Theorem prepass_preserves_store (p : Page) :
  page_of (checkSystemPreference p) = p ∧
  (∃ theme, antiFlash p =
              Ok tt (set_rootAttributes (insert "data-theme" theme) p)) ∧
  localStorage (exec antiFlash p) = localStorage p.
Proof.
  split; [by rewrite checkSystemPreference_eq|].
  split; [eexists; apply antiFlash_eq|].
  unfold exec. by rewrite antiFlash_eq.
Qed.

(** C3, as amended: when the storage area refuses the write,
    [applyTheme t] has set the document marker to [t] and then throws the
    storage fault to its caller; nothing else of the page has changed, so
    the store and the toggle controls are as they were. *)
Theorem applyTheme_write_refused (t : ThemePreference) (p : Page) :
  storageWritable p = false →
  applyTheme (theme_text t) p =
    Throw QuotaExceededError
          (set_rootAttributes (insert "data-theme" (theme_text t)) p) ∧
  marker (exec (applyTheme (theme_text t)) p) = Some (theme_text t) ∧
  persisted (exec (applyTheme (theme_text t)) p) = persisted p ∧
  elements (exec (applyTheme (theme_text t)) p) = elements p.
Proof.
  intros Hw. unfold exec. rewrite (applyTheme_refused _ _ Hw); simpl.
  split; [done|]. split; [|done].
  unfold marker; simpl. apply lookup_insert_eq.
Qed.

Lemma applyTheme_write_refused_witness :
  storageWritable Examples.quota_page = false ∧
  applyTheme "dark" Examples.quota_page =
    Throw QuotaExceededError
          (set_rootAttributes (insert "data-theme" "dark") Examples.quota_page) ∧
  marker (exec (applyTheme "dark") Examples.quota_page) = Some "dark" ∧
  persisted (exec (applyTheme "dark") Examples.quota_page) = None ∧
  elements (exec (applyTheme "dark") Examples.quota_page) =
    elements Examples.quota_page.
Proof.
  split; [reflexivity|].
  exact (applyTheme_write_refused dark Examples.quota_page eq_refl).
Defined.

(** C3, as stated, fails on a page whose storage refuses writes: the call
    throws, and the toggle controls do not show the theme. *)
Lemma applyTheme_write_refused_counterexample :
  storageWritable Examples.quota_page = false ∧
  ¬ (marker (exec (applyTheme "dark") Examples.quota_page) = Some "dark" ∧
     all_toggles_show "dark" (exec (applyTheme "dark") Examples.quota_page) ∧
     returns (applyTheme "dark" Examples.quota_page) = true).
Proof.
  split; [reflexivity|]. intros (_ & _ & Hret). vm_compute in Hret. discriminate.
Qed.

(** Neither half of what C3 asks of the controls and of the fault holds
    there. *)
Example quota_page_controls_stale :
  ¬ all_toggles_show "dark" (exec (applyTheme "dark") Examples.quota_page).
Proof.
  intros H. destruct (H 1 Examples.toggle_button eq_refl eq_refl) as [Hp _].
  vm_compute in Hp. discriminate.
Qed.

(** *** Toggling *)
Lemma next_theme_text t :
  next_theme (Some (next_theme (Some (theme_text t)))) = theme_text t.
Proof. by destruct t. Qed.

Lemma marker_toggleTheme p :
  marker (exec toggleTheme p) = Some (next_theme (marker p)).
Proof.
  unfold exec. rewrite toggleTheme_eq.
  destruct (storageWritable p) eqn:Hw.
  - rewrite applyTheme_writable by done. apply marker_applied.
  - rewrite applyTheme_refused by done. unfold marker; simpl.
    apply lookup_insert_eq.
Qed.

Lemma persisted_toggleTheme p :
  persisted (exec toggleTheme p) =
    if storageWritable p then Some (next_theme (marker p)) else persisted p.
Proof.
  unfold exec. rewrite toggleTheme_eq.
  destruct (storageWritable p) eqn:Hw.
  - rewrite applyTheme_writable by done. apply persisted_applied.
  - by rewrite applyTheme_refused.
Qed.

Lemma storageWritable_toggleTheme p :
  storageWritable (exec toggleTheme p) = storageWritable p.
Proof.
  unfold exec. rewrite toggleTheme_eq.
  destruct (storageWritable p) eqn:Hw.
  - by rewrite applyTheme_writable.
  - by rewrite applyTheme_refused.
Qed.

(** C7, as amended: from any page whose document marker is one of the two
    themes and whose store holds that same theme (every page after
    initialization is such), two calls of [toggleTheme] in a row bring
    back the marker and the stored value. *)
Theorem toggleTheme_twice_restores (t : ThemePreference) (p : Page) :
  marker p = Some (theme_text t) →
  persisted p = Some (theme_text t) →
  marker (exec toggleTheme (exec toggleTheme p)) = marker p ∧
  persisted (exec toggleTheme (exec toggleTheme p)) = persisted p.
Proof.
  intros Hm Hs.
  rewrite persisted_toggleTheme, storageWritable_toggleTheme.
  rewrite !marker_toggleTheme, persisted_toggleTheme.
  rewrite Hm, Hs, next_theme_text.
  by destruct (storageWritable p).
Qed.

(** With a writable store these are the only pages two toggles restore. *)
Lemma toggleTheme_twice_restores_only (p : Page) :
  storageWritable p = true →
  marker (exec toggleTheme (exec toggleTheme p)) = marker p →
  persisted (exec toggleTheme (exec toggleTheme p)) = persisted p →
  ∃ t, marker p = Some (theme_text t) ∧ persisted p = Some (theme_text t).
Proof.
  intros Hw.
  rewrite persisted_toggleTheme, storageWritable_toggleTheme, Hw.
  rewrite !marker_toggleTheme.
  intros <- <-. generalize (next_theme (marker p)). intros x.
  unfold next_theme. case_bool_decide; [by exists light | by exists dark].
Qed.

Lemma toggleTheme_twice_restores_witness :
  marker (pageLoad Examples.returning_light_page) = Some "light" ∧
  persisted (pageLoad Examples.returning_light_page) = Some "light" ∧
  marker (exec toggleTheme (exec toggleTheme (pageLoad Examples.returning_light_page)))
    = marker (pageLoad Examples.returning_light_page) ∧
  persisted (exec toggleTheme (exec toggleTheme (pageLoad Examples.returning_light_page)))
    = persisted (pageLoad Examples.returning_light_page).
Proof.
  split; [by vm_compute|]. split; [by vm_compute|].
  apply (toggleTheme_twice_restores light (pageLoad Examples.returning_light_page));
    by vm_compute.
Defined.

(** C7, as stated, fails between the pre-pass and initialization of a
    first visit: the marker is there, the store has no entry, and after
    two toggles it has one. *)
Lemma toggleTheme_twice_counterexample :
  windowToggleTheme (exec script Examples.fresh_dark_page) = true ∧
  ¬ (marker (exec toggleTheme (exec toggleTheme (exec script Examples.fresh_dark_page)))
       = marker (exec script Examples.fresh_dark_page) ∧
     persisted (exec toggleTheme (exec toggleTheme (exec script Examples.fresh_dark_page)))
       = persisted (exec script Examples.fresh_dark_page)).
Proof. split; [reflexivity|]. intros [_ H]. vm_compute in H. discriminate. Qed.

(** *** The script and the page load *)
Lemma script_loading p :
  readyStateLoading p = true →
  script p =
    Ok tt (set_windowToggleTheme true
             (set_domContentLoaded (add_listener InitTheme)
                (set_rootAttributes (insert "data-theme" (resolved_initial p)) p))).
Proof.
  intros Hl. unfold script.
  rewrite (bind_Ok _ _ _ _ _ (antiFlash_eq p)).
  unfold_m. simpl. by rewrite Hl.
Qed.

Lemma script_loaded p :
  readyStateLoading p = false →
  script p =
    (initTheme;; window_set_toggleTheme)
      (set_rootAttributes (insert "data-theme" (resolved_initial p)) p).
Proof.
  intros Hl. unfold script.
  rewrite (bind_Ok _ _ _ _ _ (antiFlash_eq p)).
  unfold mbind at 1, M_bind at 1. unfold readyState_is_loading; simpl.
  by rewrite Hl.
Qed.

(** A first visit ends in [light], whatever the system prefers: the
    pre-pass consults the ambient signal, [initTheme] does not. *)
Lemma pageLoad_first_visit p :
  persisted p = None → storageWritable p = true → domContentLoaded p = [] →
  marker (pageLoad p) = Some LIGHT_THEME ∧
  persisted (pageLoad p) = Some LIGHT_THEME.
Proof.
  intros Hs Hw Hd. unfold pageLoad, exec.
  destruct (readyStateLoading p) eqn:Hl.
  - rewrite script_loading by done. simpl.
    unfold fire_DOMContentLoaded; simpl. rewrite Hd. simpl.
    unfold exec. rewrite initTheme_writable by done. simpl.
    unfold resolved_saved, persisted in *; simpl. rewrite Hs. simpl.
    split; [apply marker_applied | apply persisted_applied].
  - rewrite script_loaded by done.
    erewrite bind_Ok by (by apply initTheme_writable).
    unfold_m; simpl.
    unfold resolved_saved, persisted in *; simpl. rewrite Hs. simpl.
    split; [apply marker_applied | apply persisted_applied].
Qed.

Lemma resolutions_differ p :
  persisted p = None → prefersDark p = true →
  resolved_initial p = DARK_THEME ∧ resolved_saved p = LIGHT_THEME.
Proof.
  intros Hs Hd. unfold resolved_initial, resolved_saved. by rewrite Hs, Hd.
Qed.

(** C1 (evaluated at the failing input): on a first visit with a dark
    system preference the pre-pass sets the marker to dark, and once
    [initTheme] has run the marker reads light and the store holds
    light. *)
Theorem first_visit_dark_ends_light :
  persisted Examples.fresh_dark_page = None ∧
  prefersDark Examples.fresh_dark_page = true ∧
  marker (exec antiFlash Examples.fresh_dark_page) = Some "dark" ∧
  marker (pageLoad Examples.fresh_dark_page) = Some "light" ∧
  persisted (pageLoad Examples.fresh_dark_page) = Some "light".
Proof.
  split; [reflexivity|]. split; [reflexivity|]. split; [by vm_compute|].
  by apply pageLoad_first_visit.
Qed.

(** *** Which controls [applyTheme] reaches *)
Lemma update_toggle_other theme es btn j :
  find_class "theme-toggle" es = Some btn → j ≠ btn →
  update_toggle theme es !! j = es !! j.
Proof.
  intros Hq Hne. unfold update_toggle. rewrite Hq.
  by rewrite !list_lookup_alter_ne.
Qed.

(** Every element but the first toggle control is left as it was. *)
Lemma toggleTheme_other_controls p btn j :
  find_class "theme-toggle" (elements p) = Some btn → j ≠ btn →
  elements (exec toggleTheme p) !! j = elements p !! j.
Proof.
  intros Hq Hne. unfold exec. rewrite toggleTheme_eq.
  destruct (storageWritable p) eqn:Hw.
  - rewrite applyTheme_writable by done. simpl.
    by apply update_toggle_other with btn.
  - by rewrite applyTheme_refused.
Qed.

(** C2 (evaluated at the failing input): with three toggle controls, all
    three wired by [initTheme], one [toggleTheme] from light to dark
    updates the first control and leaves the second and the third
    without pressed-state and title; so does a click on the second. *)
Theorem three_toggles_first_updated_only :
  clickListeners <$> elements (pageLoad Examples.fresh_dark_page) =
    [[]; [ToggleTheme]; [ToggleTheme]; [ToggleTheme]] ∧
  marker (exec toggleTheme (pageLoad Examples.fresh_dark_page)) = Some "dark" ∧
  getAttribute 1 "aria-pressed" (exec toggleTheme (pageLoad Examples.fresh_dark_page))
    = Some "true" ∧
  getAttribute 1 "title" (exec toggleTheme (pageLoad Examples.fresh_dark_page))
    = Some "Switch to Light Mode" ∧
  getAttribute 2 "aria-pressed" (exec toggleTheme (pageLoad Examples.fresh_dark_page))
    = None ∧
  getAttribute 2 "title" (exec toggleTheme (pageLoad Examples.fresh_dark_page))
    = None ∧
  getAttribute 3 "aria-pressed" (exec toggleTheme (pageLoad Examples.fresh_dark_page))
    = None ∧
  getAttribute 3 "title" (exec toggleTheme (pageLoad Examples.fresh_dark_page))
    = None ∧
  click 2 (pageLoad Examples.fresh_dark_page) =
    exec toggleTheme (pageLoad Examples.fresh_dark_page) ∧
  ¬ all_toggles_show "dark" (exec toggleTheme (pageLoad Examples.fresh_dark_page)).
Proof.
  repeat (split; [by vm_compute|]).
  intros H.
  assert (elements (exec toggleTheme (pageLoad Examples.fresh_dark_page)) !! 2
          = Some (with_clickListener ToggleTheme Examples.toggle_button)) as He
    by (by vm_compute).
  destruct (H 2 _ He eq_refl) as [Hp _]. vm_compute in Hp. discriminate.
Qed.

(** C9 (evaluated at the failing input): the two phases run in order, the
    pre-pass first and [initTheme] on DOMContentLoaded, with no control
    wired in between; but on a first visit with a dark system preference
    they do not resolve alike: the pre-pass resolves dark, [initTheme]
    resolves light. *)
Theorem phases_resolve_differently :
  checkSystemPreference Examples.fresh_dark_page
    = Ok "dark" Examples.fresh_dark_page ∧
  getSavedTheme Examples.fresh_dark_page
    = Ok "light" Examples.fresh_dark_page ∧
  marker (exec script Examples.fresh_dark_page) = Some "dark" ∧
  domContentLoaded (exec script Examples.fresh_dark_page) = [InitTheme] ∧
  clickListeners <$> elements (exec script Examples.fresh_dark_page)
    = [[]; []; []; []] ∧
  marker (fire_DOMContentLoaded (exec script Examples.fresh_dark_page))
    = Some "light".
Proof.
  rewrite checkSystemPreference_eq, getSavedTheme_eq.
  destruct (resolutions_differ Examples.fresh_dark_page eq_refl eq_refl)
    as [-> ->].
  repeat (split; [by vm_compute|]). by vm_compute.
Qed.

End ThemeToggleFacts.

(** ** Properties of the alert auto-dismiss *)
Module MainFacts.
Import Main AlertTimeline.
Local Open Scope Z_scope.

(** *** The timer queue *)

Lemma elem_of_insert_timer x t ts :
  x ∈ insert_timer t ts ↔ x = t ∨ x ∈ ts.
Proof.
  induction ts as [|u ts IH]; simpl.
  - rewrite list_elem_of_singleton. split; [by left | by intros [?|?%elem_of_nil]].
  - destruct (due u <=? due t); rewrite !elem_of_cons; [rewrite IH|]; tauto.
Qed.

Lemma Forall_insert_timer (P : Timer → Prop) t ts :
  Forall P (insert_timer t ts) ↔ P t ∧ Forall P ts.
Proof.
  rewrite !Forall_forall. split.
  - intros H. split; [|intros x Hx]; apply H, elem_of_insert_timer; auto.
  - intros [Ht H] x [->|Hx]%elem_of_insert_timer; auto.
Qed.

Lemma sorted_insert_timer t ts : sorted ts → sorted (insert_timer t ts).
Proof.
  induction ts as [|u ts IH]; simpl.
  - intros _. split; [constructor | done].
  - intros [Hu Hs]. destruct (due u <=? due t) eqn:Hle; simpl.
    + split; [|by apply IH].
      apply Forall_insert_timer. split; [lia | done].
    + split; [|done]. constructor; [lia|].
      eapply Forall_impl; [exact Hu|]. simpl. intros; lia.
Qed.

Lemma turns_insert_timer t ts :
  sum_list (turns <$> insert_timer t ts) = (turns t + sum_list (turns <$> ts))%nat.
Proof.
  induction ts as [|u ts IH]; csimpl; [done|].
  destruct (due u <=? due t); csimpl; [rewrite IH|]; lia.
Qed.

Lemma timer_delay_300 : timer_delay (Int 300) = 300.
Proof. reflexivity. Qed.

Lemma timer_delay_5000 : timer_delay (Int 5000) = 5000.
Proof. reflexivity. Qed.

(** *** One turn of the loop *)
Lemma nodes_fire t rest w :
  nodes (fire t rest w) =
    match callback t with
    | FadeOut j => alter (set_opacity "0") j (nodes w)
    | Remove j => alter detach j (nodes w)
    end.
Proof. unfold fire. by destruct (callback t). Qed.

Lemma timers_fire t rest w :
  timers (fire t rest w) =
    match callback t with
    | FadeOut j => insert_timer (mkTimer (due t + 300) (Remove j)) rest
    | Remove j => rest
    end.
Proof. unfold fire. by destruct (callback t). Qed.

Lemma sorted_fire t rest w : sorted rest → sorted (timers (fire t rest w)).
Proof.
  intros Hs. rewrite timers_fire. destruct (callback t); [|done].
  by apply sorted_insert_timer.
Qed.

(** With fuel for every pending turn, the loop stops only when nothing
    is due. *)
Lemma run_complete fuel T w :
  sorted (timers w) →
  (sum_list (turns <$> timers w) ≤ fuel)%nat →
  ∀ t, t ∈ timers (run fuel T w) → T < due t.
Proof.
  revert w. induction fuel as [|fuel IH]; intros w Hs Hf; simpl.
  - destruct (timers w) as [|u ts]; [by intros t ?%elem_of_nil|].
    csimpl in Hf. unfold turns in Hf at 1. destruct (callback u); lia.
  - destruct (timers w) as [|u ts] eqn:Hts;
      [rewrite Hts; by intros t ?%elem_of_nil|].
    destruct Hs as [Hu Hs].
    destruct (due u <=? T) eqn:Hle.
    + apply IH; [by apply sorted_fire|].
      rewrite timers_fire. csimpl in Hf. unfold turns in Hf at 1.
      destruct (callback u) eqn:Hcb; [rewrite turns_insert_timer; unfold turns at 1; simpl|]; lia.
    + rewrite Hts. intros t [->|Hin]%elem_of_cons; [lia|].
      rewrite Forall_forall in Hu. specialize (Hu t Hin). lia.
Qed.

(** *** The life of one alert *)
Section AlertLifecycle.
Variables (i : nat) (n : Node) (t0 : Z).

#[local] Abbreviation fade_due := (Main.fade_due i t0).
#[local] Abbreviation Pending := (Main.Pending i n t0).
#[local] Abbreviation Faded := (Main.Faded i n t0).
#[local] Abbreviation Removed := (Main.Removed i n).

Lemma fade_due_fire t rest w :
  fade_due (t :: rest) → fade_due (timers (fire t rest w)).
Proof.
  intros Hd. rewrite timers_fire.
  assert (fade_due rest) as Hr
    by (intros x Hx; apply Hd; by apply elem_of_cons; right).
  destruct (callback t); [|done].
  intros x [->|Hx]%elem_of_insert_timer; [done | by apply Hr].
Qed.

Lemma Pending_fire_other t rest w :
  timers w = t :: rest → callback t ≠ FadeOut i →
  Pending w → Pending (fire t rest w).
Proof.
  intros Hts Hcb (Hn & Hd & Hno & (x & Hx & Hxi)). rewrite Hts in *.
  assert (x ∈ rest) as Hxr.
  { apply elem_of_cons in Hx as [->|]; [done | done]. }
  assert (callback t ≠ Remove i) as Hcb'
    by (apply Hno; apply elem_of_cons; by left).
  split; [|split; [by apply fade_due_fire|split]].
  - rewrite nodes_fire.
    destruct (callback t) as [j|j]; rewrite list_lookup_alter_ne;
      congruence.
  - rewrite timers_fire. destruct (callback t) as [j|j].
    + intros y [->|Hy]%elem_of_insert_timer; simpl; [congruence|].
      apply Hno. apply elem_of_cons; by right.
    + intros y Hy. apply Hno. apply elem_of_cons; by right.
  - exists x. split; [|done]. rewrite timers_fire.
    destruct (callback t); [apply elem_of_insert_timer; by right | done].
Qed.

Lemma Pending_fire_fade t rest w :
  timers w = t :: rest → callback t = FadeOut i →
  Pending w → Faded (fire t rest w).
Proof.
  intros Hts Hcb (Hn & Hd & Hno & _). rewrite Hts in *.
  assert (due t = t0 + 5000) as Hdue
    by (apply Hd; [apply elem_of_cons; by left | done]).
  split; [|split; [by apply fade_due_fire|split]].
  - rewrite nodes_fire, Hcb, list_lookup_alter_eq. by rewrite Hn.
  - rewrite timers_fire, Hcb.
    intros y [->|Hy]%elem_of_insert_timer Hy'; simpl; [lia|].
    exfalso. apply (Hno y); [apply elem_of_cons; by right | exact Hy'].
  - rewrite timers_fire, Hcb.
    exists (mkTimer (due t + 300) (Remove i)). split; [|done].
    apply elem_of_insert_timer. by left.
Qed.

Lemma Faded_fire_other t rest w :
  timers w = t :: rest → callback t ≠ Remove i →
  Faded w → Faded (fire t rest w).
Proof.
  intros Hts Hcb (Hn & Hd & Hr & (x & Hx & Hxi)). rewrite Hts in *.
  assert (x ∈ rest) as Hxr.
  { apply elem_of_cons in Hx as [->|]; [done | done]. }
  split; [|split; [by apply fade_due_fire|split]].
  - rewrite nodes_fire. destruct (callback t) as [j|j] eqn:Hj.
    + destruct (decide (j = i)) as [->|Hne].
      * rewrite list_lookup_alter_eq. by rewrite Hn.
      * by rewrite list_lookup_alter_ne.
    + rewrite list_lookup_alter_ne; congruence.
  - rewrite timers_fire. destruct (callback t) as [j|j] eqn:Hj.
    + intros y [->|Hy]%elem_of_insert_timer Hy'; simpl in *.
      * injection Hy' as ->.
        rewrite (Hd t); [lia | apply elem_of_cons; by left | done].
      * apply Hr; [apply elem_of_cons; by right | done].
    + intros y Hy. apply Hr. apply elem_of_cons; by right.
  - exists x. split; [|done]. rewrite timers_fire.
    destruct (callback t); [apply elem_of_insert_timer; by right | done].
Qed.

Lemma Faded_fire_remove t rest w :
  timers w = t :: rest → callback t = Remove i →
  Faded w → Removed (fire t rest w).
Proof.
  intros Hts Hcb (Hn & _). unfold Removed.
  rewrite nodes_fire, Hcb, list_lookup_alter_eq. by rewrite Hn.
Qed.

Lemma Removed_fire t rest w : Removed w → Removed (fire t rest w).
Proof.
  unfold Removed. intros Hn. rewrite nodes_fire.
  destruct (callback t) as [j|j]; (destruct (decide (j = i)) as [->|Hne];
    [rewrite list_lookup_alter_eq; by rewrite Hn
    | by rewrite list_lookup_alter_ne]).
Qed.

(** Before the fade-out is due the alert stays as it was. *)
Lemma run_Pending fuel T w :
  T < t0 + 5000 → Pending w → Pending (run fuel T w).
Proof.
  intros HT. revert w. induction fuel as [|fuel IH]; intros w Hp; [done|].
  simpl. destruct (timers w) as [|t rest] eqn:Hts; [done|].
  destruct (due t <=? T) eqn:Hle; [|done].
  apply IH, Pending_fire_other; [done| |done].
  intros Hcb. destruct Hp as (_ & Hd & _).
  specialize (Hd t). rewrite Hts in Hd.
  specialize (Hd ltac:(apply elem_of_cons; by left) Hcb). lia.
Qed.

(** Before the removal is due the alert is still in the document. *)
Lemma run_Pending_or_Faded fuel T w :
  T < t0 + 5300 → Pending w ∨ Faded w →
  Pending (run fuel T w) ∨ Faded (run fuel T w).
Proof.
  intros HT. revert w. induction fuel as [|fuel IH]; intros w Hp; [done|].
  simpl. destruct (timers w) as [|t rest] eqn:Hts; [done|].
  destruct (due t <=? T) eqn:Hle; [|done].
  apply IH. destruct Hp as [Hp|Hf].
  - destruct (decide (callback t = FadeOut i)).
    + right. by apply Pending_fire_fade.
    + left. by apply Pending_fire_other.
  - right. apply Faded_fire_other; [done| |done].
    intros Hcb. destruct Hf as (_ & _ & Hr & _).
    specialize (Hr t). rewrite Hts in Hr.
    specialize (Hr ltac:(apply elem_of_cons; by left) Hcb). lia.
Qed.

Lemma run_lifecycle fuel T w :
  Pending w ∨ Faded w ∨ Removed w →
  Pending (run fuel T w) ∨ Faded (run fuel T w) ∨ Removed (run fuel T w).
Proof.
  revert w. induction fuel as [|fuel IH]; intros w Hp; [done|].
  simpl. destruct (timers w) as [|t rest] eqn:Hts; [done|].
  destruct (due t <=? T) eqn:Hle; [|done].
  apply IH. destruct Hp as [Hp|[Hf|Hr]].
  - destruct (decide (callback t = FadeOut i)).
    + right; left. by apply Pending_fire_fade.
    + left. by apply Pending_fire_other.
  - destruct (decide (callback t = Remove i)).
    + right; right. by apply Faded_fire_remove with (w := w).
    + right; left. by apply Faded_fire_other.
  - right; right. by apply Removed_fire.
Qed.

End AlertLifecycle.

(** *** What [initAlerts] registers *)

Lemma nodes_schedule q j : nodes (schedule q j) = nodes q.
Proof. unfold schedule. by destruct (nodes q !! j). Qed.

Lemma now_schedule q j : now (schedule q j) = now q.
Proof. unfold schedule. by destruct (nodes q !! j). Qed.

Lemma elem_of_timers_schedule q j t :
  t ∈ timers (schedule q j) ↔
  t ∈ timers q ∨
  ∃ nj, nodes q !! j = Some nj ∧
        t = mkTimer (now q + timer_delay (dismissTime nj)) (FadeOut j).
Proof.
  unfold schedule. destruct (nodes q !! j) as [nj|]; simpl.
  - rewrite elem_of_insert_timer. split.
    + intros [->|?]; [right; by exists nj | by left].
    + intros [?|(? & [= <-] & ->)]; [by right | by left].
  - split; [by left | by intros [?|(? & [=] & _)]].
Qed.

Lemma sorted_schedule q j : sorted (timers q) → sorted (timers (schedule q j)).
Proof.
  unfold schedule. destruct (nodes q !! j); [|done].
  apply sorted_insert_timer.
Qed.

Lemma foldl_schedule ids q :
  nodes (foldl schedule q ids) = nodes q ∧
  now (foldl schedule q ids) = now q ∧
  (sorted (timers q) → sorted (timers (foldl schedule q ids))) ∧
  (∀ t, t ∈ timers (foldl schedule q ids) ↔
        t ∈ timers q ∨
        ∃ j nj, j ∈ ids ∧ nodes q !! j = Some nj ∧
                t = mkTimer (now q + timer_delay (dismissTime nj)) (FadeOut j)).
Proof.
  revert q. induction ids as [|j ids IH]; intros q; simpl.
  - repeat split; [done|by left|].
    intros [?|(? & ? & []%elem_of_nil & _)]; done.
  - destruct (IH (schedule q j)) as (Hn & Hnow & Hs & Ht).
    rewrite nodes_schedule in *. rewrite now_schedule in *.
    split; [done|]. split; [done|].
    split; [intros; by apply Hs, sorted_schedule|].
    intros t. rewrite Ht, elem_of_timers_schedule. split.
    + intros [[?|(nj & ? & ->)]|(k & nk & ? & ? & ->)].
      * by left.
      * right. exists j, nj. split; [apply elem_of_cons; by left | done].
      * right. exists k, nk. split; [apply elem_of_cons; by right | done].
    + intros [?|(k & nk & [->|?]%elem_of_cons & ? & ->)].
      * left; by left.
      * left; right. by exists nk.
      * right. by exists k, nk.
Qed.

Lemma elem_of_select_alerts all k ns j nj :
  ns !! j = Some nj → is_dismissible_alert all (k + j) nj = true →
  (k + j)%nat ∈ select_alerts all k ns.
Proof.
  revert k j. induction ns as [|m ns IH]; intros k [|j]; simpl; try done.
  - intros [= ->]. rewrite Nat.add_0_r. intros ->. apply elem_of_cons; by left.
  - intros Hj Hd. replace (k + S j)%nat with (S k + j)%nat in * by lia.
    destruct (is_dismissible_alert all k m); [apply elem_of_cons; right|];
      by apply IH.
Qed.

Lemma select_alerts_elem all k ns j :
  j ∈ select_alerts all k ns →
  ∃ n, (k ≤ j)%nat ∧ ns !! (j - k)%nat = Some n ∧
       is_dismissible_alert all j n = true.
Proof.
  revert k. induction ns as [|m ns IH]; intros k; simpl.
  - by intros ?%elem_of_nil.
  - assert (j ∈ select_alerts all (S k) ns →
            ∃ n, (k ≤ j)%nat ∧ (m :: ns) !! (j - k)%nat = Some n ∧
                 is_dismissible_alert all j n = true) as Htail.
    { intros (n & ? & Hn & ?)%IH. exists n. split; [lia|]. split; [|done].
      replace (j - k)%nat with (S (j - S k)) by lia. done. }
    destruct (is_dismissible_alert all k m) eqn:Hm; [|done].
    intros [->|?]%elem_of_cons; [|by apply Htail].
    exists m. rewrite Nat.sub_diag. done.
Qed.

(** What [querySelectorAll] returns: the positions of the dismissible
    alerts. *)
Lemma selected_spec ns k :
  selected ns k =
    match ns !! k with
    | Some n => is_dismissible_alert ns k n
    | None => false
    end.
Proof.
  unfold selected. destruct (ns !! k) as [n|] eqn:Hk.
  - destruct (is_dismissible_alert ns k n) eqn:Hd.
    + apply bool_decide_eq_true. by apply (elem_of_select_alerts ns 0 ns k n).
    + apply bool_decide_eq_false.
      intros (n' & _ & Hn' & Hd')%select_alerts_elem.
      rewrite Nat.sub_0_r, Hk in Hn'. congruence.
  - apply bool_decide_eq_false.
    intros (n' & _ & Hn' & _)%select_alerts_elem.
    rewrite Nat.sub_0_r, Hk in Hn'. congruence.
Qed.

(** The pending timers right after [initAlerts], on a window that had
    none. *)
Lemma timers_initAlerts w t :
  timers w = [] →
  t ∈ timers (initAlerts w) ↔
  ∃ j nj, nodes w !! j = Some nj ∧ is_dismissible_alert (nodes w) j nj = true ∧
          t = mkTimer (now w + fade_delay nj) (FadeOut j).
Proof.
  intros Hts.
  destruct (foldl_schedule (select_alerts (nodes w) 0 (nodes w)) w)
    as (_ & _ & _ & Ht).
  fold (initAlerts w) in Ht. rewrite Ht, Hts. split.
  - intros [[]%elem_of_nil|(j & nj & Hj & Hnj & ->)].
    apply select_alerts_elem in Hj as (n' & _ & Hn' & Hd).
    rewrite Nat.sub_0_r, Hnj in Hn'. injection Hn' as <-. by exists j, nj.
  - intros (j & nj & Hnj & Hd & ->). right. exists j, nj.
    split; [|done]. by apply (elem_of_select_alerts (nodes w) 0 (nodes w) j nj).
Qed.

Lemma sorted_initAlerts w : timers w = [] → sorted (timers (initAlerts w)).
Proof.
  intros Hts.
  destruct (foldl_schedule (select_alerts (nodes w) 0 (nodes w)) w)
    as (_ & _ & Hs & _).
  apply Hs. by rewrite Hts.
Qed.

Lemma nodes_initAlerts w : nodes (initAlerts w) = nodes w.
Proof.
  by destruct (foldl_schedule (select_alerts (nodes w) 0 (nodes w)) w) as (? & _).
Qed.

(** From a pending alert to the three stages of its life. *)
Lemma lifecycle_of_Pending i n t0 w :
  sorted (timers w) → Pending i n t0 w →
  (∀ T, T < t0 + 5000 → nodes (run_until T w) !! i = Some n) ∧
  (∀ T, t0 + 5000 ≤ T < t0 + 5300 →
        nodes (run_until T w) !! i = Some (set_opacity "0" n)) ∧
  (∀ T, t0 + 5300 ≤ T → nodes (run_until T w) !! i = Some (dismissed n)).
Proof.
  intros Hs Hp.
  assert (∀ T t, t ∈ timers (run_until T w) → T < due t) as Hdone
    by (intros T; by apply run_complete).
  split; [|split].
  - intros T HT. by apply (run_Pending i n t0).
  - intros T HT.
    destruct (run_Pending_or_Faded i n t0 (sum_list (turns <$> timers w)) T w)
      as [(_ & Hd & _ & (t & Hin & Hcb))|Hf]; [lia | by left | | apply Hf].
    specialize (Hd t Hin Hcb). specialize (Hdone T t Hin). lia.
  - intros T HT.
    destruct (run_lifecycle i n t0 (sum_list (turns <$> timers w)) T w)
      as [(_ & Hd & _ & (t & Hin & Hcb))
         |[(_ & _ & Hr & (t & Hin & Hcb))|Hr]]; [by left | | | apply Hr].
    + specialize (Hd t Hin Hcb). specialize (Hdone T t Hin). lia.
    + specialize (Hr t Hin Hcb). specialize (Hdone T t Hin). lia.
Qed.

Lemma lifecycle_initAlerts (w : Window) (i : nat) (n : Node) :
  timers w = [] →
  nodes w !! i = Some n →
  is_dismissible_alert (nodes w) i n = true →
  (∀ T, T < now w + fade_delay n →
        nodes (run_until T (initAlerts w)) !! i = Some n) ∧
  (∀ T, now w + fade_delay n ≤ T < now w + fade_delay n + 300 →
        nodes (run_until T (initAlerts w)) !! i = Some (set_opacity "0" n)) ∧
  (∀ T, now w + fade_delay n + 300 ≤ T →
        nodes (run_until T (initAlerts w)) !! i = Some (dismissed n)).
Proof.
  intros Hts Hi Hd.
  assert (Pending i n (now w + fade_delay n - 5000) (initAlerts w)) as Hp.
  { split; [by rewrite nodes_initAlerts|]. split; [|split].
    - intros t (j & nj & Hj & _ & ->)%timers_initAlerts [= <-]; [|done].
      rewrite Hi in Hj. injection Hj as <-. simpl. lia.
    - by intros t (j & nj & Hj & _ & ->)%timers_initAlerts.
    - exists (mkTimer (now w + fade_delay n) (FadeOut i)). split; [|done].
      apply timers_initAlerts; [done|]. by exists i, n. }
  destruct (lifecycle_of_Pending _ _ _ _ (sorted_initAlerts w Hts) Hp)
    as (H1 & H2 & H3).
  split; [|split]; intros T HT; [apply H1 | apply H2 | apply H3]; lia.
Qed.

(** *** What the timers never touch *)
Lemma run_frame fuel T w (j : nat) :
  (∀ t, t ∈ timers w → target (callback t) ≠ j) →
  nodes (run fuel T w) !! j = nodes w !! j.
Proof.
  revert w. induction fuel as [|fuel IH]; intros w Hw; [done|].
  simpl. destruct (timers w) as [|t rest] eqn:Hts; [done|].
  destruct (due t <=? T); [|done].
  assert (target (callback t) ≠ j) as Ht by (apply Hw, elem_of_cons; by left).
  rewrite IH.
  - rewrite nodes_fire. destruct (callback t); simpl in Ht;
      by rewrite list_lookup_alter_ne.
  - intros x. rewrite timers_fire. destruct (callback t) as [k|k]; simpl in Ht.
    + intros [->|Hx]%elem_of_insert_timer; [done|].
      apply Hw, elem_of_cons; by right.
    + intros Hx. apply Hw, elem_of_cons; by right.
Qed.

Lemma frame_initAlerts (w : Window) (j : nat) (T : Z) :
  timers w = [] →
  (∀ n, nodes w !! j = Some n → is_dismissible_alert (nodes w) j n = false) →
  nodes (run_until T (initAlerts w)) !! j = nodes w !! j.
Proof.
  intros Hts Hj.
  unfold run_until. rewrite run_frame; [by rewrite nodes_initAlerts|].
  intros t (k & nk & Hk & Hd & ->)%timers_initAlerts; [|done].
  simpl. intros ->. specialize (Hj nk Hk). congruence.
Qed.

(** *** The tree stays as it is: no callback moves a node *)
Lemma ancestors_upto_ext fuel ns ns' i :
  (∀ j, ns' !! j ≫= parent = ns !! j ≫= parent) →
  ancestors_upto fuel ns' i = ancestors_upto fuel ns i.
Proof.
  intros H. revert i. induction fuel as [|fuel IH]; intros i; simpl; [done|].
  rewrite H. destruct (ns !! i ≫= parent); [by rewrite IH | done].
Qed.

Lemma parent_alter (f : Node → Node) (j : nat) (ns : list Node) (k : nat) :
  (∀ n, parent (f n) = parent n) →
  alter f j ns !! k ≫= parent = ns !! k ≫= parent.
Proof.
  intros Hf. destruct (decide (k = j)) as [->|Hne].
  - rewrite list_lookup_alter_eq. destruct (ns !! j); simpl; [by rewrite Hf | done].
  - by rewrite list_lookup_alter_ne.
Qed.

Lemma tree_fire t rest w :
  length (nodes (fire t rest w)) = length (nodes w) ∧
  ∀ j, nodes (fire t rest w) !! j ≫= parent = nodes w !! j ≫= parent.
Proof.
  rewrite nodes_fire.
  destruct (callback t); (split; [apply length_alter | intros j; by apply parent_alter]).
Qed.

Lemma tree_run fuel T w :
  length (nodes (run fuel T w)) = length (nodes w) ∧
  ∀ j, nodes (run fuel T w) !! j ≫= parent = nodes w !! j ≫= parent.
Proof.
  revert w. induction fuel as [|fuel IH]; intros w; [done|].
  simpl. destruct (timers w) as [|t rest]; [done|].
  destruct (due t <=? T); [|done].
  destruct (IH (fire t rest w)) as [Hl Hp], (tree_fire t rest w) as [Hl' Hp'].
  split; [congruence|]. intros j. by rewrite Hp.
Qed.

Lemma ancestors_run_until T w i :
  ancestors (nodes (run_until T (initAlerts w))) i = ancestors (nodes w) i.
Proof.
  unfold ancestors, run_until.
  destruct (tree_run (sum_list (turns <$> timers (initAlerts w))) T (initAlerts w))
    as [Hl Hp].
  rewrite nodes_initAlerts in *. rewrite Hl. by apply ancestors_upto_ext.
Qed.

(** *** Being in the document *)
Lemma forallb_ext_elem {A} (f g : A → bool) l :
  (∀ x, x ∈ l → f x = g x) → forallb f l = forallb g l.
Proof.
  induction l as [|a l IH]; intros H; simpl; [done|].
  rewrite (H a), IH; [done| |apply elem_of_cons; by left].
  intros x Hx. apply H, elem_of_cons. by right.
Qed.

Lemma forallb_false_elem {A} (f : A → bool) l x :
  x ∈ l → f x = false → forallb f l = false.
Proof.
  intros Hx Hf. induction l as [|a l IH]; [by apply elem_of_nil in Hx|].
  simpl. apply elem_of_cons in Hx as [<-|Hx].
  - by rewrite Hf.
  - rewrite (IH Hx). apply andb_false_r.
Qed.

Lemma forallb_andb {A} (f g : A → bool) l :
  forallb (λ x, f x && g x) l = forallb f l && forallb g l.
Proof.
  induction l as [|a l IH]; simpl; [done|]. rewrite IH.
  destruct (f a), (g a), (forallb f l); done.
Qed.

Lemma in_document_attached ns i n :
  ns !! i = Some n → in_document ns i = true → attached n = true.
Proof.
  unfold in_document. simpl. unfold node_attached at 1. intros ->.
  by intros [? _]%andb_true_iff.
Qed.

Lemma in_document_detached ns i n :
  ns !! i = Some n → attached n = false → in_document ns i = false.
Proof.
  unfold in_document. simpl. unfold node_attached at 1. by intros -> ->.
Qed.

Lemma node_attached_lookup ns ns' k :
  ns' !! k = ns !! k → node_attached ns' k = node_attached ns k.
Proof. unfold node_attached. by intros ->. Qed.

Lemma in_document_frame ns ns' i :
  ancestors ns' i = ancestors ns i →
  (∀ k, k ∈ i :: ancestors ns i → node_attached ns' k = node_attached ns k) →
  in_document ns' i = in_document ns i.
Proof.
  unfold in_document. intros -> H. by apply forallb_ext_elem.
Qed.

Lemma is_dismissible_alert_attached ns i n :
  ns !! i = Some n → is_dismissible_alert ns i n = true → attached n = true.
Proof.
  intros Hi. unfold is_dismissible_alert.
  intros [[Hd _]%andb_true_iff _]%andb_true_iff.
  by apply (in_document_attached ns i n).
Qed.

(** *** The life of a selected alert, as the page shows it *)
Lemma lifecycle_observed (w : Window) (i : nat) (n : Node) (D : Z) :
  timers w = [] →
  nodes w !! i = Some n →
  is_dismissible_alert (nodes w) i n = true →
  fade_delay n = D →
  mkTimer (now w + D) (FadeOut i) ∈ timers (initAlerts w) ∧
  nodes (initAlerts w) !! i = Some n ∧
  (∀ T, T < now w + D →
        nodes (run_until T (initAlerts w)) !! i = Some n) ∧
  (∀ T, now w + D ≤ T < now w + D + 300 →
        nodes (run_until T (initAlerts w)) !! i
          = Some {| parent := parent n; classList := classList n;
                    attributes := attributes n;
                    styleOpacity := Some "0"; attached := true |}) ∧
  (∀ T, now w + D + 300 ≤ T →
        nodes (run_until T (initAlerts w)) !! i
          = Some {| parent := parent n; classList := classList n;
                    attributes := attributes n;
                    styleOpacity := Some "0"; attached := false |} ∧
        in_document (nodes (run_until T (initAlerts w))) i = false) ∧
  ((∀ a na, a ∈ ancestors (nodes w) i → nodes w !! a = Some na →
            is_dismissible_alert (nodes w) a na = false) →
   ∀ T, T < now w + D + 300 →
        in_document (nodes (run_until T (initAlerts w))) i = true).
Proof.
  intros Hts Hi Hsel <-.
  pose proof (is_dismissible_alert_attached _ _ _ Hi Hsel) as Hatt.
  destruct (lifecycle_initAlerts w i n Hts Hi Hsel) as (H1 & H2 & H3).
  split; [apply timers_initAlerts; [done | by exists i, n]|].
  split; [by rewrite nodes_initAlerts|].
  split; [done|]. split; [|split].
  - intros T HT. rewrite (H2 T HT). unfold set_opacity. by rewrite Hatt.
  - intros T HT. rewrite (H3 T HT). split; [done|].
    by eapply in_document_detached; [apply (H3 T HT)|].
  - intros Hanc T HT.
    assert (in_document (nodes w) i = true) as Hdoc.
    { unfold is_dismissible_alert in Hsel.
      by apply andb_true_iff in Hsel as [[? _]%andb_true_iff _]. }
    rewrite <- Hdoc. unfold in_document.
    rewrite ancestors_run_until. simpl. f_equal.
    + unfold node_attached. rewrite Hi.
      destruct (Z_lt_le_dec T (now w + fade_delay n)) as [Hlt|Hle].
      * by rewrite (H1 T Hlt).
      * rewrite (H2 T ltac:(lia)). done.
    + apply forallb_ext_elem. intros a Ha. apply node_attached_lookup.
      apply frame_initAlerts; [done|]. intros na Hna. by apply (Hanc a na).
Qed.

Lemma number_or_falsy x d : x = NaN ∨ x = Int 0 → number_or x d = Int d.
Proof. by intros [->| ->]. Qed.

(** C10: an alert that carries the dismiss-delay attribute with a value
    that [parseInt] reads as 0 or as no number gets the default delay of
    5000 ms.  [initAlerts] registers its fade-out 5000 ms ahead and leaves
    the alert as it is; until the fade-out runs the alert stays as it was;
    from then on its [style.opacity] is ["0"] and it is still attached;
    from 300 ms later on it is detached and out of the document.  Until
    then it is in the document, unless it sits inside another dismissible
    alert, which takes it along when it goes. *)
Theorem alert_falsy_delay_defaults (w : Window) (i : nat) (n : Node) (v : string) :
  timers w = [] →
  nodes w !! i = Some n →
  in_document (nodes w) i = true →
  "alert" ∈ classList n →
  attributes n !! "data-dismiss" = Some v →
  parseInt v = NaN ∨ parseInt v = Int 0 →
  dismissTime n = Int 5000 ∧
  mkTimer (now w + 5000) (FadeOut i) ∈ timers (initAlerts w) ∧
  nodes (initAlerts w) !! i = Some n ∧
  (∀ T, T < now w + 5000 →
        nodes (run_until T (initAlerts w)) !! i = Some n) ∧
  (∀ T, now w + 5000 ≤ T < now w + 5000 + 300 →
        nodes (run_until T (initAlerts w)) !! i
          = Some {| parent := parent n; classList := classList n;
                    attributes := attributes n;
                    styleOpacity := Some "0"; attached := true |}) ∧
  (∀ T, now w + 5000 + 300 ≤ T →
        nodes (run_until T (initAlerts w)) !! i
          = Some {| parent := parent n; classList := classList n;
                    attributes := attributes n;
                    styleOpacity := Some "0"; attached := false |} ∧
        in_document (nodes (run_until T (initAlerts w))) i = false) ∧
  ((∀ a na, a ∈ ancestors (nodes w) i → nodes w !! a = Some na →
            is_dismissible_alert (nodes w) a na = false) →
   ∀ T, T < now w + 5000 + 300 →
        in_document (nodes (run_until T (initAlerts w))) i = true).
Proof.
  intros Hts Hi Hdoc Hcls Hattr Hparse.
  assert (dismissTime n = Int 5000) as Hdt.
  { unfold dismissTime, dataset_dismiss. rewrite Hattr. simpl.
    by apply number_or_falsy. }
  split; [done|].
  apply lifecycle_observed; [done | done | | ].
  - unfold is_dismissible_alert. rewrite Hdoc, Hattr. simpl.
    rewrite andb_true_iff, !bool_decide_eq_true. eauto.
  - unfold fade_delay. by rewrite Hdt.
Qed.

Lemma alert_falsy_delay_defaults_witness :
  parseInt "soon" = NaN ∧
  dismissTime (Examples.alert_node "soon") = Int 5000 ∧
  mkTimer 5000 (FadeOut 3) ∈ timers (initAlerts Examples.alerts_window) ∧
  nodes (initAlerts Examples.alerts_window) !! 3%nat
    = Some (Examples.alert_node "soon") ∧
  (∀ T, T < 5000 →
        nodes (run_until T (initAlerts Examples.alerts_window)) !! 3%nat
          = Some (Examples.alert_node "soon")) ∧
  (∀ T, 5000 ≤ T < 5300 →
        nodes (run_until T (initAlerts Examples.alerts_window)) !! 3%nat
          = Some {| parent := None; classList := ["alert"; "alert-success"];
                    attributes := {["data-dismiss" := "soon"]};
                    styleOpacity := Some "0"; attached := true |}) ∧
  (∀ T, 5300 ≤ T →
        nodes (run_until T (initAlerts Examples.alerts_window)) !! 3%nat
          = Some {| parent := None; classList := ["alert"; "alert-success"];
                    attributes := {["data-dismiss" := "soon"]};
                    styleOpacity := Some "0"; attached := false |} ∧
        in_document (nodes (run_until T (initAlerts Examples.alerts_window))) 3
          = false) ∧
  (∀ T, T < 5300 →
        in_document (nodes (run_until T (initAlerts Examples.alerts_window))) 3
          = true).
Proof.
  split; [reflexivity|].
  destruct (alert_falsy_delay_defaults Examples.alerts_window 3
              (Examples.alert_node "soon") "soon")
    as (H0 & H1 & H2 & H3 & H4 & H5 & H6).
  - reflexivity.
  - reflexivity.
  - reflexivity.
  - apply elem_of_cons; left; reflexivity.
  - reflexivity.
  - left; reflexivity.
  - split; [exact H0|]. split; [exact H1|]. split; [exact H2|].
    split; [exact H3|]. split; [exact H4|]. split; [exact H5|].
    apply H6. intros a na Ha. vm_compute in Ha. by apply elem_of_nil in Ha.
Defined.
End MainFacts.

(** ** More properties of theme-toggle.js *)
Module ThemeToggleMoreFacts.
Import Js Dom ThemeToggle ThemeSession ThemeToggleFacts.

Lemma update_toggle_overwrite a b es :
  update_toggle a (update_toggle b es) = update_toggle a es.
Proof.
  unfold update_toggle.
  destruct (find_class "theme-toggle" es) as [btn|] eqn:Hq.
  - rewrite !find_class_alter by done. rewrite Hq.
    rewrite !list_alter_alter_eq. apply list_alter_ext; [|done].
    intros e _. unfold with_attribute; simpl. f_equal.
    apply map_eq. intros k.
    destruct (decide (k = "title")) as [->|]; simplify_map_eq; [done|].
    destruct (decide (k = "aria-pressed")) as [->|]; by simplify_map_eq.
  - by rewrite Hq.
Qed.

Lemma applied_overwrite a b p : applied a (applied b p) = applied a p.
Proof.
  unfold applied, set_elements, set_localStorage, set_rootAttributes; simpl.
  rewrite update_toggle_overwrite, !insert_insert_eq. done.
Qed.

(** X1: the last [applyTheme] wins.  Applying theme [a] after theme [b]
    ends as applying [a] alone does, in outcome and in the whole page,
    whether the store takes writes or not. *)
Theorem applyTheme_last_wins (a b : string) (p : Page) :
  applyTheme a (exec (applyTheme b) p) = applyTheme a p.
Proof.
  unfold exec. destruct (storageWritable p) eqn:Hw.
  - rewrite (applyTheme_writable b p Hw); simpl.
    rewrite !applyTheme_writable by done. by rewrite applied_overwrite.
  - rewrite (applyTheme_refused b p Hw); simpl.
    rewrite !applyTheme_refused by done.
    unfold set_rootAttributes; simpl. by rewrite insert_insert_eq.
Qed.

Lemma next_theme_twice m :
  next_theme (Some (next_theme (Some (next_theme m)))) = next_theme m.
Proof.
  assert (next_theme m = LIGHT_THEME ∨ next_theme m = DARK_THEME) as [-> | ->]
    by (unfold next_theme; case_bool_decide; auto); done.
Qed.

Lemma exec_toggleTheme p :
  exec toggleTheme p = exec (applyTheme (next_theme (marker p))) p.
Proof. unfold exec. by rewrite toggleTheme_eq. Qed.

Lemma exec_applyTheme_last_wins a b p :
  exec (applyTheme a) (exec (applyTheme b) p) = exec (applyTheme a) p.
Proof. unfold exec at 1 3. by rewrite applyTheme_last_wins. Qed.

(** X2: from the first toggle on, toggling has period two on the whole
    page: three toggles leave exactly the page one toggle leaves, from any
    page at all. *)
Theorem toggleTheme_thrice (p : Page) :
  exec toggleTheme (exec toggleTheme (exec toggleTheme p)) = exec toggleTheme p.
Proof.
  rewrite (exec_toggleTheme (exec toggleTheme (exec toggleTheme p))).
  rewrite !marker_toggleTheme, next_theme_twice.
  rewrite (exec_toggleTheme (exec toggleTheme p)), exec_applyTheme_last_wins.
  rewrite (exec_toggleTheme p). apply exec_applyTheme_last_wins.
Qed.

(** X3: where a toggle goes.  The marker becomes light when it read dark
    and dark in every other case (light, unset, empty, any other text);
    the store gets the same value when it takes writes and keeps its own
    otherwise. *)
Theorem toggleTheme_target (p : Page) :
  marker (exec toggleTheme p) =
    Some (if bool_decide (marker p = Some "dark") then "light" else "dark") ∧
  persisted (exec toggleTheme p) =
    if storageWritable p then marker (exec toggleTheme p) else persisted p.
Proof.
  rewrite persisted_toggleTheme, marker_toggleTheme. split; [|done].
  f_equal. unfold next_theme, or_default.
  destruct (marker p) as [s|]; [|done].
  repeat case_bool_decide; simplify_eq; try done.
Qed.

(** *** Which elements [initTheme] wires *)
Lemma with_clickListener_idem l e :
  with_clickListener l (with_clickListener l e) = with_clickListener l e.
Proof.
  unfold with_clickListener, add_listener; simpl. f_equal.
  destruct (decide (l ∈ clickListeners e)) as [Hin|Hin].
  - by rewrite !(bool_decide_eq_true_2 _ Hin).
  - rewrite (bool_decide_eq_false_2 _ Hin).
    rewrite bool_decide_eq_true_2; [done|]. apply elem_of_app; right.
    by apply list_elem_of_singleton.
Qed.

Lemma attach_all_lookup l ids es i :
  attach_all l ids es !! i =
    (if bool_decide (i ∈ ids) then with_clickListener l else id) <$> es !! i.
Proof.
  unfold attach_all. revert es. induction ids as [|j ids IH]; intros es; simpl.
  - by destruct (es !! i).
  - rewrite IH. destruct (decide (i = j)) as [->|Hne].
    + rewrite list_lookup_alter_eq.
      rewrite (bool_decide_eq_true_2 (j ∈ j :: ids)) by (apply elem_of_cons; by left).
      destruct (es !! j) as [e|]; simpl; [|done].
      case_bool_decide; simpl; [by rewrite with_clickListener_idem | done].
    + rewrite list_lookup_alter_ne by done.
      destruct (es !! i) as [e|]; simpl; [|done].
      f_equal. repeat case_bool_decide; try done.
      * exfalso. apply H0. apply elem_of_cons; by right.
      * apply elem_of_cons in H0 as [?|?]; done.
Qed.

Lemma elem_of_find_all_class c (k : nat) (es : list Element) (i : nat) :
  i ∈ find_all_class c k es ↔
  ∃ e, (k ≤ i)%nat ∧ es !! (i - k)%nat = Some e ∧ has_class c e = true.
Proof.
  revert k. induction es as [|e es IH]; intros k; simpl.
  - split; [by intros ?%elem_of_nil | by intros (? & _ & ? & _)].
  - assert (i ∈ find_all_class c (S k) es ↔
            ∃ e', (k ≤ i)%nat ∧ i ≠ k ∧ es !! (i - S k)%nat = Some e' ∧
                  has_class c e' = true)
      as Htail.
    { rewrite IH. split.
      - intros (e' & ? & ? & ?). exists e'. repeat split; [lia|lia|done|done].
      - intros (e' & ? & ? & ? & ?). exists e'. repeat split; [lia|done|done]. }
    destruct (has_class c e) eqn:Hc; [rewrite elem_of_cons|]; rewrite Htail; split.
    + intros [->|(e' & ? & ? & He' & ?)].
      * exists e. rewrite Nat.sub_diag. done.
      * exists e'. split; [done|]. split; [|done].
        replace (i - k)%nat with (S (i - S k)) by lia. done.
    + intros (e' & Hk & He' & Hc'). destruct (decide (i = k)) as [->|Hne]; [by left|].
      right. exists e'. repeat split; [done|done| |done].
      replace (i - k)%nat with (S (i - S k)) in He' by lia. done.
    + intros (e' & ? & ? & He' & ?). exists e'. split; [done|]. split; [|done].
      replace (i - k)%nat with (S (i - S k)) by lia. done.
    + intros (e' & Hk & He' & Hc'). destruct (decide (i = k)) as [->|Hne].
      * rewrite Nat.sub_diag in He'. simpl in He'. congruence.
      * exists e'. repeat split; [done|done| |done].
        replace (i - k)%nat with (S (i - S k)) in He' by lia. done.
Qed.

Lemma update_toggle_lookup theme es i :
  ∃ f : Element → Element,
    (∀ e, classList (f e) = classList e ∧ clickListeners (f e) = clickListeners e) ∧
    update_toggle theme es !! i = f <$> es !! i.
Proof.
  unfold update_toggle. destruct (find_class "theme-toggle" es) as [btn|].
  - destruct (decide (btn = i)) as [->|Hne].
    + eexists (λ e, with_attribute "title" _ (with_attribute "aria-pressed" _ e)).
      split; [done|]. rewrite !list_lookup_alter_eq. by destruct (es !! i).
    + exists id. split; [done|]. rewrite !list_lookup_alter_ne by done.
      by destruct (es !! i).
  - exists id. split; [done|]. by destruct (es !! i).
Qed.


Lemma wired_lookup theme es i e :
  es !! i = Some e →
  ∃ e', wired theme es !! i = Some e' ∧
        classList e' = classList e ∧
        clickListeners e' =
          if has_class "theme-toggle" e
          then add_listener ToggleTheme (clickListeners e)
          else clickListeners e.
Proof.
  intros Hi. unfold wired. rewrite attach_all_lookup.
  destruct (update_toggle_lookup theme es i) as (f & Hf & Hl).
  rewrite Hl, Hi. simpl. destruct (Hf e) as [Hcl Hls].
  assert (has_class "theme-toggle" (f e) = has_class "theme-toggle" e) as Hhc
    by (unfold has_class; by rewrite Hcl).
  case_bool_decide as Hin.
  - apply elem_of_find_all_class in Hin as (e0 & _ & He0 & Hc0).
    rewrite Nat.sub_0_r, Hl, Hi in He0. simpl in He0. injection He0 as <-.
    eexists. split; [done|]. simpl. rewrite <- Hhc, Hc0, Hls. done.
  - eexists. split; [done|]. simpl. rewrite Hcl, Hls. split; [done|].
    destruct (has_class "theme-toggle" e) eqn:Hc; [|done].
    exfalso. apply Hin. apply elem_of_find_all_class. exists (f e).
    rewrite Nat.sub_0_r, Hl, Hi. split; [lia|]. split; [done|]. by rewrite Hhc.
Qed.

Lemma initTheme_refused p :
  storageWritable p = false →
  initTheme p =
    Throw QuotaExceededError
          (set_rootAttributes (insert "data-theme" (resolved_saved p)) p).
Proof.
  intros Hw. unfold initTheme.
  rewrite (bind_Ok _ _ _ _ _ (getSavedTheme_eq p)).
  by rewrite (bind_Throw _ _ _ _ _ (applyTheme_refused _ _ Hw)).
Qed.

Lemma exec_initTheme_writable p :
  storageWritable p = true →
  exec initTheme p =
    set_elements (wired (resolved_saved p))
      (set_localStorage (insert THEME_KEY (resolved_saved p))
         (set_rootAttributes (insert "data-theme" (resolved_saved p)) p)).
Proof. intros Hw. unfold exec. by rewrite initTheme_writable. Qed.


(** *** The page a load leaves *)
Lemma pageLoad_writable p :
  storageWritable p = true → domContentLoaded p = [] →
  marker (pageLoad p) = Some (resolved_saved p) ∧
  persisted (pageLoad p) = Some (resolved_saved p) ∧
  storageWritable (pageLoad p) = true ∧
  elements (pageLoad p) = wired (resolved_saved p) (elements p) ∧
  windowToggleTheme (pageLoad p) = true.
Proof.
  intros Hw Hd. unfold pageLoad, exec.
  destruct (readyStateLoading p) eqn:Hl.
  - rewrite script_loading by done. simpl.
    unfold fire_DOMContentLoaded; simpl. rewrite Hd. simpl.
    rewrite exec_initTheme_writable by done. simpl.
    repeat split; [apply lookup_insert_eq | apply lookup_insert_eq | done].
  - rewrite script_loaded by done.
    erewrite bind_Ok by (by apply initTheme_writable).
    unfold window_set_toggleTheme; simpl.
    repeat split; [apply lookup_insert_eq | apply lookup_insert_eq | done].
Qed.

Lemma pageLoad_refused p :
  storageWritable p = false → domContentLoaded p = [] →
  marker (pageLoad p) = Some (resolved_saved p) ∧
  localStorage (pageLoad p) = localStorage p ∧
  elements (pageLoad p) = elements p ∧
  windowToggleTheme (pageLoad p) = windowToggleTheme p || readyStateLoading p.
Proof.
  intros Hw Hd. unfold pageLoad, exec.
  destruct (readyStateLoading p) eqn:Hl.
  - rewrite script_loading by done. simpl.
    unfold fire_DOMContentLoaded; simpl. rewrite Hd. simpl.
    unfold exec. rewrite initTheme_refused by done. simpl.
    unfold marker; simpl. rewrite lookup_insert_eq, orb_true_r. done.
  - rewrite script_loaded by done.
    erewrite bind_Throw by (by apply initTheme_refused).
    simpl. unfold marker; simpl. rewrite lookup_insert_eq, orb_false_r. done.
Qed.

Lemma resolved_saved_entry p v :
  persisted p = Some v → v ≠ "" →
  resolved_saved p = v ∧ resolved_initial p = v.
Proof.
  intros Hs Hne. unfold resolved_initial, resolved_saved. rewrite Hs. simpl.
  by rewrite bool_decide_eq_false_2.
Qed.

(** X4: [initTheme] wires every toggle control and nothing else.  With a
    writable store, each element keeps its classes; an element of class
    [theme-toggle] gets [toggleTheme] as a click listener (once, also when
    it had it already), any other element keeps its listeners. *)
Theorem initTheme_wires_toggles (p : Page) (i : nat) (e : Element) :
  storageWritable p = true →
  elements p !! i = Some e →
  ∃ e', elements (exec initTheme p) !! i = Some e' ∧
        classList e' = classList e ∧
        clickListeners e' =
          if has_class "theme-toggle" e
          then add_listener ToggleTheme (clickListeners e)
          else clickListeners e.
Proof.
  intros Hw Hi. rewrite exec_initTheme_writable by done. simpl.
  by apply wired_lookup.
Qed.

Lemma initTheme_wires_toggles_witness :
  storageWritable Examples.fresh_dark_page = true ∧
  elements Examples.fresh_dark_page !! 2 = Some Examples.toggle_button ∧
  ∃ e', elements (exec initTheme Examples.fresh_dark_page) !! 2 = Some e' ∧
        classList e' = classList Examples.toggle_button ∧
        clickListeners e' =
          if has_class "theme-toggle" Examples.toggle_button
          then add_listener ToggleTheme (clickListeners Examples.toggle_button)
          else clickListeners Examples.toggle_button.
Proof.
  split; [reflexivity|]. split; [reflexivity|].
  apply (initTheme_wires_toggles Examples.fresh_dark_page 2 Examples.toggle_button);
    reflexivity.
Defined.

(** *** A click after the page load *)
Lemma update_toggle_keeps theme es i :
  ∃ f : Element → Element,
    (∀ e, classList (f e) = classList e ∧
          clickListeners (f e) = clickListeners e ∧
          parentElement (f e) = parentElement e) ∧
    update_toggle theme es !! i = f <$> es !! i.
Proof.
  unfold update_toggle. destruct (find_class "theme-toggle" es) as [btn|].
  - destruct (decide (btn = i)) as [->|Hne].
    + eexists (λ e, with_attribute "title" _ (with_attribute "aria-pressed" _ e)).
      split; [done|]. rewrite !list_lookup_alter_eq. by destruct (es !! i).
    + exists id. split; [done|]. rewrite !list_lookup_alter_ne by done.
      by destruct (es !! i).
  - exists id. split; [done|]. by destruct (es !! i).
Qed.

Lemma length_update_toggle theme es : length (update_toggle theme es) = length es.
Proof.
  unfold update_toggle. destruct (find_class "theme-toggle" es); [|done].
  by rewrite !length_alter.
Qed.

Lemma length_attach_all l ids es : length (attach_all l ids es) = length es.
Proof.
  unfold attach_all. revert es. induction ids as [|j ids IH]; intros es; [done|].
  simpl. by rewrite IH, length_alter.
Qed.

Lemma length_wired theme es : length (wired theme es) = length es.
Proof. unfold wired. by rewrite length_attach_all, length_update_toggle. Qed.

Lemma wired_parent theme es j :
  wired theme es !! j ≫= parentElement = es !! j ≫= parentElement.
Proof.
  unfold wired. rewrite attach_all_lookup.
  destruct (update_toggle_keeps theme es j) as (f & Hf & ->).
  destruct (es !! j) as [e|]; [|done]. simpl.
  destruct (Hf e) as (_ & _ & Hp). by case_bool_decide.
Qed.

Lemma element_ancestors_ext fuel es es' i :
  (∀ j, es' !! j ≫= parentElement = es !! j ≫= parentElement) →
  ancestors_upto fuel es' i = ancestors_upto fuel es i.
Proof.
  intros H. revert i. induction fuel as [|fuel IH]; intros i; simpl; [done|].
  rewrite H. destruct (es !! i ≫= parentElement); [by rewrite IH | done].
Qed.

Lemma ancestors_wired theme es i : ancestors (wired theme es) i = ancestors es i.
Proof.
  unfold ancestors. rewrite length_wired.
  apply element_ancestors_ext, wired_parent.
Qed.

(** The listeners on an element after the load, when it had none. *)
Lemma wired_listeners theme es j :
  (∀ e, es !! j = Some e → clickListeners e = []) →
  clickListeners <$> wired theme es !! j =
    (λ _, if is_toggle es j then [ToggleTheme] else []) <$> es !! j.
Proof.
  intros Hnone. unfold is_toggle. destruct (es !! j) as [e|] eqn:Hj.
  - destruct (wired_lookup theme es j e Hj) as (e' & -> & _ & Hls). simpl.
    rewrite Hls, (Hnone e eq_refl). by destruct (has_class "theme-toggle" e).
  - unfold wired. rewrite attach_all_lookup.
    destruct (update_toggle_keeps theme es j) as (f & _ & ->). by rewrite Hj.
Qed.

Lemma toggleTheme_listeners p j :
  storageWritable p = true →
  clickListeners <$> elements (exec toggleTheme p) !! j
  = clickListeners <$> elements p !! j.
Proof.
  intros Hw. unfold exec. rewrite toggleTheme_eq, applyTheme_writable by done.
  simpl. destruct (update_toggle_keeps (next_theme (marker p)) (elements p) j)
    as (f & Hf & ->).
  destruct (elements p !! j) as [e|]; [|done]. simpl.
  by destruct (Hf e) as (_ & -> & _).
Qed.

Lemma click_path es l q :
  storageWritable q = true →
  (∀ j, j ∈ l →
        clickListeners <$> elements q !! j =
          (λ _, if is_toggle es j then [ToggleTheme] else []) <$> es !! j) →
  foldl (λ r j, click_at j r) q l =
    Nat.iter (length (List.filter (is_toggle es) l)) (exec toggleTheme) q.
Proof.
  revert q. induction l as [|j l IH]; intros q Hw Hl; [done|].
  pose proof (Hl j ltac:(apply elem_of_cons; by left)) as Hj.
  assert (∀ k, k ∈ l →
            clickListeners <$> elements q !! k =
              (λ _, if is_toggle es k then [ToggleTheme] else []) <$> es !! k)
    as Hl' by (intros k Hk; apply Hl, elem_of_cons; by right).
  cbn [foldl List.filter].
  destruct (is_toggle es j) eqn:Ht.
  - assert (click_at j q = exec toggleTheme q) as ->.
    { unfold click_at. unfold is_toggle in Ht.
      destruct (elements q !! j) as [e|], (es !! j); simpl in Hj; try done.
      by injection Hj as ->. }
    rewrite IH.
    + cbn [length]. by rewrite Nat.iter_succ_r.
    + by rewrite storageWritable_toggleTheme.
    + intros k Hk. rewrite toggleTheme_listeners by done. by apply Hl'.
  - assert (click_at j q = q) as ->.
    { unfold click_at.
      destruct (elements q !! j) as [e|], (es !! j); simpl in Hj; try done.
      by injection Hj as ->. }
    by apply IH.
Qed.

(** X5: after the page load, a click runs [toggleTheme] once for every
    toggle control on its way up: the element clicked and each of its
    ancestors, where it has the class [theme-toggle].  So a click on a
    control or on something inside it is one [toggleTheme], and a click
    that meets no control on its way changes nothing; for a click whose
    way has no element with a listener from before the load. *)
Theorem click_after_load (p : Page) (i : nat) :
  storageWritable p = true →
  domContentLoaded p = [] →
  (∀ j e, j ∈ i :: ancestors (elements p) i →
          elements p !! j = Some e → clickListeners e = []) →
  click i (pageLoad p) =
    Nat.iter (toggles_on_path (elements p) i) (exec toggleTheme) (pageLoad p).
Proof.
  intros Hw Hd Hls.
  destruct (pageLoad_writable p Hw Hd) as (_ & _ & Hw' & Hes & _).
  unfold click, toggles_on_path. rewrite Hes at 1. rewrite ancestors_wired.
  apply click_path; [done|].
  intros j Hj. rewrite Hes. apply wired_listeners.
  intros e. by apply Hls.
Qed.

Lemma click_after_load_witness :
  toggles_on_path (elements MoreExamples.icon_page) 2 = 1 ∧
  toggles_on_path (elements MoreExamples.icon_page) 0 = 0 ∧
  click 2 (pageLoad MoreExamples.icon_page)
    = exec toggleTheme (pageLoad MoreExamples.icon_page) ∧
  click 0 (pageLoad MoreExamples.icon_page) = pageLoad MoreExamples.icon_page.
Proof.
  split; [reflexivity|]. split; [reflexivity|]. split.
  - apply (click_after_load MoreExamples.icon_page 2); [reflexivity | reflexivity |].
    intros j e Hj. vm_compute in Hj.
    apply elem_of_cons in Hj as [->|Hj];
      [|apply elem_of_cons in Hj as [->|Hj]; [|by apply elem_of_nil in Hj]];
      intros [= <-]; reflexivity.
  - apply (click_after_load MoreExamples.icon_page 0); [reflexivity | reflexivity |].
    intros j e Hj. vm_compute in Hj.
    apply elem_of_cons in Hj as [->|Hj]; [|by apply elem_of_nil in Hj].
    intros [= <-]; reflexivity.
Defined.

(** X6: when the store refuses writes, the page load sets the marker to
    the resolved theme and nothing else: no control is updated, no control
    is wired, the store is as it was; and [window.toggleTheme] is defined
    only if the document was still loading when the script ran. *)
Theorem pageLoad_storage_refused (p : Page) :
  storageWritable p = false →
  domContentLoaded p = [] →
  marker (pageLoad p) = Some (resolved_saved p) ∧
  localStorage (pageLoad p) = localStorage p ∧
  elements (pageLoad p) = elements p ∧
  windowToggleTheme (pageLoad p) = windowToggleTheme p || readyStateLoading p.
Proof. apply pageLoad_refused. Qed.

Lemma pageLoad_storage_refused_witness :
  storageWritable Examples.quota_page = false ∧
  marker (pageLoad Examples.quota_page)
    = Some (resolved_saved Examples.quota_page) ∧
  localStorage (pageLoad Examples.quota_page) = localStorage Examples.quota_page ∧
  elements (pageLoad Examples.quota_page) = elements Examples.quota_page ∧
  windowToggleTheme (pageLoad Examples.quota_page)
    = windowToggleTheme Examples.quota_page
      || readyStateLoading Examples.quota_page.
Proof.
  split; [reflexivity|].
  apply (pageLoad_storage_refused Examples.quota_page); reflexivity.
Defined.

(** X7: a returning visit.  With a non-empty entry in a writable store,
    the pre-pass and the finished load both show the entry, whatever the
    system prefers, and the store still holds it. *)
Theorem pageLoad_returning_visit (p : Page) (v : string) :
  storageWritable p = true →
  domContentLoaded p = [] →
  persisted p = Some v →
  v ≠ "" →
  marker (exec antiFlash p) = Some v ∧
  marker (pageLoad p) = Some v ∧
  persisted (pageLoad p) = Some v.
Proof.
  intros Hw Hd Hs Hne.
  destruct (resolved_saved_entry p v Hs Hne) as [Hsaved Hinit].
  destruct (pageLoad_writable p Hw Hd) as (Hm & Hp & _).
  rewrite Hm, Hp, Hsaved. split; [|done].
  unfold exec. rewrite antiFlash_eq, Hinit. apply lookup_insert_eq.
Qed.

Lemma pageLoad_returning_visit_witness :
  persisted Examples.returning_light_page = Some "light" ∧
  prefersDark Examples.returning_light_page = true ∧
  marker (exec antiFlash Examples.returning_light_page) = Some "light" ∧
  marker (pageLoad Examples.returning_light_page) = Some "light" ∧
  persisted (pageLoad Examples.returning_light_page) = Some "light".
Proof.
  split; [by vm_compute|]. split; [reflexivity|].
  apply (pageLoad_returning_visit Examples.returning_light_page "light");
    [reflexivity | reflexivity | by vm_compute | discriminate].
Defined.

(** *** The store follows the marker *)
Lemma storageWritable_initTheme p :
  storageWritable (exec initTheme p) = storageWritable p.
Proof.
  unfold exec. destruct (storageWritable p) eqn:Hw.
  - by rewrite initTheme_writable.
  - by rewrite initTheme_refused.
Qed.

Lemma storageWritable_listener l p :
  storageWritable (exec (run_listener l) p) = storageWritable p.
Proof.
  destruct l; [apply storageWritable_toggleTheme | apply storageWritable_initTheme].
Qed.

Lemma in_sync_listener l p :
  storageWritable p = true → in_sync (exec (run_listener l) p).
Proof.
  intros Hw. destruct l; simpl.
  - exists (next_theme (marker p)).
    by rewrite marker_toggleTheme, persisted_toggleTheme, Hw.
  - exists (resolved_saved p). rewrite exec_initTheme_writable by done.
    split; apply lookup_insert_eq.
Qed.

Lemma dispatch_in_sync ls p :
  storageWritable p = true → in_sync p →
  storageWritable (dispatch ls p) = true ∧ in_sync (dispatch ls p).
Proof.
  unfold dispatch. revert p. induction ls as [|l ls IH]; intros p Hw Hs; [done|].
  simpl. apply IH.
  - by rewrite storageWritable_listener.
  - by apply in_sync_listener.
Qed.

Lemma click_in_sync i p :
  storageWritable p = true → in_sync p →
  storageWritable (click i p) = true ∧ in_sync (click i p).
Proof.
  intros Hw Hs. unfold click. generalize (i :: ancestors (elements p) i).
  intros l. revert p Hw Hs. induction l as [|j l IH]; intros p Hw Hs; [done|].
  simpl. apply IH; unfold click_at;
    (destruct (elements p !! j); [by apply dispatch_in_sync | done]).
Qed.

(** X8: the store follows the marker.  After the page load and any run of
    clicks, on whatever elements, the marker is set and the store holds the
    same text (with a writable store). *)
Theorem session_in_sync (p : Page) (cs : list nat) :
  storageWritable p = true →
  domContentLoaded p = [] →
  in_sync (clicks cs (pageLoad p)).
Proof.
  intros Hw Hd.
  destruct (pageLoad_writable p Hw Hd) as (Hm & Hp & Hw' & _).
  assert (in_sync (pageLoad p)) as Hs by (by exists (resolved_saved p)).
  unfold clicks. revert Hw' Hs. generalize (pageLoad p).
  induction cs as [|i cs IH]; intros q Hq Hs; [done|].
  simpl. destruct (click_in_sync i q Hq Hs). by apply IH.
Qed.

Lemma session_in_sync_witness :
  storageWritable Examples.fresh_dark_page = true ∧
  in_sync (clicks [1; 2; 1] (pageLoad Examples.fresh_dark_page)).
Proof.
  split; [reflexivity|].
  apply (session_in_sync Examples.fresh_dark_page [1; 2; 1]); reflexivity.
Defined.

(** X9: when the two resolutions agree.  [checkSystemPreference] and
    [getSavedTheme] return the same theme exactly when the store has a
    non-empty entry or the system does not prefer dark. *)
Theorem resolutions_agree_iff (p : Page) :
  checkSystemPreference p = getSavedTheme p ↔
  truthy (persisted p) = true ∨ prefersDark p = false.
Proof.
  rewrite checkSystemPreference_eq, getSavedTheme_eq.
  unfold resolved_initial, resolved_saved.
  destruct (truthy (persisted p)) eqn:Ht; simpl.
  - split; [by left | done].
  - assert (or_default (persisted p) LIGHT_THEME = LIGHT_THEME) as ->.
    { unfold truthy, or_default in *. destruct (persisted p); [|done].
      by case_bool_decide. }
    destruct (prefersDark p); split; try done; [|by right].
    by intros [?|?].
Qed.

End ThemeToggleMoreFacts.

(** ** More properties of the alert auto-dismiss *)
Module AlertFacts.
Import Main MainFacts AlertTimeline.
Local Open Scope Z_scope.

Lemma timer_delay_bounds x : 0 ≤ timer_delay x < 2 ^ 31.
Proof.
  destruct x as [|z|b]; simpl; [lia| |lia]. unfold to_int32.
  pose proof (Z.mod_pos_bound (z + 2 ^ 31) (2 ^ 32) ltac:(lia)). lia.
Qed.

Lemma timer_delay_int z : - 2 ^ 31 ≤ z < 2 ^ 31 → timer_delay (Int z) = Z.max 0 z.
Proof.
  intros Hz. unfold timer_delay, to_int32.
  rewrite Z.mod_small by lia. lia.
Qed.

(** An integer below 2^53 in size is a Number as it stands. *)
Lemma to_number_small z : Z.abs z < 2 ^ 53 → to_number z = Int z.
Proof.
  intros Hz. unfold to_number.
  destruct (Z.ltb_spec (Z.abs z) (2 ^ 53)); [done | lia].
Qed.

(** A larger one is rounded: 2^85 + 2000000 is read as 2^85, which
    [setTimeout] takes as no delay at all. *)
Lemma parseInt_rounds_to_double :
  parseInt "38685626227668133592597632" = Int (2 ^ 85) ∧
  timer_delay (parseInt "38685626227668133592597632") = 0.
Proof. by vm_compute. Qed.

(** X10: the life of an alert [initAlerts] selects, when the delay read
    off its attribute is an integer [z] of the 32-bit range.  With [D] the
    larger of 0 and [z]: [initAlerts] registers the fade-out [D] ms ahead
    and leaves the alert as it is; the alert is untouched until the
    fade-out runs; from then on its [style.opacity] is ["0"] and it is
    still attached; from 300 ms later on it is detached and out of the
    document.  Until then it is in the document, unless it sits inside
    another dismissible alert. *)
Theorem alert_lifecycle (w : Window) (i : nat) (n : Node) (z : Z) :
  timers w = [] →
  nodes w !! i = Some n →
  is_dismissible_alert (nodes w) i n = true →
  dismissTime n = Int z →
  - 2 ^ 31 ≤ z < 2 ^ 31 →
  mkTimer (now w + Z.max 0 z) (FadeOut i) ∈ timers (initAlerts w) ∧
  nodes (initAlerts w) !! i = Some n ∧
  (∀ T, T < now w + Z.max 0 z →
        nodes (run_until T (initAlerts w)) !! i = Some n) ∧
  (∀ T, now w + Z.max 0 z ≤ T < now w + Z.max 0 z + 300 →
        nodes (run_until T (initAlerts w)) !! i
          = Some {| parent := parent n; classList := classList n;
                    attributes := attributes n;
                    styleOpacity := Some "0"; attached := true |}) ∧
  (∀ T, now w + Z.max 0 z + 300 ≤ T →
        nodes (run_until T (initAlerts w)) !! i
          = Some {| parent := parent n; classList := classList n;
                    attributes := attributes n;
                    styleOpacity := Some "0"; attached := false |} ∧
        in_document (nodes (run_until T (initAlerts w))) i = false) ∧
  ((∀ a na, a ∈ ancestors (nodes w) i → nodes w !! a = Some na →
            is_dismissible_alert (nodes w) a na = false) →
   ∀ T, T < now w + Z.max 0 z + 300 →
        in_document (nodes (run_until T (initAlerts w))) i = true).
Proof.
  intros Hts Hi Hsel Hdt Hz.
  apply lifecycle_observed; [done | done | done |].
  unfold fade_delay. rewrite Hdt. by apply timer_delay_int.
Qed.

Lemma alert_lifecycle_witness :
  dismissTime (Examples.alert_node "2000") = Int 2000 ∧
  mkTimer 2000 (FadeOut 1) ∈ timers (initAlerts Examples.alerts_window) ∧
  nodes (initAlerts Examples.alerts_window) !! 1%nat
    = Some (Examples.alert_node "2000") ∧
  (∀ T, T < 2000 →
        nodes (run_until T (initAlerts Examples.alerts_window)) !! 1%nat
          = Some (Examples.alert_node "2000")) ∧
  (∀ T, 2000 ≤ T < 2300 →
        nodes (run_until T (initAlerts Examples.alerts_window)) !! 1%nat
          = Some {| parent := None; classList := ["alert"; "alert-success"];
                    attributes := {["data-dismiss" := "2000"]};
                    styleOpacity := Some "0"; attached := true |}) ∧
  (∀ T, 2300 ≤ T →
        nodes (run_until T (initAlerts Examples.alerts_window)) !! 1%nat
          = Some {| parent := None; classList := ["alert"; "alert-success"];
                    attributes := {["data-dismiss" := "2000"]};
                    styleOpacity := Some "0"; attached := false |} ∧
        in_document (nodes (run_until T (initAlerts Examples.alerts_window))) 1
          = false) ∧
  (∀ T, T < 2300 →
        in_document (nodes (run_until T (initAlerts Examples.alerts_window))) 1
          = true).
Proof.
  split; [reflexivity|].
  destruct (alert_lifecycle Examples.alerts_window 1
              (Examples.alert_node "2000") 2000)
    as (H1 & H2 & H3 & H4 & H5 & H6).
  - reflexivity.
  - reflexivity.
  - reflexivity.
  - reflexivity.
  - by vm_compute.
  - split; [exact H1|]. split; [exact H2|]. split; [exact H3|].
    split; [exact H4|]. split; [exact H5|].
    apply H6. intros a na Ha. vm_compute in Ha. by apply elem_of_nil in Ha.
Defined.

(** *** [parseInt] on decimal text *)
Ltac eval_digit :=
  repeat match goal with
  | |- context [digit_value ?c] =>
      let v := eval vm_compute in (digit_value c) in
      change (digit_value c) with v
  | |- context [is_white_space ?c] =>
      let v := eval vm_compute in (is_white_space c) in
      change (is_white_space c) with v
  end.

Lemma parse_digits_acc u acc :
  parse_digits 10 (DecimalString.NilEmpty.string_of_uint u) (Some (Z.pos acc))
  = Some (Z.pos (Pos.of_uint_acc u acc)).
Proof.
  revert acc. induction u; intros acc; [done|..];
    cbn; eval_digit; cbn; rewrite <- IHu; do 2 f_equal; lia.
Qed.

Lemma parse_digits_zero u :
  parse_digits 10 (DecimalString.NilEmpty.string_of_uint u) (Some 0)
  = Some (Z.of_N (Pos.of_uint u)).
Proof.
  induction u; [done| |..]; cbn; eval_digit; cbn;
    [exact IHu|..]; apply parse_digits_acc.
Qed.

Lemma parse_digits_first u :
  u ≠ Decimal.Nil →
  parse_digits 10 (DecimalString.NilEmpty.string_of_uint u) None
  = Some (Z.of_N (Pos.of_uint u)).
Proof.
  intros Hu. rewrite <- parse_digits_zero. by destruct u.
Qed.

Lemma parseInt_digits u :
  u ≠ Decimal.Nil →
  parseInt (DecimalString.NilEmpty.string_of_uint u)
  = to_number (Z.of_N (Pos.of_uint u)).
Proof.
  intros Hu. pose proof (parse_digits_first u Hu) as H. unfold parseInt.
  destruct u as [|u|u|u|u|u|u|u|u|u|u]; [done| |..];
    try (cbn [DecimalString.NilEmpty.string_of_uint trim_start] in *; eval_digit;
         cbn [strip_sign strip_hex_prefix]; rewrite H;
         by rewrite Z.mul_1_l).
  destruct u;
    cbn [DecimalString.NilEmpty.string_of_uint trim_start] in *; eval_digit;
    cbn [strip_sign strip_hex_prefix]; rewrite H;
    by rewrite Z.mul_1_l.
Qed.

Lemma parseInt_decimal d : parseInt (decimal d) = to_number (Z.of_N d).
Proof.
  unfold decimal. rewrite parseInt_digits.
  - do 2 f_equal. apply DecimalN.Unsigned.of_to.
  - destruct d; [done|]. apply DecimalPos.Unsigned.to_uint_nonnil.
Qed.

Lemma dismissTime_attr n v :
  attributes n !! "data-dismiss" = Some v →
  dismissTime n = number_or (parseInt v) 5000.
Proof. intros Hv. unfold dismissTime, dataset_dismiss. by rewrite Hv. Qed.

(** X11: a delay written in decimal digits is taken as written.  An alert
    whose attribute is the decimal text of [d], with 0 < d < 2^31, is left
    as it is by [initAlerts] and by the timers until [d] ms have passed;
    from [d] ms on its [style.opacity] is ["0"] and it is still attached;
    from [d + 300] ms on it is detached and out of the document.  Until
    then it is in the document, unless it sits inside another dismissible
    alert. *)
Theorem alert_decimal_delay (w : Window) (i : nat) (n : Node) (d : N) :
  timers w = [] →
  nodes w !! i = Some n →
  is_dismissible_alert (nodes w) i n = true →
  attributes n !! "data-dismiss" = Some (decimal d) →
  0 < Z.of_N d < 2 ^ 31 →
  dismissTime n = Int (Z.of_N d) ∧
  mkTimer (now w + Z.of_N d) (FadeOut i) ∈ timers (initAlerts w) ∧
  nodes (initAlerts w) !! i = Some n ∧
  (∀ T, T < now w + Z.of_N d →
        nodes (run_until T (initAlerts w)) !! i = Some n) ∧
  (∀ T, now w + Z.of_N d ≤ T < now w + Z.of_N d + 300 →
        nodes (run_until T (initAlerts w)) !! i
          = Some {| parent := parent n; classList := classList n;
                    attributes := attributes n;
                    styleOpacity := Some "0"; attached := true |}) ∧
  (∀ T, now w + Z.of_N d + 300 ≤ T →
        nodes (run_until T (initAlerts w)) !! i
          = Some {| parent := parent n; classList := classList n;
                    attributes := attributes n;
                    styleOpacity := Some "0"; attached := false |} ∧
        in_document (nodes (run_until T (initAlerts w))) i = false) ∧
  ((∀ a na, a ∈ ancestors (nodes w) i → nodes w !! a = Some na →
            is_dismissible_alert (nodes w) a na = false) →
   ∀ T, T < now w + Z.of_N d + 300 →
        in_document (nodes (run_until T (initAlerts w))) i = true).
Proof.
  intros Hts Hi Hsel Hattr Hd.
  assert (dismissTime n = Int (Z.of_N d)) as Hdt.
  { rewrite (dismissTime_attr n _ Hattr), parseInt_decimal.
    rewrite to_number_small by lia. simpl.
    destruct (Z.eqb_spec (Z.of_N d) 0); [lia | done]. }
  split; [done|].
  apply lifecycle_observed; [done | done | done |].
  unfold fade_delay. rewrite Hdt, timer_delay_int by lia. lia.
Qed.

Lemma alert_decimal_delay_witness :
  decimal 2000 = "2000" ∧
  dismissTime (Examples.alert_node "2000") = Int 2000 ∧
  mkTimer 2000 (FadeOut 1) ∈ timers (initAlerts Examples.alerts_window) ∧
  nodes (initAlerts Examples.alerts_window) !! 1%nat
    = Some (Examples.alert_node "2000") ∧
  (∀ T, T < 2000 →
        nodes (run_until T (initAlerts Examples.alerts_window)) !! 1%nat
          = Some (Examples.alert_node "2000")) ∧
  (∀ T, 2000 ≤ T < 2300 →
        nodes (run_until T (initAlerts Examples.alerts_window)) !! 1%nat
          = Some {| parent := None; classList := ["alert"; "alert-success"];
                    attributes := {["data-dismiss" := "2000"]};
                    styleOpacity := Some "0"; attached := true |}) ∧
  (∀ T, 2300 ≤ T →
        nodes (run_until T (initAlerts Examples.alerts_window)) !! 1%nat
          = Some {| parent := None; classList := ["alert"; "alert-success"];
                    attributes := {["data-dismiss" := "2000"]};
                    styleOpacity := Some "0"; attached := false |} ∧
        in_document (nodes (run_until T (initAlerts Examples.alerts_window))) 1
          = false) ∧
  (∀ T, T < 2300 →
        in_document (nodes (run_until T (initAlerts Examples.alerts_window))) 1
          = true).
Proof.
  split; [reflexivity|].
  destruct (alert_decimal_delay Examples.alerts_window 1
              (Examples.alert_node "2000") 2000)
    as (H0 & H1 & H2 & H3 & H4 & H5 & H6).
  - reflexivity.
  - reflexivity.
  - reflexivity.
  - reflexivity.
  - by vm_compute.
  - split; [exact H0|]. split; [exact H1|]. split; [exact H2|].
    split; [exact H3|]. split; [exact H4|]. split; [exact H5|].
    apply H6. intros a na Ha. vm_compute in Ha. by apply elem_of_nil in Ha.
Defined.

(** X12: a negative delay counts as none.  It is truthy, so the default
    does not replace it, and [setTimeout] takes it as zero.  [initAlerts]
    does not fade the alert itself: when it returns the alert is as it
    was, and the fade-out is in the timer queue, due at once.  It runs in
    a later task, the first turn of the event loop for it: from then on
    the [style.opacity] is ["0"], and 300 ms later the alert is detached
    and out of the document. *)
Theorem alert_negative_delay (w : Window) (i : nat) (n : Node) (v : string) (d : Z) :
  timers w = [] →
  nodes w !! i = Some n →
  is_dismissible_alert (nodes w) i n = true →
  attributes n !! "data-dismiss" = Some v →
  parseInt v = Int d →
  - 2 ^ 31 ≤ d < 0 →
  dismissTime n = Int d ∧
  mkTimer (now w) (FadeOut i) ∈ timers (initAlerts w) ∧
  nodes (initAlerts w) !! i = Some n ∧
  (∀ T, T < now w → nodes (run_until T (initAlerts w)) !! i = Some n) ∧
  (∀ T, now w ≤ T < now w + 300 →
        nodes (run_until T (initAlerts w)) !! i
          = Some {| parent := parent n; classList := classList n;
                    attributes := attributes n;
                    styleOpacity := Some "0"; attached := true |}) ∧
  (∀ T, now w + 300 ≤ T →
        nodes (run_until T (initAlerts w)) !! i
          = Some {| parent := parent n; classList := classList n;
                    attributes := attributes n;
                    styleOpacity := Some "0"; attached := false |} ∧
        in_document (nodes (run_until T (initAlerts w))) i = false) ∧
  ((∀ a na, a ∈ ancestors (nodes w) i → nodes w !! a = Some na →
            is_dismissible_alert (nodes w) a na = false) →
   ∀ T, T < now w + 300 →
        in_document (nodes (run_until T (initAlerts w))) i = true).
Proof.
  intros Hts Hi Hsel Hattr Hparse Hd.
  assert (dismissTime n = Int d) as Hdt.
  { rewrite (dismissTime_attr n _ Hattr), Hparse. simpl.
    destruct (Z.eqb_spec d 0); [lia | done]. }
  split; [done|].
  assert (fade_delay n = 0) as Hfd.
  { unfold fade_delay. rewrite Hdt, timer_delay_int by lia. lia. }
  pose proof (lifecycle_observed w i n 0 Hts Hi Hsel Hfd) as Hlife.
  rewrite Z.add_0_r in Hlife. exact Hlife.
Qed.

Lemma alert_negative_delay_witness :
  parseInt "-5" = Int (-5) ∧
  dismissTime (Examples.alert_node "-5") = Int (-5) ∧
  mkTimer 1000 (FadeOut 0) ∈ timers (initAlerts MoreExamples.hasty_window) ∧
  nodes (initAlerts MoreExamples.hasty_window) !! 0%nat
    = Some (Examples.alert_node "-5") ∧
  (∀ T, T < 1000 →
        nodes (run_until T (initAlerts MoreExamples.hasty_window)) !! 0%nat
          = Some (Examples.alert_node "-5")) ∧
  (∀ T, 1000 ≤ T < 1300 →
        nodes (run_until T (initAlerts MoreExamples.hasty_window)) !! 0%nat
          = Some {| parent := None; classList := ["alert"; "alert-success"];
                    attributes := {["data-dismiss" := "-5"]};
                    styleOpacity := Some "0"; attached := true |}) ∧
  (∀ T, 1300 ≤ T →
        nodes (run_until T (initAlerts MoreExamples.hasty_window)) !! 0%nat
          = Some {| parent := None; classList := ["alert"; "alert-success"];
                    attributes := {["data-dismiss" := "-5"]};
                    styleOpacity := Some "0"; attached := false |} ∧
        in_document (nodes (run_until T (initAlerts MoreExamples.hasty_window))) 0
          = false) ∧
  (∀ T, T < 1300 →
        in_document (nodes (run_until T (initAlerts MoreExamples.hasty_window))) 0
          = true).
Proof.
  split; [reflexivity|].
  destruct (alert_negative_delay MoreExamples.hasty_window 0
              (Examples.alert_node "-5") "-5" (-5))
    as (H0 & H1 & H2 & H3 & H4 & H5 & H6).
  - reflexivity.
  - reflexivity.
  - reflexivity.
  - reflexivity.
  - reflexivity.
  - by vm_compute.
  - split; [exact H0|]. split; [exact H1|]. split; [exact H2|].
    split; [exact H3|]. split; [exact H4|]. split; [exact H5|].
    apply H6. intros a na Ha. vm_compute in Ha. by apply elem_of_nil in Ha.
Defined.

(** X13: only the selected alerts are ever changed, and what is inside
    them goes with them.  [initAlerts] itself changes no node.  A node
    that is not a dismissible alert in the document keeps its classes,
    attributes, style and place under its parent at every later time.  It
    stays in or out of the document as it was when none of its ancestors
    is a dismissible alert; when one is, with a delay [z] of the 32-bit
    range, the node is out of the document from 300 ms after that delay
    on, removed with the alert around it. *)
Theorem alerts_frame (w : Window) (j : nat) (T : Z) :
  timers w = [] →
  (∀ n, nodes w !! j = Some n → is_dismissible_alert (nodes w) j n = false) →
  nodes (initAlerts w) = nodes w ∧
  nodes (run_until T (initAlerts w)) !! j = nodes w !! j ∧
  ((∀ a na, a ∈ ancestors (nodes w) j → nodes w !! a = Some na →
            is_dismissible_alert (nodes w) a na = false) →
   in_document (nodes (run_until T (initAlerts w))) j
     = in_document (nodes w) j) ∧
  (∀ a na z, a ∈ ancestors (nodes w) j → nodes w !! a = Some na →
             is_dismissible_alert (nodes w) a na = true →
             dismissTime na = Int z → - 2 ^ 31 ≤ z < 2 ^ 31 →
             now w + Z.max 0 z + 300 ≤ T →
             in_document (nodes (run_until T (initAlerts w))) j = false).
Proof.
  intros Hts Hj. split; [apply nodes_initAlerts|].
  split; [by apply frame_initAlerts|]. split.
  - intros Hanc. apply in_document_frame; [apply ancestors_run_until|].
    intros k Hk. apply node_attached_lookup, frame_initAlerts; [done|].
    apply elem_of_cons in Hk as [->|Hk]; [done|].
    intros na Hna. by apply (Hanc k na).
  - intros a na z Ha Hna Hsel Hdt Hz HT.
    destruct (lifecycle_initAlerts w a na Hts Hna Hsel) as (_ & _ & H3).
    unfold in_document. rewrite ancestors_run_until.
    apply (forallb_false_elem _ _ a); [apply elem_of_cons; by right|].
    unfold node_attached. rewrite (H3 T); [done|].
    unfold fade_delay. rewrite Hdt, timer_delay_int by done. lia.
Qed.

Lemma alerts_frame_witness :
  nodes (initAlerts MoreExamples.nested_window)
    = nodes MoreExamples.nested_window ∧
  nodes (run_until 10000 (initAlerts MoreExamples.nested_window)) !! 1%nat
    = Some MoreExamples.inner_text ∧
  in_document (nodes MoreExamples.nested_window) 1 = true ∧
  in_document (nodes (run_until 10000 (initAlerts MoreExamples.nested_window))) 1
    = false ∧
  in_document (nodes (run_until 10000 (initAlerts MoreExamples.nested_window))) 3
    = true.
Proof.
  assert (∀ j, (∀ n, nodes MoreExamples.nested_window !! j = Some n →
                     is_dismissible_alert (nodes MoreExamples.nested_window) j n
                       = false) →
    nodes (initAlerts MoreExamples.nested_window)
      = nodes MoreExamples.nested_window ∧
    nodes (run_until 10000 (initAlerts MoreExamples.nested_window)) !! j
      = nodes MoreExamples.nested_window !! j ∧
    ((∀ a na, a ∈ ancestors (nodes MoreExamples.nested_window) j →
              nodes MoreExamples.nested_window !! a = Some na →
              is_dismissible_alert (nodes MoreExamples.nested_window) a na = false) →
     in_document (nodes (run_until 10000 (initAlerts MoreExamples.nested_window))) j
       = in_document (nodes MoreExamples.nested_window) j) ∧
    (∀ a na z, a ∈ ancestors (nodes MoreExamples.nested_window) j →
             nodes MoreExamples.nested_window !! a = Some na →
             is_dismissible_alert (nodes MoreExamples.nested_window) a na = true →
             dismissTime na = Int z → - 2 ^ 31 ≤ z < 2 ^ 31 →
             now MoreExamples.nested_window + Z.max 0 z + 300 ≤ 10000 →
             in_document
               (nodes (run_until 10000 (initAlerts MoreExamples.nested_window))) j
               = false)) as H
    by (intros j Hj;
        apply (alerts_frame MoreExamples.nested_window j 10000); [reflexivity | exact Hj]).
  destruct (H 1%nat) as (H1 & H2 & _ & H4); [by intros n [= <-]|].
  destruct (H 3%nat) as (_ & _ & H3 & _); [by intros n [= <-]|].
  split; [exact H1|]. split; [exact H2|]. split; [reflexivity|]. split.
  - apply (H4 0%nat (Examples.alert_node "1000") 1000).
    + apply elem_of_cons; left; reflexivity.
    + reflexivity.
    + reflexivity.
    + reflexivity.
    + by vm_compute.
    + by vm_compute.
  - rewrite H3; [reflexivity|].
    intros a na Ha. vm_compute in Ha. by apply elem_of_nil in Ha.
Defined.

(** *** The queue runs dry *)
Lemma run_bounded fuel T w B :
  (∀ t, t ∈ timers w →
        match callback t with
        | FadeOut _ => due t ≤ B
        | Remove _ => due t ≤ B + 300
        end) →
  ∀ t, t ∈ timers (run fuel T w) → due t ≤ B + 300.
Proof.
  revert w. induction fuel as [|fuel IH]; intros w Hw.
  - intros t Ht. specialize (Hw t Ht). simpl in Ht.
    destruct (callback t); lia.
  - simpl. destruct (timers w) as [|t rest] eqn:Hts.
    + rewrite Hts. by intros t ?%elem_of_nil.
    + destruct (due t <=? T).
      * apply IH. intros x. rewrite timers_fire.
        pose proof (Hw t ltac:(apply elem_of_cons; by left)) as Ht.
        destruct (callback t) as [k|k].
        -- intros [->|Hx]%elem_of_insert_timer; simpl; [lia|].
           apply Hw, elem_of_cons; by right.
        -- intros Hx. apply Hw, elem_of_cons; by right.
      * rewrite Hts. intros x Hx. specialize (Hw x Hx).
        destruct (callback x); lia.
Qed.

(** X14: in the end every selected alert is gone.  Once the longest delay
    [setTimeout] can hold (2^31 - 1 ms) and the fade have passed, no timer
    is pending; every selected alert has [style.opacity] ["0"] and is
    detached; every other node keeps its classes, attributes, style and
    place under its parent; and a node is in the document exactly when it
    was before and neither it nor any of its ancestors was selected. *)
Theorem alerts_all_dismissed (w : Window) (T : Z) :
  timers w = [] →
  now w + max_delay + 300 ≤ T →
  timers (run_until T (initAlerts w)) = [] ∧
  (∀ i n, nodes w !! i = Some n →
          nodes (run_until T (initAlerts w)) !! i
            = Some (if is_dismissible_alert (nodes w) i n
                    then {| parent := parent n; classList := classList n;
                            attributes := attributes n;
                            styleOpacity := Some "0"; attached := false |}
                    else n)) ∧
  (∀ i, in_document (nodes (run_until T (initAlerts w))) i
          = in_document (nodes w) i
            && forallb (λ k, negb (selected (nodes w) k))
                       (i :: ancestors (nodes w) i)).
Proof.
  intros Hts HT.
  assert (∀ i n, nodes w !! i = Some n →
          nodes (run_until T (initAlerts w)) !! i
            = Some (if is_dismissible_alert (nodes w) i n
                    then {| parent := parent n; classList := classList n;
                            attributes := attributes n;
                            styleOpacity := Some "0"; attached := false |}
                    else n)) as Hnodes.
  { intros i n Hi. destruct (is_dismissible_alert (nodes w) i n) eqn:Hd.
    + destruct (lifecycle_initAlerts w i n Hts Hi Hd) as (_ & _ & H3).
      rewrite H3; [done|].
      pose proof (timer_delay_bounds (dismissTime n)).
      unfold fade_delay, max_delay in *. lia.
    + rewrite frame_initAlerts; [done|done|].
      intros n' Hn'. congruence. }
  split; [|split; [exact Hnodes|]].
  - destruct (timers (run_until T (initAlerts w))) as [|t rest] eqn:Hrest; [done|].
    exfalso.
    assert (t ∈ timers (run_until T (initAlerts w))) as Hin
      by (rewrite Hrest; apply elem_of_cons; by left).
    pose proof (run_complete _ T (initAlerts w) (sorted_initAlerts w Hts)
                  (le_n _) t Hin) as Hlt.
    pose proof (run_bounded (sum_list (turns <$> timers (initAlerts w))) T
                  (initAlerts w) (now w + max_delay)) as Hb.
    unfold run_until in Hin. specialize (Hb ltac:(
      intros x (k & nk & _ & _ & ->)%timers_initAlerts; [|done]; simpl;
      pose proof (timer_delay_bounds (dismissTime nk));
      unfold fade_delay, max_delay; lia) t Hin).
    lia.
  - intros i. unfold in_document at 1 2. rewrite ancestors_run_until.
    rewrite <- forallb_andb. apply forallb_ext_elem. intros k _.
    rewrite selected_spec. unfold node_attached.
    destruct (nodes w !! k) as [nk|] eqn:Hk.
    + rewrite (Hnodes k nk Hk).
      destruct (is_dismissible_alert (nodes w) k nk) eqn:Hd; simpl.
      * by rewrite andb_false_r.
      * by rewrite andb_true_r.
    + rewrite frame_initAlerts, Hk; [done | done |].
      intros n' Hn'. congruence.
Qed.

Lemma alerts_all_dismissed_witness :
  timers (run_until 3000000000 (initAlerts MoreExamples.nested_window)) = [] ∧
  nodes (run_until 3000000000 (initAlerts MoreExamples.nested_window)) !! 0%nat
    = Some {| parent := None; classList := ["alert"; "alert-success"];
              attributes := {["data-dismiss" := "1000"]};
              styleOpacity := Some "0"; attached := false |} ∧
  nodes (run_until 3000000000 (initAlerts MoreExamples.nested_window)) !! 1%nat
    = Some MoreExamples.inner_text ∧
  nodes (run_until 3000000000 (initAlerts MoreExamples.nested_window)) !! 2%nat
    = Some {| parent := Some 0%nat; classList := ["alert"];
              attributes := {["data-dismiss" := "0"]};
              styleOpacity := Some "0"; attached := false |} ∧
  nodes (run_until 3000000000 (initAlerts MoreExamples.nested_window)) !! 3%nat
    = Some Examples.plain_node ∧
  in_document (nodes (run_until 3000000000 (initAlerts MoreExamples.nested_window))) 1
    = false ∧
  in_document (nodes (run_until 3000000000 (initAlerts MoreExamples.nested_window))) 3
    = true.
Proof.
  destruct (alerts_all_dismissed MoreExamples.nested_window 3000000000)
    as (H1 & H2 & H3); [reflexivity | by vm_compute |].
  split; [exact H1|].
  split; [apply (H2 0%nat (Examples.alert_node "1000")); reflexivity|].
  split; [apply (H2 1%nat MoreExamples.inner_text); reflexivity|].
  split; [apply (H2 2%nat MoreExamples.inner_alert); reflexivity|].
  split; [apply (H2 3%nat Examples.plain_node); reflexivity|].
  split; rewrite H3; reflexivity.
Defined.

End AlertFacts.

(** ** Properties of the sidebar, the language selector, the forms and the
    confirm dialogs *)
Module MainDomFacts.
Import Js MainDom.
Local Open Scope list_scope.

(** Membership in a list that computes: one case per member. *)
Ltac members H :=
  apply list_elem_of_In in H; vm_compute in H;
  repeat match type of H with
         | _ ∨ _ => destruct H as [H|H]
         | False => destruct H
         end;
  try subst.

(** *** classList *)
Lemma elem_of_class_add x c l : x ∈ class_add c l ↔ x = c ∨ x ∈ l.
Proof.
  unfold class_add. case_bool_decide as Hc.
  - split; [by right|]. by intros [-> |?].
  - rewrite elem_of_app, list_elem_of_singleton. tauto.
Qed.

Lemma elem_of_class_remove x c l : x ∈ class_remove c l ↔ x ≠ c ∧ x ∈ l.
Proof. unfold class_remove. by rewrite list_elem_of_filter. Qed.

Lemma elem_of_class_toggle x c l :
  x ∈ class_toggle c l ↔ (x = c ∧ c ∉ l) ∨ (x ≠ c ∧ x ∈ l).
Proof.
  unfold class_toggle. case_bool_decide as Hc.
  - rewrite elem_of_class_remove. split; [by right|]. by intros [[_ ?]|?].
  - rewrite elem_of_app, list_elem_of_singleton. split.
    + intros [?| ->]; [|by left]. right. split; [|done]. by intros ->.
    + intros [[-> _]|[_ ?]]; [by right | by left].
Qed.

Lemma class_toggle_twice x c l :
  x ∈ class_toggle c (class_toggle c l) ↔ x ∈ l.
Proof.
  rewrite !elem_of_class_toggle. destruct (decide (x = c)) as [-> |Hne].
  - destruct (decide (c ∈ l)); tauto.
  - tauto.
Qed.

Lemma class_add_idem c l : class_add c (class_add c l) = class_add c l.
Proof.
  unfold class_add at 1. rewrite bool_decide_eq_true_2; [done|].
  apply elem_of_class_add. by left.
Qed.

Lemma class_remove_id c l : c ∉ l → class_remove c l = l.
Proof.
  intros Hc. unfold class_remove. induction l as [|y l IH]; [done|].
  rewrite filter_cons_True; [f_equal; apply IH|].
  - intros ?. apply Hc. apply elem_of_cons; by right.
  - intros ->. apply Hc. apply elem_of_cons; by left.
Qed.

Lemma class_remove_idem c l : class_remove c (class_remove c l) = class_remove c l.
Proof. apply class_remove_id. rewrite elem_of_class_remove. tauto. Qed.

(** *** trim *)

Lemma trim_end_empty s : trim_end s = "" ↔ all_white_space s = true.
Proof.
  induction s as [|c s IH]; simpl; [done|].
  destruct (trim_end s) eqn:Hr.
  - destruct (Main.is_white_space c); simpl; [by apply IH|].
    split; intros; discriminate.
  - split; [discriminate|]. rewrite andb_true_iff. intros [_ H].
    apply IH in H. discriminate.
Qed.

Lemma trim_start_all_white_space s :
  all_white_space (Main.trim_start s) = all_white_space s.
Proof.
  induction s as [|c s IH]; simpl; [done|].
  destruct (Main.is_white_space c) eqn:Hc; simpl; [done | by rewrite Hc].
Qed.

Lemma trim_empty s : trim s = "" ↔ all_white_space s = true.
Proof. unfold trim. by rewrite trim_end_empty, trim_start_all_white_space. Qed.

(** *** Folding updates over positions *)
Lemma foldl_alter_lookup (g : nat → Elem → Elem) (ids : list nat) (es : list Elem) (j : nat) :
  (∀ i e, g i (g i e) = g i e) →
  foldl (λ acc i, alter (g i) i acc) es ids !! j
  = (if bool_decide (j ∈ ids) then g j else id) <$> es !! j.
Proof.
  intros Hg. revert es. induction ids as [|i ids IH]; intros es; simpl.
  - by destruct (es !! j).
  - rewrite IH. destruct (decide (j = i)) as [-> |Hne].
    + rewrite list_lookup_alter_eq.
      rewrite (bool_decide_eq_true_2 (i ∈ i :: ids)) by (apply elem_of_cons; by left).
      destruct (es !! i) as [e|]; simpl; [|done].
      case_bool_decide; simpl; [by rewrite Hg | done].
    + rewrite list_lookup_alter_ne by done.
      destruct (es !! j) as [e|]; simpl; [|done].
      f_equal. repeat case_bool_decide; try done.
      * exfalso. apply H0. apply elem_of_cons; by right.
      * apply elem_of_cons in H0 as [?|?]; done.
Qed.

Lemma with_classes_idem f e :
  (∀ l, f (f l) = f l) → with_classes f (with_classes f e) = with_classes f e.
Proof. intros Hf. unfold with_classes; simpl. by rewrite Hf. Qed.

(** *** Form validation *)

Lemma mark_idem es0 f e : mark es0 f (mark es0 f e) = mark es0 f e.
Proof.
  unfold mark. apply with_classes_idem. intros l.
  destruct (field_blank es0 f); [apply class_add_idem | apply class_remove_idem].
Qed.

Lemma value_alter_classes g (f : nat) (es : list Elem) (j : nat) :
  alter (with_classes g) f es !! j ≫= value = es !! j ≫= value.
Proof.
  destruct (decide (f = j)) as [-> |Hne].
  - rewrite list_lookup_alter_eq. by destruct (es !! j).
  - by rewrite list_lookup_alter_ne.
Qed.

Lemma field_blank_alter g (f : nat) (es : list Elem) (j : nat) :
  field_blank (alter (with_classes g) f es) j = field_blank es j.
Proof. unfold field_blank. by rewrite value_alter_classes. Qed.

Lemma validate_fields_closed fields es0 es b :
  (∀ j, field_blank es j = field_blank es0 j) →
  (∀ j, es !! j ≫= value = es0 !! j ≫= value) →
  (∀ f, f ∈ fields → is_Some (es0 !! f ≫= value)) →
  validate_fields fields es b =
    (foldl (λ acc f, alter (mark es0 f) f acc) es fields,
     Some (b && forallb (λ f, negb (field_blank es0 f)) fields)).
Proof.
  revert es b. induction fields as [|f fields IH]; intros es b Hb Hv Hall; simpl.
  - by rewrite andb_true_r.
  - destruct (Hall f ltac:(apply elem_of_cons; by left)) as [v Hf].
    rewrite Hv, Hf.
    assert (field_blank es0 f = bool_decide (trim v = "")) as Hfb
      by (unfold field_blank; by rewrite Hf).
    unfold mark at 2. rewrite Hfb.
    case_bool_decide; simpl; rewrite IH.
    + by rewrite andb_false_r.
    + intros j. by rewrite field_blank_alter.
    + intros j. by rewrite value_alter_classes.
    + intros g Hg. apply Hall. apply elem_of_cons; by right.
    + done.
    + intros j. by rewrite field_blank_alter.
    + intros j. by rewrite value_alter_classes.
    + intros g Hg. apply Hall. apply elem_of_cons; by right.
Qed.

Lemma validate_fields_lookup fields es b j :
  (∀ f, f ∈ fields → is_Some (es !! f ≫= value)) →
  (validate_fields fields es b).1 !! j
  = (if bool_decide (j ∈ fields) then mark es j else id) <$> es !! j.
Proof.
  intros Hall. rewrite (validate_fields_closed fields es es b) by done. simpl.
  apply (foldl_alter_lookup (mark es)). intros i e. apply mark_idem.
Qed.

Lemma validate_fields_valid fields es b :
  (∀ f, f ∈ fields → is_Some (es !! f ≫= value)) →
  (validate_fields fields es b).2
  = Some (b && forallb (λ f, negb (field_blank es f)) fields).
Proof. intros Hall. by rewrite (validate_fields_closed fields es es b). Qed.

(** *** Selectors *)
Lemma elem_of_find_all P (k : nat) (es : list Elem) (j : nat) :
  j ∈ find_all P k es ↔
  ∃ e, (k ≤ j)%nat ∧ es !! (j - k)%nat = Some e ∧ P j e = true.
Proof.
  revert k. induction es as [|e es IH]; intros k; simpl.
  - split; [by intros ?%elem_of_nil | by intros (? & _ & ? & _)].
  - assert (j ∈ find_all P (S k) es ↔
            ∃ e', (k ≤ j)%nat ∧ j ≠ k ∧ es !! (j - S k)%nat = Some e' ∧
                  P j e' = true) as Htail.
    { rewrite IH. split.
      - intros (e' & ? & ? & ?). exists e'. repeat split; [lia|lia|done|done].
      - intros (e' & ? & ? & ? & ?). exists e'. repeat split; [lia|done|done]. }
    destruct (P k e) eqn:Hc; [rewrite elem_of_cons|]; rewrite Htail; split.
    + intros [-> |(e' & ? & ? & He' & ?)].
      * exists e. rewrite Nat.sub_diag. done.
      * exists e'. split; [done|]. split; [|done].
        replace (j - k)%nat with (S (j - S k)) by lia. done.
    + intros (e' & Hk & He' & Hc'). destruct (decide (j = k)) as [-> |Hne]; [by left|].
      right. exists e'. repeat split; [done|done| |done].
      replace (j - k)%nat with (S (j - S k)) in He' by lia. done.
    + intros (e' & ? & ? & He' & ?). exists e'. split; [done|]. split; [|done].
      replace (j - k)%nat with (S (j - S k)) by lia. done.
    + intros (e' & Hk & He' & Hc'). destruct (decide (j = k)) as [-> |Hne].
      * rewrite Nat.sub_diag in He'. simpl in He'. congruence.
      * exists e'. repeat split; [done|done| |done].
        replace (j - k)%nat with (S (j - S k)) in He' by lia. done.
Qed.

Lemma elem_of_querySelectorAll P (es : list Elem) (j : nat) :
  j ∈ querySelectorAll P es ↔ ∃ e, es !! j = Some e ∧ P j e = true.
Proof.
  unfold querySelectorAll. rewrite elem_of_find_all. split.
  - intros (e & _ & He & HP). rewrite Nat.sub_0_r in He. by exists e.
  - intros (e & He & HP). exists e. rewrite Nat.sub_0_r. split; [lia|done].
Qed.

Lemma querySelector_Some P (es : list Elem) (j : nat) :
  querySelector P es = Some j → ∃ e, es !! j = Some e ∧ P j e = true.
Proof.
  unfold querySelector. intros Hh. apply elem_of_querySelectorAll.
  destruct (querySelectorAll P es) as [|x l]; [done|].
  injection Hh as ->. apply elem_of_cons; by left.
Qed.

Lemma NoDup_find_all P (k : nat) (es : list Elem) : NoDup (find_all P k es).
Proof.
  revert k. induction es as [|e es IH]; intros k; simpl; [constructor|].
  destruct (P k e); [|apply IH]. constructor; [|apply IH].
  intros (e' & Hk & _)%elem_of_find_all. lia.
Qed.

(** *** What [init] registers *)
Lemma handlers_on_app regs1 regs2 t ty :
  handlers_on (regs1 ++ regs2) t ty
  = handlers_on regs1 t ty ++ handlers_on regs2 t ty.
Proof. unfold handlers_on. by rewrite filter_app, fmap_app. Qed.

Lemma handlers_on_nil t ty : handlers_on [] t ty = [].
Proof. done. Qed.

Lemma handlers_on_cons r regs t ty :
  handlers_on (r :: regs) t ty
  = (if decide (reg_target r = t ∧ reg_type r = ty) then [reg_handler r] else [])
      ++ handlers_on regs t ty.
Proof. unfold handlers_on. rewrite filter_cons. by case_decide. Qed.

Lemma handlers_on_none regs t ty :
  (∀ r, r ∈ regs → ¬ (reg_target r = t ∧ reg_type r = ty)) →
  handlers_on regs t ty = [].
Proof.
  induction regs as [|r regs IH]; intros Hno; [done|].
  rewrite handlers_on_cons, decide_False, IH; [done| |].
  - intros x Hx. apply Hno. apply elem_of_cons; by right.
  - apply Hno. apply elem_of_cons; by left.
Qed.

Lemma initSidebar_eq d :
  initSidebar d = mkDoc (elems d) (listeners d ++ sidebar_regs (elems d)).
Proof.
  unfold initSidebar, sidebar_regs, addEventListener.
  destruct (querySelector _ (elems d)) as [t|];
    [|destruct d; simpl; by rewrite app_nil_r].
  destruct (querySelector (λ _, has_class "sidebar") (elems d)) as [s|];
    [|destruct d; simpl; by rewrite app_nil_r].
  destruct (querySelector (λ _, has_class "sidebar-overlay") (elems d)) as [o|];
    simpl; [by rewrite <- app_assoc | done].
Qed.

Lemma foldl_addEventListener {A} (t : A → option nat) ty (h : A → Handler) xs d :
  foldl (λ q x, addEventListener (t x) ty (h x) q) d xs
  = mkDoc (elems d) (listeners d ++ ((λ x, mkReg (t x) ty (h x)) <$> xs)).
Proof.
  revert d. induction xs as [|x xs IH]; intros d; simpl.
  - destruct d; simpl. by rewrite app_nil_r.
  - rewrite IH. unfold addEventListener; simpl. by rewrite <- app_assoc.
Qed.

Lemma initForms_eq d :
  initForms d = mkDoc (elems d) (listeners d ++ form_regs (elems d)).
Proof. unfold initForms. apply (foldl_addEventListener Some). Qed.

Lemma initConfirmDialogs_eq d :
  initConfirmDialogs d = mkDoc (elems d) (listeners d ++ confirm_regs (elems d)).
Proof. unfold initConfirmDialogs. apply (foldl_addEventListener Some). Qed.

Lemma initLanguageSelector_eq d :
  initLanguageSelector d =
    mkDoc (elems d)
      (listeners d ++ lang_regs (elems d) ++
       [mkReg None Click
          (LangCloseAll (querySelectorAll (λ _, has_class "lang-selector") (elems d)))]).
Proof.
  unfold initLanguageSelector, lang_regs.
  set (sels := querySelectorAll (λ _, has_class "lang-selector") (elems d)).
  assert (∀ xs q,
    foldl (λ q selector,
             match lang_button (elems q) selector with
             | Some btn => addEventListener (Some btn) Click (LangToggle selector) q
             | None => q
             end) q xs
    = mkDoc (elems q)
        (listeners q ++
         omap (λ sel, (λ btn, mkReg (Some btn) Click (LangToggle sel))
                        <$> lang_button (elems q) sel) xs)) as Hfold.
  { induction xs as [|x xs IH]; intros q; simpl.
    - destruct q; simpl. by rewrite app_nil_r.
    - destruct (lang_button (elems q) x) as [btn|]; simpl.
      + rewrite IH. simpl. by rewrite <- app_assoc.
      + apply IH. }
  rewrite Hfold. unfold addEventListener; simpl. by rewrite <- app_assoc.
Qed.

Lemma listeners_init d w :
  listeners d = [] →
  elems (init (d, w)).1 = elems d ∧
  listeners (init (d, w)).1 =
    sidebar_regs (elems d) ++ lang_regs (elems d) ++
    [mkReg None Click
       (LangCloseAll (querySelectorAll (λ _, has_class "lang-selector") (elems d)))] ++
    form_regs (elems d) ++ confirm_regs (elems d).
Proof.
  intros Hl. unfold init; simpl.
  rewrite initConfirmDialogs_eq, initForms_eq, initLanguageSelector_eq, initSidebar_eq.
  simpl. rewrite Hl. simpl. split; [done|]. by rewrite <- !app_assoc.
Qed.

(** *** The listeners of one target *)
Lemma handlers_on_targets {A} (t : A → option nat) ty (h : A → Handler)
    (xs : list A) (tgt : option nat) ty' :
  (∀ x, x ∈ xs → t x ≠ tgt) ∨ ty ≠ ty' →
  handlers_on ((λ x, mkReg (t x) ty (h x)) <$> xs) tgt ty' = [].
Proof.
  intros Hno. apply handlers_on_none.
  intros r (x & -> & Hx)%list_elem_of_fmap [Ht Hty]; simpl in *.
  destruct Hno as [Hno|Hno]; [by apply (Hno x) | done].
Qed.

Lemma handlers_on_positions ty (h : nat → Handler) (xs : list nat) (j : nat) :
  NoDup xs →
  handlers_on ((λ x, mkReg (Some x) ty (h x)) <$> xs) (Some j) ty
  = if bool_decide (j ∈ xs) then [h j] else [].
Proof.
  induction 1 as [|x xs Hx Hnd IH]; [done|].
  rewrite fmap_cons, handlers_on_cons, IH. simpl.
  destruct (decide (x = j)) as [-> |Hne].
  - rewrite decide_True by done.
    rewrite (bool_decide_eq_false_2 _ Hx).
    rewrite bool_decide_eq_true_2; [done | apply elem_of_cons; by left].
  - rewrite decide_False by (intros [[=] _]; done). simpl.
    rewrite (bool_decide_ext (j ∈ x :: xs) (j ∈ xs)); [done|].
    rewrite elem_of_cons. split; [by intros [?|?] | by right].
Qed.

Lemma sidebar_regs_click es r : r ∈ sidebar_regs es → reg_type r = Click.
Proof.
  unfold sidebar_regs.
  destruct (querySelector _ es); [|by intros ?%elem_of_nil].
  destruct (querySelector (λ _, has_class "sidebar") es); [|by intros ?%elem_of_nil].
  destruct (querySelector (λ _, has_class "sidebar-overlay") es).
  - by intros [-> |[-> |?%elem_of_nil]%elem_of_cons]%elem_of_cons.
  - by intros [-> |?%elem_of_nil]%elem_of_cons.
Qed.

Lemma elem_of_lang_regs es r :
  r ∈ lang_regs es ↔
  ∃ sel btn, sel ∈ querySelectorAll (λ _, has_class "lang-selector") es ∧
             lang_button es sel = Some btn ∧
             r = mkReg (Some btn) Click (LangToggle sel).
Proof.
  unfold lang_regs. rewrite list_elem_of_omap. split.
  - intros (sel & Hsel & Hr). destruct (lang_button es sel) as [btn|] eqn:Hb; [|done].
    injection Hr as <-. by exists sel, btn.
  - intros (sel & btn & Hsel & Hb & ->). exists sel. by rewrite Hb.
Qed.

Lemma submit_handlers_init d w tgt :
  listeners d = [] →
  handlers_on (listeners (init (d, w)).1) tgt Submit
  = match tgt with
    | Some j =>
        if bool_decide (j ∈ querySelectorAll (λ _, is_validated_form) (elems d))
        then [ValidateForm j] else []
    | None => []
    end.
Proof.
  intros Hl. destruct (listeners_init d w Hl) as [_ ->].
  rewrite !handlers_on_app.
  rewrite (handlers_on_none (sidebar_regs _))
    by (intros r Hr [_ Hty]; apply sidebar_regs_click in Hr; congruence).
  rewrite (handlers_on_none (lang_regs _))
    by (intros r (? & ? & _ & _ & ->)%elem_of_lang_regs [_ Hty]; done).
  rewrite (handlers_on_none [_]) by (by intros r ->%list_elem_of_singleton [_ Hty]).
  unfold confirm_regs. rewrite (handlers_on_targets Some Click) by (by right).
  simpl. rewrite app_nil_r. unfold form_regs. destruct tgt as [j|].
  - apply handlers_on_positions, NoDup_find_all.
  - apply (handlers_on_targets Some Submit). by left.
Qed.

(** *** The way of an event *)
Lemma dispatch_eq user ty (t : nat) d :
  dispatch user ty t d =
    let st := foldl (visit user (listeners d) ty) (elems d, fresh_event)
                ((Some <$> t :: ancestors (elems d) t) ++ [None]) in
    (mkDoc st.1 (listeners d), st.2).
Proof. unfold dispatch. by destruct (foldl _ _ _). Qed.

Lemma visit_nil user regs ty st tgt :
  handlers_on regs tgt ty = [] → visit user regs ty st tgt = st.
Proof. intros Hh. unfold visit. rewrite Hh. by destruct (stopped st.2). Qed.

Lemma foldl_visit_nil user regs ty st tgts :
  (∀ tgt, tgt ∈ tgts → handlers_on regs tgt ty = []) →
  foldl (visit user regs ty) st tgts = st.
Proof.
  revert st. induction tgts as [|tgt tgts IH]; intros st Hall; [done|].
  simpl. rewrite visit_nil by (apply Hall, elem_of_cons; by left).
  apply IH. intros x Hx. apply Hall, elem_of_cons; by right.
Qed.

Lemma foldl_visit_stopped user regs ty st tgts :
  stopped st.2 = true → foldl (visit user regs ty) st tgts = st.
Proof.
  intros Hs. induction tgts as [|tgt tgts IH]; [done|].
  simpl. unfold visit at 2. by rewrite Hs.
Qed.

Lemma submit_init_eq user d w (f : nat) e :
  listeners d = [] →
  elems d !! f = Some e →
  is_validated_form e = true →
  (∀ a ea, a ∈ ancestors (elems d) f → elems d !! a = Some ea →
           is_validated_form ea = false) →
  submit user f (init (d, w)).1 =
    let st := run_handler user (ValidateForm f) (elems d, fresh_event) in
    (mkDoc st.1 (listeners (init (d, w)).1), st.2).
Proof.
  intros Hl He Hf Hanc. unfold submit. rewrite dispatch_eq.
  destruct (listeners_init d w Hl) as [Hes _]. rewrite Hes.
  assert (foldl (visit user (listeners (init (d, w)).1) Submit)
            (elems d, fresh_event)
            ((Some <$> f :: ancestors (elems d) f) ++ [None])
          = run_handler user (ValidateForm f) (elems d, fresh_event)) as ->;
    [|done].
  rewrite fmap_cons. cbn [foldl app].
  unfold visit at 2. cbn [fresh_event stopped snd].
  rewrite submit_handlers_init by done.
  rewrite bool_decide_eq_true_2
    by (apply elem_of_querySelectorAll; by exists e).
  cbn [run_handlers foldl].
  apply foldl_visit_nil.
  intros tgt [(a & -> & Ha)%list_elem_of_fmap| ->%list_elem_of_singleton]%elem_of_app;
    rewrite submit_handlers_init by done; [|done].
  rewrite bool_decide_eq_false_2; [done|].
  intros (ea & Hea & Hv)%elem_of_querySelectorAll.
  specialize (Hanc a ea Ha Hea). congruence.
Qed.

Lemma validate_fields_throws fields es b :
  (∃ g, g ∈ fields ∧ es !! g ≫= value = None) →
  (validate_fields fields es b).2 = None.
Proof.
  revert es b. induction fields as [|f fields IH]; intros es b (g & Hg & Hv).
  - by apply elem_of_nil in Hg.
  - simpl. destruct (es !! f ≫= value) as [v|] eqn:Hf; [|done].
    assert (g ∈ fields) as Hg'.
    { apply elem_of_cons in Hg as [-> |?]; [congruence | done]. }
    case_bool_decide; apply IH; exists g; by rewrite value_alter_classes.
Qed.

Lemma forallb_false_iff {A} (p : A → bool) (l : list A) :
  forallb p l = false ↔ ∃ x, x ∈ l ∧ p x = false.
Proof.
  induction l as [|a l IH]; simpl.
  - split; [done | by intros (? & ?%elem_of_nil & _)].
  - rewrite andb_false_iff, IH. split.
    + intros [?|(x & ? & ?)]; [exists a | exists x]; split; try done;
        apply elem_of_cons; auto.
    + intros (x & [-> |?]%elem_of_cons & ?); [by left | right; by exists x].
Qed.

Lemma field_blank_true es g :
  field_blank es g = true ↔
  ∃ v, es !! g ≫= value = Some v ∧ all_white_space v = true.
Proof.
  unfold field_blank. destruct (es !! g ≫= value) as [v|].
  - rewrite bool_decide_eq_true, trim_empty. split; [by exists v|].
    by intros (? & [= <-] & ?).
  - split; [done | by intros (? & ? & _)].
Qed.

(** X15: a submit event on a validated form is cancelled exactly when one
    of the form's [required] descendants has a value of white space only
    (or empty); the required descendants being form controls. *)
Theorem submit_blocked_iff_blank user (d : Doc) (w : Main.Window) (f : nat) (e : Elem) :
  listeners d = [] →
  elems d !! f = Some e →
  is_validated_form e = true →
  (∀ a ea, a ∈ ancestors (elems d) f → elems d !! a = Some ea →
           is_validated_form ea = false) →
  (∀ g, g ∈ required_fields (elems d) f → is_Some (elems d !! g ≫= value)) →
  defaultPrevented (submit user f (init (d, w)).1).2 = true ↔
  ∃ g v, g ∈ required_fields (elems d) f ∧
         elems d !! g ≫= value = Some v ∧ all_white_space v = true.
Proof.
  intros Hl He Hf Hanc Hval.
  rewrite (submit_init_eq user d w f e) by done. cbn [snd run_handler].
  rewrite (validate_fields_closed _ (elems d) (elems d) true) by done.
  cbn [andb]. destruct (forallb _ _) eqn:Hall; cbn [defaultPrevented fresh_event set_prevented].
  - split; [done|]. intros (g & v & Hg & Hv & Hws).
    rewrite forallb_forall in Hall. apply list_elem_of_In in Hg.
    specialize (Hall g Hg). apply negb_true_iff in Hall.
    assert (field_blank (elems d) g = true) by (apply field_blank_true; eauto).
    congruence.
  - split; [|done]. intros _.
    apply forallb_false_iff in Hall as (g & Hg & Hb).
    apply negb_false_iff, field_blank_true in Hb as (v & Hv & Hws).
    by exists g, v.
Qed.

Lemma submit_blocked_iff_blank_witness :
  required_fields (elems MoreExamples.sample_doc) 8 = [9; 10]%nat ∧
  (defaultPrevented (submit MoreExamples.no 8 (init (MoreExamples.sample_doc, Examples.alerts_window)).1).2 = true ↔
   ∃ g v, g ∈ required_fields (elems MoreExamples.sample_doc) 8 ∧
          elems MoreExamples.sample_doc !! g ≫= value = Some v ∧ all_white_space v = true).
Proof.
  split; [reflexivity|].
  apply (submit_blocked_iff_blank MoreExamples.no MoreExamples.sample_doc Examples.alerts_window 8
           (MoreExamples.el "form" (Some 0%nat) [] [("data-validate", "")] None)).
  - reflexivity.
  - reflexivity.
  - reflexivity.
  - intros a ea Ha. members Ha. intros [= <-]. reflexivity.
  - intros g Hg. members Hg; by eexists.
Defined.

(** X16: where validation leaves the [error] class.  After the submit
    event each [required] descendant of the form has [error] added when its
    value is blank and removed when it is not; every other element is
    unchanged. *)
Theorem submit_marks_blank_fields user (d : Doc) (w : Main.Window) (f : nat) (e : Elem)
    (j : nat) (ej : Elem) :
  listeners d = [] →
  elems d !! f = Some e →
  is_validated_form e = true →
  (∀ a ea, a ∈ ancestors (elems d) f → elems d !! a = Some ea →
           is_validated_form ea = false) →
  (∀ g, g ∈ required_fields (elems d) f → is_Some (elems d !! g ≫= value)) →
  elems d !! j = Some ej →
  elems (submit user f (init (d, w)).1).1 !! j =
    Some (if bool_decide (j ∈ required_fields (elems d) f)
          then with_classes
                 (if field_blank (elems d) j
                  then class_add "error" else class_remove "error") ej
          else ej).
Proof.
  intros Hl He Hf Hanc Hval Hj.
  rewrite (submit_init_eq user d w f e) by done. cbn [fst run_handler elems].
  pose proof (validate_fields_lookup (required_fields (elems d) f) (elems d)
                true j Hval) as Hlook.
  destruct (validate_fields _ _ _) as [es' [b|]]; cbn [fst] in *;
    rewrite Hlook, Hj; simpl; by case_bool_decide.
Qed.

Lemma submit_marks_blank_fields_witness :
  field_blank (elems MoreExamples.sample_doc) 9 = false ∧
  elems (submit MoreExamples.no 8 (init (MoreExamples.sample_doc, Examples.alerts_window)).1).1 !! 9%nat =
    Some (if bool_decide (9%nat ∈ required_fields (elems MoreExamples.sample_doc) 8)
          then with_classes
                 (if field_blank (elems MoreExamples.sample_doc) 9
                  then class_add "error" else class_remove "error")
                 (MoreExamples.el "input" (Some 8%nat) [] [("required", "")] (Some "Ada"))
          else MoreExamples.el "input" (Some 8%nat) [] [("required", "")] (Some "Ada")).
Proof.
  split; [reflexivity|].
  apply (submit_marks_blank_fields MoreExamples.no MoreExamples.sample_doc Examples.alerts_window 8
           (MoreExamples.el "form" (Some 0%nat) [] [("data-validate", "")] None)).
  - reflexivity.
  - reflexivity.
  - reflexivity.
  - intros a ea Ha. members Ha. intros [= <-]. reflexivity.
  - intros g Hg. members Hg; by eexists.
  - reflexivity.
Defined.

(** X17: a [required] descendant with no [value] property ends the
    validation in an exception: the submit event is not cancelled, blank
    fields or not. *)
Theorem submit_required_without_value user (d : Doc) (w : Main.Window) (f : nat)
    (e : Elem) (g : nat) :
  listeners d = [] →
  elems d !! f = Some e →
  is_validated_form e = true →
  (∀ a ea, a ∈ ancestors (elems d) f → elems d !! a = Some ea →
           is_validated_form ea = false) →
  g ∈ required_fields (elems d) f →
  elems d !! g ≫= value = None →
  defaultPrevented (submit user f (init (d, w)).1).2 = false ∧
  uncaught (submit user f (init (d, w)).1).2 = 1.
Proof.
  intros Hl He Hf Hanc Hg Hv.
  rewrite (submit_init_eq user d w f e) by done. cbn [snd run_handler].
  pose proof (validate_fields_throws (required_fields (elems d) f) (elems d) true
                ltac:(by exists g)) as Hthrow.
  destruct (validate_fields _ _ _) as [es' [b|]]; [done|]. done.
Qed.

Lemma submit_required_without_value_witness :
  field_blank (elems MoreExamples.broken_form_doc) 1 = true ∧
  defaultPrevented (submit MoreExamples.no 0 (init (MoreExamples.broken_form_doc, Examples.alerts_window)).1).2 = false ∧
  uncaught (submit MoreExamples.no 0 (init (MoreExamples.broken_form_doc, Examples.alerts_window)).1).2 = 1%nat.
Proof.
  split; [reflexivity|].
  apply (submit_required_without_value MoreExamples.no MoreExamples.broken_form_doc Examples.alerts_window 0
           (MoreExamples.el "form" None [] [("data-validate", "")] None) 2).
  - reflexivity.
  - reflexivity.
  - reflexivity.
  - intros a ea Ha. members Ha.
  - apply list_elem_of_In. vm_compute. auto.
  - reflexivity.
Defined.

(** *** Click listeners after [init] *)

Lemma elem_of_handlers_on regs tgt ty h :
  h ∈ handlers_on regs tgt ty ↔
  ∃ r, r ∈ regs ∧ reg_target r = tgt ∧ reg_type r = ty ∧ reg_handler r = h.
Proof.
  unfold handlers_on. rewrite list_elem_of_fmap. split.
  - intros (r & -> & (Hr & Ht)%list_elem_of_filter). exists r. tauto.
  - intros (r & Hr & Ht & Hty & <-). exists r. split; [done|].
    apply list_elem_of_filter. tauto.
Qed.

Lemma sidebar_regs_target es r :
  r ∈ sidebar_regs es →
  ∃ t e, reg_target r = Some t ∧ es !! t = Some e ∧
         (has_class "sidebar-toggle" e = true ∨ has_class "sidebar-overlay" e = true) ∧
         ∀ sel, reg_handler r ≠ LangToggle sel.
Proof.
  unfold sidebar_regs.
  destruct (querySelector (λ _, has_class "sidebar-toggle") es) as [t|] eqn:Ht;
    [|by intros ?%elem_of_nil].
  destruct (querySelector (λ _, has_class "sidebar") es) as [s|];
    [|by intros ?%elem_of_nil].
  apply querySelector_Some in Ht as (et & Het & Hct).
  destruct (querySelector (λ _, has_class "sidebar-overlay") es) as [o|] eqn:Ho.
  - apply querySelector_Some in Ho as (eo & Heo & Hco).
    intros [-> |[-> |?%elem_of_nil]%elem_of_cons]%elem_of_cons; [| |done].
    + exists t, et. simpl. split; [done|]. split; [done|]. split; [by left|done].
    + exists o, eo. simpl. split; [done|]. split; [done|]. split; [by right|done].
  - intros [-> |?%elem_of_nil]%elem_of_cons; [|done].
    exists t, et. simpl. split; [done|]. split; [done|]. split; [by left|done].
Qed.

Lemma lang_button_class es sel btn :
  lang_button es sel = Some btn →
  ∃ e, es !! btn = Some e ∧ has_class "lang-btn" e = true.
Proof.
  intros (e & He & HP)%querySelector_Some. exists e. split; [done|].
  by apply andb_true_iff in HP as [_ ?].
Qed.

Lemma click_handlers_init d w (j : nat) :
  listeners d = [] →
  handlers_on (listeners (init (d, w)).1) (Some j) Click
  = handlers_on (sidebar_regs (elems d)) (Some j) Click ++
    handlers_on (lang_regs (elems d)) (Some j) Click ++
    (if has_confirm (elems d) j then [ConfirmClick j] else []).
Proof.
  intros Hl. destruct (listeners_init d w Hl) as [_ ->].
  rewrite !handlers_on_app.
  rewrite (handlers_on_none [_]) by (by intros r ->%list_elem_of_singleton [Ht _]).
  unfold form_regs. rewrite (handlers_on_targets Some Submit) by (by right).
  unfold confirm_regs. rewrite handlers_on_positions by apply NoDup_find_all.
  done.
Qed.

Lemma doc_handlers_init d w :
  listeners d = [] →
  handlers_on (listeners (init (d, w)).1) None Click
  = [LangCloseAll (lang_selectors (elems d))].
Proof.
  intros Hl. destruct (listeners_init d w Hl) as [_ ->].
  rewrite !handlers_on_app.
  rewrite (handlers_on_none (sidebar_regs _))
    by (intros r (? & ? & Ht & _)%sidebar_regs_target [Ht' _]; congruence).
  rewrite (handlers_on_none (lang_regs _))
    by (intros r (? & ? & _ & _ & ->)%elem_of_lang_regs [Ht' _]; done).
  unfold form_regs. rewrite (handlers_on_targets Some Submit) by (by right).
  unfold confirm_regs. rewrite (handlers_on_targets Some Click) by (by left).
  done.
Qed.

Lemma click_handlers_unwired d w (j : nat) :
  listeners d = [] →
  unwired (elems d) j →
  handlers_on (listeners (init (d, w)).1) (Some j) Click
  = if has_confirm (elems d) j then [ConfirmClick j] else [].
Proof.
  intros Hl Hu. rewrite click_handlers_init by done.
  rewrite (handlers_on_none (sidebar_regs _)).
  - rewrite (handlers_on_none (lang_regs _)); [done|].
    intros r (sel & btn & _ & Hb & ->)%elem_of_lang_regs [[= ->] _].
    apply lang_button_class in Hb as (e & He & Hc).
    destruct (Hu e He) as (_ & _ & ?). congruence.
  - intros r (t & e & Ht & He & Hc & _)%sidebar_regs_target [Ht' _].
    rewrite Ht in Ht'. injection Ht' as ->.
    destruct (Hu e He) as (? & ? & _). destruct Hc; congruence.
Qed.

(** *** Listeners and the event's flags *)
Lemma run_handler_stopped user h st :
  (∀ sel, h ≠ LangToggle sel) →
  stopped (run_handler user h st).2 = stopped st.2.
Proof.
  intros Hh. destruct st as [es ev].
  destruct h as [s o|s o|sel|sels|f|x]; simpl.
  - by destruct o.
  - done.
  - by destruct (Hh sel).
  - done.
  - by destruct (validate_fields _ _ _) as [? [[]|]].
  - by destruct (user _).
Qed.

Lemma run_handlers_stopped user hs st :
  (∀ h sel, h ∈ hs → h ≠ LangToggle sel) →
  stopped (run_handlers user hs st).2 = stopped st.2.
Proof.
  unfold run_handlers. revert st. induction hs as [|h hs IH]; intros st Hall; [done|].
  simpl. rewrite IH.
  - apply run_handler_stopped. intros sel. apply Hall, elem_of_cons; by left.
  - intros h' sel Hh'. apply Hall, elem_of_cons; by right.
Qed.

Lemma foldl_visit_not_stopped user regs ty tgts st :
  (∀ tgt h sel, tgt ∈ tgts → h ∈ handlers_on regs tgt ty → h ≠ LangToggle sel) →
  stopped st.2 = false →
  stopped (foldl (visit user regs ty) st tgts).2 = false.
Proof.
  revert st. induction tgts as [|tgt tgts IH]; intros st Hall Hs; [done|].
  simpl. apply IH.
  - intros tgt' h sel Ht. apply Hall, elem_of_cons; by right.
  - unfold visit. rewrite Hs. rewrite run_handlers_stopped; [done|].
    intros h sel Hh. apply (Hall tgt); [apply elem_of_cons; by left | done].
Qed.

Lemma close_selectors_lookup sels es (j : nat) :
  close_selectors sels es !! j
  = (if bool_decide (j ∈ sels) then with_classes (class_remove "open") else id)
      <$> es !! j.
Proof.
  unfold close_selectors.
  apply (foldl_alter_lookup (λ _, with_classes (class_remove "open"))).
  intros _ e. apply with_classes_idem, class_remove_idem.
Qed.

Lemma dispatch_path user ty (t : nat) d :
  dispatch user ty t d =
    let st := visit user (listeners d) ty
                (foldl (visit user (listeners d) ty)
                   (visit user (listeners d) ty (elems d, fresh_event) (Some t))
                   (Some <$> ancestors (elems d) t))
                None in
    (mkDoc st.1 (listeners d), st.2).
Proof.
  rewrite dispatch_eq, fmap_cons, <- app_comm_cons. cbn [foldl].
  by rewrite foldl_app.
Qed.

(** X18: a click that is not on or inside a dropdown's button reaches the
    document and closes every language dropdown, whatever other listeners
    ran on its way. *)
Theorem outside_click_closes_dropdowns user (d : Doc) (w : Main.Window) (t : nat) :
  listeners d = [] →
  (∀ j sel, j ∈ t :: ancestors (elems d) t →
            sel ∈ lang_selectors (elems d) →
            lang_button (elems d) sel ≠ Some j) →
  stopped (click user t (init (d, w)).1).2 = false ∧
  ∀ sel e, sel ∈ lang_selectors (elems d) →
           elems (click user t (init (d, w)).1).1 !! sel = Some e →
           "open" ∉ classList e.
Proof.
  intros Hl Hpath. unfold click. rewrite dispatch_eq.
  destruct (listeners_init d w Hl) as [Hes _]. rewrite Hes.
  rewrite foldl_app. cbn [foldl].
  set (st1 := foldl _ _ (Some <$> _)). cbn zeta.
  assert (stopped st1.2 = false) as Hs.
  { apply foldl_visit_not_stopped; [|done].
    intros tgt h sel (j & -> & Hj)%list_elem_of_fmap Hh ->.
    rewrite click_handlers_init in Hh by done.
    apply elem_of_app in Hh as [Hh|[Hh|Hh]%elem_of_app].
    - apply elem_of_handlers_on in Hh as (r & Hr & _ & _ & Hrh).
      apply sidebar_regs_target in Hr as (_ & _ & _ & _ & _ & Hno).
      by apply (Hno sel).
    - apply elem_of_handlers_on in Hh as (r & Hr & Ht & _ & Hrh).
      apply elem_of_lang_regs in Hr as (sel' & btn & Hsel' & Hb & ->).
      simpl in *. injection Ht as ->. by apply (Hpath j sel').
    - destruct (has_confirm (elems d) j);
        [by apply list_elem_of_singleton in Hh | by apply elem_of_nil in Hh]. }
  assert (visit user (listeners (init (d, w)).1) Click st1 None
          = (close_selectors (lang_selectors (elems d)) st1.1, st1.2)) as ->.
  { unfold visit. rewrite Hs, doc_handlers_init by done. by destruct st1. }
  cbn [fst snd elems]. split; [done|]. intros sel e Hsel.
  rewrite close_selectors_lookup, bool_decide_eq_true_2 by done.
  destruct (st1.1 !! sel) as [e1|]; [|done]. intros [= <-]. simpl.
  rewrite elem_of_class_remove. tauto.
Qed.

Lemma outside_click_closes_dropdowns_witness :
  is_open (elems MoreExamples.sample_doc) 4 = true ∧
  stopped (click MoreExamples.yes 2 (init (MoreExamples.sample_doc, Examples.alerts_window)).1).2 = false ∧
  ∀ sel e, sel ∈ lang_selectors (elems MoreExamples.sample_doc) →
           elems (click MoreExamples.yes 2 (init (MoreExamples.sample_doc, Examples.alerts_window)).1).1 !! sel = Some e →
           "open" ∉ classList e.
Proof.
  split; [reflexivity|].
  apply (outside_click_closes_dropdowns MoreExamples.yes MoreExamples.sample_doc Examples.alerts_window 2).
  - reflexivity.
  - intros j sel Hj Hsel. members Hj; members Hsel; by vm_compute.
Defined.

Lemma handlers_on_lang_regs es (btn : nat) :
  handlers_on (lang_regs es) (Some btn) Click
  = LangToggle <$> filter (λ sel, lang_button es sel = Some btn) (lang_selectors es).
Proof.
  unfold lang_regs, lang_selectors.
  induction (querySelectorAll _ es) as [|sel sels IH]; [done|].
  rewrite filter_cons. cbn [omap list_omap].
  destruct (lang_button es sel) as [b|] eqn:Hb; cbn [fmap option_fmap option_map].
  - rewrite handlers_on_cons, IH. simpl.
    destruct (decide (b = btn)) as [-> |Hne].
    + rewrite decide_True by done. by rewrite decide_True.
    + rewrite decide_False by (intros [[=] _]; done).
      rewrite decide_False by (intros [=]; done). done.
  - rewrite decide_False by done. apply IH.
Qed.

Lemma filter_none {A} (P : A → Prop) `{∀ x, Decision (P x)} (l : list A) :
  (∀ y, y ∈ l → ¬ P y) → filter P l = [].
Proof.
  induction l as [|a l IH]; intros Hno; [done|].
  rewrite filter_cons, decide_False by (apply Hno, elem_of_cons; by left).
  apply IH. intros y Hy. apply Hno, elem_of_cons; by right.
Qed.

Lemma filter_unique {A} (P : A → Prop) `{∀ x, Decision (P x)} (l : list A) (x : A) :
  NoDup l → x ∈ l → P x → (∀ y, y ∈ l → P y → y = x) → filter P l = [x].
Proof.
  induction 1 as [|a l Ha Hnd IH]; intros Hx HPx Huniq.
  - by apply elem_of_nil in Hx.
  - rewrite filter_cons. apply elem_of_cons in Hx as [<- |Hx].
    + rewrite decide_True by done. f_equal. apply filter_none.
      intros y Hy HPy. apply Ha.
      rewrite <- (Huniq y); [done| |done]. apply elem_of_cons; by right.
    + rewrite decide_False.
      * apply IH; [done|done|]. intros y Hy. apply Huniq, elem_of_cons; by right.
      * intros HPa. apply Ha. rewrite (Huniq a); [done| |done].
        apply elem_of_cons; by left.
Qed.

Lemma sidebar_handlers_none es (j : nat) e :
  es !! j = Some e →
  has_class "sidebar-toggle" e = false →
  has_class "sidebar-overlay" e = false →
  handlers_on (sidebar_regs es) (Some j) Click = [].
Proof.
  intros He Ht Ho. apply handlers_on_none.
  intros r (t & e' & Hrt & He' & Hc & _)%sidebar_regs_target [Ht' _].
  rewrite Hrt in Ht'. injection Ht' as ->. rewrite He in He'. injection He' as <-.
  destruct Hc; congruence.
Qed.

(** X19: a click on a dropdown's button toggles that dropdown and goes no
    further: every other element, an open dropdown included, stays as it
    is, and the default action is kept. *)
Theorem lang_button_click user (d : Doc) (w : Main.Window) (sel btn : nat) (e : Elem) :
  listeners d = [] →
  sel ∈ lang_selectors (elems d) →
  lang_button (elems d) sel = Some btn →
  (∀ sel', sel' ∈ lang_selectors (elems d) →
           lang_button (elems d) sel' = Some btn → sel' = sel) →
  elems d !! btn = Some e →
  has_class "sidebar-toggle" e = false →
  has_class "sidebar-overlay" e = false →
  has_attribute "data-confirm" e = false →
  click user btn (init (d, w)).1 =
    (mkDoc (alter (with_classes (class_toggle "open")) sel (elems d))
           (listeners (init (d, w)).1),
     mkEvent true false [] 0).
Proof.
  intros Hl Hsel Hb Huniq He Ht Ho Hc. unfold click. rewrite dispatch_path.
  destruct (listeners_init d w Hl) as [Hes _]. rewrite Hes.
  assert (handlers_on (listeners (init (d, w)).1) (Some btn) Click = [LangToggle sel])
    as Hh.
  { rewrite click_handlers_init by done.
    rewrite (sidebar_handlers_none _ _ e) by done.
    rewrite handlers_on_lang_regs.
    rewrite (filter_unique _ _ sel); [|apply NoDup_find_all|done|done|done].
    unfold has_confirm. rewrite bool_decide_eq_false_2; [done|].
    intros (e' & He' & Hc')%elem_of_querySelectorAll. congruence. }
  unfold visit at 3. cbn [fresh_event stopped snd]. rewrite Hh.
  cbn [run_handlers foldl run_handler].
  rewrite foldl_visit_stopped by done. unfold visit. done.
Qed.

Lemma lang_button_click_witness :
  is_open (elems MoreExamples.sample_doc) 4 = true ∧
  click MoreExamples.yes 7 (init (MoreExamples.sample_doc, Examples.alerts_window)).1 =
    (mkDoc (alter (with_classes (class_toggle "open")) 6%nat (elems MoreExamples.sample_doc))
           (listeners (init (MoreExamples.sample_doc, Examples.alerts_window)).1),
     mkEvent true false [] 0).
Proof.
  split; [reflexivity|].
  apply (lang_button_click MoreExamples.yes MoreExamples.sample_doc Examples.alerts_window 6 7
           (MoreExamples.el "button" (Some 6%nat) ["lang-btn"] [] None)).
  - reflexivity.
  - apply list_elem_of_In. vm_compute. auto.
  - reflexivity.
  - intros sel' Hsel' Hb. members Hsel'; [by vm_compute in Hb | reflexivity].
  - reflexivity.
  - reflexivity.
  - reflexivity.
  - reflexivity.
Defined.

Lemma confirm_message_attr es x e m :
  es !! x = Some e → attributes e !! "data-confirm" = Some m →
  confirm_message es x = if bool_decide (m = "") then "Are you sure?" else m.
Proof.
  intros Hx Hm. unfold confirm_message. rewrite Hx. simpl. by rewrite Hm.
Qed.

Lemma confirm_click_eq user (d : Doc) (w : Main.Window) (x : nat) (e : Elem) :
  listeners d = [] →
  elems d !! x = Some e →
  has_attribute "data-confirm" e = true →
  unwired (elems d) x →
  (∀ a, a ∈ ancestors (elems d) x →
        unwired (elems d) a ∧ has_confirm (elems d) a = false) →
  click user x (init (d, w)).1 =
    (mkDoc (close_selectors (lang_selectors (elems d)) (elems d))
           (listeners (init (d, w)).1),
     mkEvent false (negb (user 0)) [confirm_message (elems d) x] 0).
Proof.
  intros Hl He Hc Hu Hanc. unfold click. rewrite dispatch_path.
  destruct (listeners_init d w Hl) as [Hes _]. rewrite Hes.
  unfold visit at 3. cbn [fresh_event stopped snd].
  rewrite click_handlers_unwired by done.
  unfold has_confirm. rewrite bool_decide_eq_true_2
    by (apply elem_of_querySelectorAll; by exists e).
  cbn [run_handlers foldl run_handler fresh_event asked length].
  rewrite foldl_visit_nil.
  - unfold visit. rewrite doc_handlers_init by done. by destruct (user 0).
  - intros tgt (a & -> & Ha)%list_elem_of_fmap.
    destruct (Hanc a Ha) as [Hua Hca].
    rewrite click_handlers_unwired by done. by rewrite Hca.
Qed.

(** X20: a click on an element with [data-confirm] shows one prompt: the
    text of the attribute, or "Are you sure?" when the attribute is empty.
    It cancels the default action exactly when the user declines, and
    closes the language dropdowns on its way to the document. *)
Theorem confirm_click user (d : Doc) (w : Main.Window) (x : nat) (e : Elem)
    (m : string) :
  listeners d = [] →
  elems d !! x = Some e →
  attributes e !! "data-confirm" = Some m →
  unwired (elems d) x →
  (∀ a, a ∈ ancestors (elems d) x →
        unwired (elems d) a ∧ has_confirm (elems d) a = false) →
  asked (click user x (init (d, w)).1).2
    = [if bool_decide (m = "") then "Are you sure?" else m] ∧
  defaultPrevented (click user x (init (d, w)).1).2 = negb (user 0) ∧
  elems (click user x (init (d, w)).1).1
    = close_selectors (lang_selectors (elems d)) (elems d).
Proof.
  intros Hl He Hm Hu Hanc.
  assert (has_attribute "data-confirm" e = true) as Hc
    by (unfold has_attribute; rewrite Hm; by apply bool_decide_eq_true).
  rewrite (confirm_click_eq user d w x e) by done.
  rewrite (confirm_message_attr _ _ _ _ He Hm). done.
Qed.

Lemma confirm_click_witness :
  asked (click MoreExamples.no 12 (init (MoreExamples.sample_doc, Examples.alerts_window)).1).2
    = ["Delete the exam?"] ∧
  defaultPrevented (click MoreExamples.no 12 (init (MoreExamples.sample_doc, Examples.alerts_window)).1).2
    = true ∧
  elems (click MoreExamples.no 12 (init (MoreExamples.sample_doc, Examples.alerts_window)).1).1
    = close_selectors (lang_selectors (elems MoreExamples.sample_doc)) (elems MoreExamples.sample_doc).
Proof.
  apply (confirm_click MoreExamples.no MoreExamples.sample_doc Examples.alerts_window 12
           (MoreExamples.el "a" (Some 0%nat) [] [("data-confirm", "Delete the exam?")] None)
           "Delete the exam?").
  - reflexivity.
  - reflexivity.
  - reflexivity.
  - intros e [= <-]. by vm_compute.
  - intros a Ha. members Ha. split; [|reflexivity].
    intros e [= <-]. by vm_compute.
Defined.

Lemma sidebar_toggle_click_eq user (d : Doc) (w : Main.Window) (t s : nat) (e : Elem) :
  listeners d = [] →
  querySelector (λ _, has_class "sidebar-toggle") (elems d) = Some t →
  querySelector (λ _, has_class "sidebar") (elems d) = Some s →
  elems d !! t = Some e →
  has_class "sidebar-overlay" e = false →
  has_class "lang-btn" e = false →
  has_attribute "data-confirm" e = false →
  (∀ a, a ∈ ancestors (elems d) t →
        unwired (elems d) a ∧ has_confirm (elems d) a = false) →
  click user t (init (d, w)).1 =
    (mkDoc
       (close_selectors (lang_selectors (elems d))
          (run_handler user
             (SidebarToggle s
                (querySelector (λ _, has_class "sidebar-overlay") (elems d)))
             (elems d, fresh_event)).1)
       (listeners (init (d, w)).1),
     fresh_event).
Proof.
  intros Hl Ht Hs He Ho Hb Hc Hanc. unfold click. rewrite dispatch_path.
  destruct (listeners_init d w Hl) as [Hes _]. rewrite Hes.
  assert (handlers_on (listeners (init (d, w)).1) (Some t) Click
          = [SidebarToggle s
               (querySelector (λ _, has_class "sidebar-overlay") (elems d))]) as Hh.
  { rewrite click_handlers_init by done.
    rewrite (handlers_on_none (lang_regs _)).
    - unfold has_confirm. rewrite bool_decide_eq_false_2.
      + unfold sidebar_regs. rewrite Ht, Hs.
        destruct (querySelector (λ _, has_class "sidebar-overlay") (elems d))
          as [o|] eqn:Hov.
        * apply querySelector_Some in Hov as (eo & Heo & Hco).
          rewrite !handlers_on_cons, handlers_on_nil. simpl.
          rewrite decide_True by done.
          rewrite decide_False; [done|]. intros [[= ->] _]. congruence.
        * rewrite handlers_on_cons, handlers_on_nil. simpl.
          by rewrite decide_True.
      + intros (e' & He' & Hc')%elem_of_querySelectorAll. congruence.
    - intros r (sel & btn & _ & Hbtn & ->)%elem_of_lang_regs [[= ->] _].
      apply lang_button_class in Hbtn as (e' & He' & Hc'). congruence. }
  unfold visit at 3. cbn [fresh_event stopped snd]. rewrite Hh.
  cbn [run_handlers foldl].
  rewrite foldl_visit_nil.
  - unfold visit. rewrite doc_handlers_init by done.
    cbn [run_handler]. by destruct (querySelector _ _).
  - intros tgt (a & -> & Ha)%list_elem_of_fmap.
    destruct (Hanc a Ha) as [Hua Hca].
    rewrite click_handlers_unwired by done. by rewrite Hca.
Qed.

(** *** Open and closed *)
Lemma has_class_toggle c e :
  has_class c (with_classes (class_toggle c) e) = negb (has_class c e).
Proof.
  unfold has_class; simpl. destruct (decide (c ∈ classList e)) as [Hc|Hc].
  - rewrite (bool_decide_eq_true_2 _ Hc). simpl. apply bool_decide_eq_false_2.
    rewrite elem_of_class_toggle. tauto.
  - rewrite (bool_decide_eq_false_2 _ Hc). simpl. apply bool_decide_eq_true_2.
    rewrite elem_of_class_toggle. tauto.
Qed.

Lemma has_class_remove c e :
  has_class c (with_classes (class_remove c) e) = false.
Proof.
  unfold has_class; simpl. apply bool_decide_eq_false_2.
  rewrite elem_of_class_remove. tauto.
Qed.

Lemma is_open_toggle es (j : nat) :
  is_open (alter (with_classes (class_toggle "open")) j es) j
  = match es !! j with Some _ => negb (is_open es j) | None => false end.
Proof.
  unfold is_open. rewrite list_lookup_alter_eq.
  destruct (es !! j); simpl; [apply has_class_toggle | done].
Qed.

Lemma is_open_remove es (j : nat) :
  is_open (alter (with_classes (class_remove "open")) j es) j = false.
Proof.
  unfold is_open. rewrite list_lookup_alter_eq.
  destruct (es !! j); simpl; [apply has_class_remove | done].
Qed.

Lemma is_open_alter_ne f es (i j : nat) :
  i ≠ j → is_open (alter f i es) j = is_open es j.
Proof. intros Hne. unfold is_open. by rewrite list_lookup_alter_ne. Qed.

Lemma is_open_close_selectors sels es (j : nat) :
  is_open (close_selectors sels es) j
  = if bool_decide (j ∈ sels) then false else is_open es j.
Proof.
  unfold is_open. rewrite close_selectors_lookup.
  destruct (es !! j) as [e|]; simpl; [|by case_bool_decide].
  case_bool_decide; [apply has_class_remove | done].
Qed.

(** X21: a click on the sidebar's button flips [open] on the sidebar and
    on the overlay and, reaching the document, closes every language
    dropdown; the event is neither stopped nor cancelled. *)
Theorem sidebar_toggle_click user (d : Doc) (w : Main.Window) (t s : nat) (e : Elem) :
  listeners d = [] →
  querySelector (λ _, has_class "sidebar-toggle") (elems d) = Some t →
  querySelector (λ _, has_class "sidebar") (elems d) = Some s →
  elems d !! t = Some e →
  has_class "sidebar-overlay" e = false →
  has_class "lang-btn" e = false →
  has_attribute "data-confirm" e = false →
  (∀ a, a ∈ ancestors (elems d) t →
        unwired (elems d) a ∧ has_confirm (elems d) a = false) →
  (click user t (init (d, w)).1).2 = fresh_event ∧
  (∀ sel, sel ∈ lang_selectors (elems d) →
          is_open (elems (click user t (init (d, w)).1).1) sel = false) ∧
  (s ∉ lang_selectors (elems d) →
   querySelector (λ _, has_class "sidebar-overlay") (elems d) ≠ Some s →
   is_open (elems (click user t (init (d, w)).1).1) s = negb (is_open (elems d) s)) ∧
  (∀ o, querySelector (λ _, has_class "sidebar-overlay") (elems d) = Some o →
        o ∉ lang_selectors (elems d) → o ≠ s →
        is_open (elems (click user t (init (d, w)).1).1) o
          = negb (is_open (elems d) o)).
Proof.
  intros Hl Ht Hs He Ho Hb Hc Hanc.
  rewrite (sidebar_toggle_click_eq user d w t s e) by done. cbn [fst snd elems].
  split; [done|]. split; [|split].
  - intros sel Hsel. rewrite is_open_close_selectors. by rewrite bool_decide_eq_true_2.
  - intros Hns Hos. rewrite is_open_close_selectors, bool_decide_eq_false_2 by done.
    apply querySelector_Some in Hs as (es' & Hes' & _).
    cbn [run_handler fst].
    destruct (querySelector (λ _, has_class "sidebar-overlay") (elems d)) as [o|].
    + rewrite is_open_alter_ne by congruence. by rewrite is_open_toggle, Hes'.
    + by rewrite is_open_toggle, Hes'.
  - intros o Hov Hno Hos. rewrite is_open_close_selectors, bool_decide_eq_false_2 by done.
    rewrite Hov. cbn [run_handler fst].
    apply querySelector_Some in Hov as (eo & Heo & _).
    rewrite is_open_toggle, list_lookup_alter_ne, Heo by done.
    by rewrite is_open_alter_ne.
Qed.

Lemma sidebar_toggle_click_witness :
  (click MoreExamples.yes 2 (init (MoreExamples.sample_doc, Examples.alerts_window)).1).2 = fresh_event ∧
  (∀ sel, sel ∈ lang_selectors (elems MoreExamples.sample_doc) →
          is_open (elems (click MoreExamples.yes 2 (init (MoreExamples.sample_doc, Examples.alerts_window)).1).1) sel = false) ∧
  (1%nat ∉ lang_selectors (elems MoreExamples.sample_doc) →
   querySelector (λ _, has_class "sidebar-overlay") (elems MoreExamples.sample_doc) ≠ Some 1%nat →
   is_open (elems (click MoreExamples.yes 2 (init (MoreExamples.sample_doc, Examples.alerts_window)).1).1) 1
     = negb (is_open (elems MoreExamples.sample_doc) 1)) ∧
  (∀ o, querySelector (λ _, has_class "sidebar-overlay") (elems MoreExamples.sample_doc) = Some o →
        o ∉ lang_selectors (elems MoreExamples.sample_doc) → o ≠ 1%nat →
        is_open (elems (click MoreExamples.yes 2 (init (MoreExamples.sample_doc, Examples.alerts_window)).1).1) o
          = negb (is_open (elems MoreExamples.sample_doc) o)).
Proof.
  apply (sidebar_toggle_click MoreExamples.yes MoreExamples.sample_doc Examples.alerts_window 2 1
           (MoreExamples.el "button" (Some 0%nat) ["sidebar-toggle"] [] None)).
  - reflexivity.
  - reflexivity.
  - reflexivity.
  - reflexivity.
  - reflexivity.
  - reflexivity.
  - reflexivity.
  - intros a Ha. members Ha. split; [|reflexivity].
    intros e [= <-]. by vm_compute.
Defined.

(** X22: two runs of the sidebar button's listener undo each other: every
    element has the classes it had (in some order), also when sidebar and
    overlay are one element or there is no overlay. *)
Theorem sidebar_toggle_twice user (s : nat) (o : option nat) (es : list Elem)
    (ev : Event) (j : nat) :
  (run_handler user (SidebarToggle s o)
     (run_handler user (SidebarToggle s o) (es, ev))).2 = ev ∧
  ∃ f : Elem → Elem,
    (run_handler user (SidebarToggle s o)
       (run_handler user (SidebarToggle s o) (es, ev))).1 !! j = f <$> es !! j ∧
    ∀ e, tagName (f e) = tagName e ∧ parent (f e) = parent e ∧
         attributes (f e) = attributes e ∧ value (f e) = value e ∧
         ∀ c, c ∈ classList (f e) ↔ c ∈ classList e.
Proof.
  set (T := with_classes (class_toggle "open")).
  assert (∀ e, tagName (T (T e)) = tagName e ∧ parent (T (T e)) = parent e ∧
               attributes (T (T e)) = attributes e ∧ value (T (T e)) = value e ∧
               ∀ c, c ∈ classList (T (T e)) ↔ c ∈ classList e) as HTT.
  { intros e. do 4 (split; [done|]). intros c. apply class_toggle_twice. }
  split; [by destruct o|]. destruct o as [o|]; cbn [run_handler fst]; fold T.
  - destruct (decide (s = o)) as [<- |Hso].
    + rewrite !list_alter_alter_eq. destruct (decide (s = j)) as [<- |Hsj].
      * exists (T ∘ T ∘ (T ∘ T)). rewrite list_lookup_alter_eq. split; [done|].
        intros e. destruct (HTT e) as (? & ? & ? & ? & Hc).
        destruct (HTT (T (T e))) as (? & ? & ? & ? & Hc'). unfold compose.
        do 4 (split; [congruence|]). intros x. rewrite Hc'. apply Hc.
      * exists id. rewrite list_lookup_alter_ne by done.
        split; [by destruct (es !! j)|done].
    + rewrite (list_alter_alter_ne T T _ s o) by done.
      rewrite !list_alter_alter_eq.
      destruct (decide (o = j)) as [<- |Hoj].
      * exists (T ∘ T). rewrite list_lookup_alter_eq, list_lookup_alter_ne by done.
        split; [done | apply HTT].
      * rewrite list_lookup_alter_ne by done. destruct (decide (s = j)) as [<- |Hsj].
        -- exists (T ∘ T). rewrite list_lookup_alter_eq. split; [done | apply HTT].
        -- exists id. rewrite list_lookup_alter_ne by done.
           split; [by destruct (es !! j)|done].
  - rewrite list_alter_alter_eq. destruct (decide (s = j)) as [<- |Hsj].
    + exists (T ∘ T). rewrite list_lookup_alter_eq. split; [done | apply HTT].
    + exists id. rewrite list_lookup_alter_ne by done.
      split; [by destruct (es !! j)|done].
Qed.

Lemma overlay_click_eq user (d : Doc) (w : Main.Window) (t s o : nat) (e : Elem) :
  listeners d = [] →
  querySelector (λ _, has_class "sidebar-toggle") (elems d) = Some t →
  querySelector (λ _, has_class "sidebar") (elems d) = Some s →
  querySelector (λ _, has_class "sidebar-overlay") (elems d) = Some o →
  elems d !! o = Some e →
  has_class "sidebar-toggle" e = false →
  has_class "lang-btn" e = false →
  has_attribute "data-confirm" e = false →
  (∀ a, a ∈ ancestors (elems d) o →
        unwired (elems d) a ∧ has_confirm (elems d) a = false) →
  click user o (init (d, w)).1 =
    (mkDoc
       (close_selectors (lang_selectors (elems d))
          (alter (with_classes (class_remove "open")) o
             (alter (with_classes (class_remove "open")) s (elems d))))
       (listeners (init (d, w)).1),
     fresh_event).
Proof.
  intros Hl Ht Hs Ho He Hnt Hb Hc Hanc. unfold click. rewrite dispatch_path.
  destruct (listeners_init d w Hl) as [Hes _]. rewrite Hes.
  assert (handlers_on (listeners (init (d, w)).1) (Some o) Click
          = [SidebarClose s o]) as Hh.
  { rewrite click_handlers_init by done.
    rewrite (handlers_on_none (lang_regs _)).
    - unfold has_confirm. rewrite bool_decide_eq_false_2.
      + unfold sidebar_regs. rewrite Ht, Hs, Ho.
        apply querySelector_Some in Ht as (et & Het & Hct).
        rewrite !handlers_on_cons, handlers_on_nil. simpl.
        rewrite decide_False by (intros [[= ->] _]; congruence).
        by rewrite decide_True.
      + intros (e' & He' & Hc')%elem_of_querySelectorAll. congruence.
    - intros r (sel & btn & _ & Hbtn & ->)%elem_of_lang_regs [[= ->] _].
      apply lang_button_class in Hbtn as (e' & He' & Hc'). congruence. }
  unfold visit at 3. cbn [fresh_event stopped snd]. rewrite Hh.
  cbn [run_handlers foldl].
  rewrite foldl_visit_nil.
  - unfold visit. by rewrite doc_handlers_init.
  - intros tgt (a & -> & Ha)%list_elem_of_fmap.
    destruct (Hanc a Ha) as [Hua Hca].
    rewrite click_handlers_unwired by done. by rewrite Hca.
Qed.

(** X23: a click on the overlay leaves sidebar and overlay closed,
    whatever their state was, and closes the language dropdowns. *)
Theorem overlay_click user (d : Doc) (w : Main.Window) (t s o : nat) (e : Elem) :
  listeners d = [] →
  querySelector (λ _, has_class "sidebar-toggle") (elems d) = Some t →
  querySelector (λ _, has_class "sidebar") (elems d) = Some s →
  querySelector (λ _, has_class "sidebar-overlay") (elems d) = Some o →
  elems d !! o = Some e →
  has_class "sidebar-toggle" e = false →
  has_class "lang-btn" e = false →
  has_attribute "data-confirm" e = false →
  (∀ a, a ∈ ancestors (elems d) o →
        unwired (elems d) a ∧ has_confirm (elems d) a = false) →
  (click user o (init (d, w)).1).2 = fresh_event ∧
  is_open (elems (click user o (init (d, w)).1).1) s = false ∧
  is_open (elems (click user o (init (d, w)).1).1) o = false ∧
  ∀ sel, sel ∈ lang_selectors (elems d) →
         is_open (elems (click user o (init (d, w)).1).1) sel = false.
Proof.
  intros Hl Ht Hs Ho He Hnt Hb Hc Hanc.
  rewrite (overlay_click_eq user d w t s o e) by done. cbn [fst snd elems].
  split; [done|]. rewrite !is_open_close_selectors.
  split; [|split].
  - case_bool_decide; [done|]. destruct (decide (o = s)) as [-> |Hne].
    + apply is_open_remove.
    + rewrite is_open_alter_ne by done. apply is_open_remove.
  - case_bool_decide; [done|]. apply is_open_remove.
  - intros sel Hsel. rewrite is_open_close_selectors.
    by rewrite bool_decide_eq_true_2.
Qed.

Lemma overlay_click_witness :
  (click MoreExamples.yes 3 (init (MoreExamples.sample_doc, Examples.alerts_window)).1).2 = fresh_event ∧
  is_open (elems (click MoreExamples.yes 3 (init (MoreExamples.sample_doc, Examples.alerts_window)).1).1) 1 = false ∧
  is_open (elems (click MoreExamples.yes 3 (init (MoreExamples.sample_doc, Examples.alerts_window)).1).1) 3 = false ∧
  ∀ sel, sel ∈ lang_selectors (elems MoreExamples.sample_doc) →
         is_open (elems (click MoreExamples.yes 3 (init (MoreExamples.sample_doc, Examples.alerts_window)).1).1) sel = false.
Proof.
  apply (overlay_click MoreExamples.yes MoreExamples.sample_doc Examples.alerts_window 2 1 3
           (MoreExamples.el "div" (Some 0%nat) ["sidebar-overlay"] [] None)).
  - reflexivity.
  - reflexivity.
  - reflexivity.
  - reflexivity.
  - reflexivity.
  - reflexivity.
  - reflexivity.
  - reflexivity.
  - intros a Ha. members Ha. split; [|reflexivity].
    intros e [= <-]. by vm_compute.
Defined.
End MainDomFacts.
